(** * Furigana plugin: batch generation, background scan and web demo

    A shallow embedding of [bulk.py], [__init__.py] (scan logic) and
    [app.py].  Python [str] values are sequences of Unicode code points;
    the note collection, the analyzer handle, the clock and the progress
    observer are threaded through an explicit world. *)

From Stdlib Require Import String Ascii QArith Lqa.
From stdpp Require Import gmap list.

Local Open Scope N_scope.

(** ** Python strings *)

Module Py.

(** A Python [str]: one [N] per code point. *)
Abbreviation str := (list N).

(** ASCII literals of the source, as code points. *)
Fixpoint lit (s : string) : str :=
  match s with
  | EmptyString => []
  | String a t => N_of_ascii a :: lit t
  end.

(** [a == b] on strings. *)
Definition eqb (a b : str) : bool := bool_decide (a = b).

(** Truthiness of a string: [bool(s)]. *)
Definition truthy (s : str) : bool :=
  match s with [] => false | _ :: _ => true end.

(** [str.isspace] on one code point (CPython's [_PyUnicode_IsWhitespace]). *)
Definition is_space (c : N) : bool :=
  ((9 <=? c) && (c <=? 13)) || ((28 <=? c) && (c <=? 32))
  || (c =? 133) || (c =? 160) || (c =? 5760)
  || ((8192 <=? c) && (c <=? 8202))
  || (c =? 8232) || (c =? 8233) || (c =? 8239) || (c =? 8287)
  || (c =? 12288).

Fixpoint lstrip (s : str) : str :=
  match s with
  | [] => []
  | c :: t => if is_space c then lstrip t else s
  end.

Definition rstrip (s : str) : str := rev (lstrip (rev s)).

(** [s.strip()] with no argument. *)
Definition strip (s : str) : str := rstrip (lstrip s).

(** [s.startswith(p)]. *)
Fixpoint startswith (p s : str) : bool :=
  match p, s with
  | [], _ => true
  | _ :: _, [] => false
  | a :: p', b :: s' => (a =? b) && startswith p' s'
  end.

(** [s.replace(old, new)] for a non-empty [old]: leftmost occurrences,
    not overlapping.  [fuel] bounds the number of scanning steps. *)
Fixpoint replace_from (fuel : nat) (old new s : str) : str :=
  match fuel with
  | O => s
  | S f =>
      match s with
      | [] => []
      | c :: t =>
          if startswith old s
          then new ++ replace_from f old new (drop (length old) s)
          else c :: replace_from f old new t
      end
  end.

(** [s.replace(old, new)]; with an empty [old] Python puts [new]
    before every character and at the end. *)
Definition replace (old new s : str) : str :=
  match old with
  | [] => new ++ concat (map (fun c => c :: new) s)
  | _ :: _ => replace_from (length s) old new s
  end.

End Py.

Import Py.

(** ** The regular expression [<[^<]+?>] *)

Module TagRe.

Definition lt_sign : N := 60.
Definition gt_sign : N := 62.

(** After [<] and one character that is not [<]: the lazy [+?] takes
    further characters other than [<] until the first [>].  Returns the
    text after the match. *)
Fixpoint lazy_tail (s : str) : option str :=
  match s with
  | [] => None
  | c :: t =>
      if c =? gt_sign then Some t
      else if c =? lt_sign then None
      else lazy_tail t
  end.

(** A match of [<[^<]+?>] anchored at the head of [s]. *)
Definition match_here (s : str) : option str :=
  match s with
  | c0 :: c1 :: t =>
      if (c0 =? lt_sign) && negb (c1 =? lt_sign) then lazy_tail t else None
  | _ => None
  end.

(** [re.sub('<[^<]+?>', '', s)]: scan from the left, drop each match,
    go on after it. *)
Fixpoint sub_from (fuel : nat) (s : str) : str :=
  match fuel with
  | O => s
  | S f =>
      match s with
      | [] => []
      | c :: t =>
          match match_here s with
          | Some rest => sub_from f rest
          | None => c :: sub_from f t
          end
      end
  end.

Definition sub (s : str) : str := sub_from (length s) s.

End TagRe.

(** ** [is_field_effectively_empty] *)

Definition nbsp : str := lit "&nbsp;".

Definition is_field_effectively_empty (field_content : str) : bool :=
  if negb (truthy field_content) then true
  else
    let text_only := TagRe.sub field_content in
    negb (truthy (replace nbsp [] (strip text_only))).


(** The per-note decision of the scan: destination effectively empty, or
    equal to the source. *)
Definition needsGeneration (source_text destination_text : str) : bool :=
  is_field_effectively_empty destination_text
  || Py.eqb source_text destination_text.

(** ** Errors and results *)

Inductive exn : Type :=
| TokenizerUnavailable   (* raised by the analyzer adapter *)
| NotFoundError          (* [get_note] on an unknown id *)
| TypeError.             (* [None + '::'] *)

Inductive result (A : Type) : Type :=
| Ok (a : A)
| Raise (e : exn).
Arguments Ok {A} a.
Arguments Raise {A} e.

(** ** Notes, field pairs, rules, requests *)

(** A note: its fields by name, and the name of the deck of its first
    card ([None] when [note.cards()] is empty or the deck lookup gives
    nothing). *)
Record Note : Type := mkNote {
  fields : gmap str str;
  deck : option str
}.

(** [key in note]. *)
Definition has_field (key : str) (note : gmap str str) : bool :=
  bool_decide (is_Some (note !! key)).

(** One entry of [field_pairs] / [fieldPairs]: [pair.get("source")] and
    [pair.get("destination")], [None] when the key is absent. *)
Record pair : Type := mkPair {
  source : option str;
  destination : option str
}.

(** One rule of the automatic scan: [rule.get("deckName")] and
    [rule.get("fieldPairs", [])]. *)
Record rule : Type := mkRule {
  deckName : option str;
  fieldPairs : list pair
}.

(** The persisted options read through [config]. *)
Record Config : Type := mkConfig {
  getIgnoreNumbers : bool;
  getUseRubyTags : bool
}.

(** JSON body of a request to [/api/furigana]. *)
Record request : Type := mkRequest {
  req_text : option str;
  req_useRubyTags : option bool
}.

(** [not x] for the value of a [dict.get] that may be [None]. *)
Definition falsy (x : option str) : bool :=
  match x with
  | None => true
  | Some s => negb (truthy s)
  end.

(** An executed [note[field] = value], with the content it replaced. *)
Record assignment : Type := mkAssign {
  as_note : Z;
  as_field : str;
  as_old : str;
  as_new : str
}.

(** One invocation of the progress callback: its two arguments, the
    clock reading that passed the rate test just before it, and the
    reading taken just after it, which becomes [last_progress_update]. *)
Record report : Type := mkReport {
  rp_done : nat;
  rp_total : nat;
  rp_tested : Q;
  rp_stamp : Q
}.

(** ** The world the plugin runs in *)

(** Everything the code reads or changes outside its local variables.
    [MecabState] is the state of the analyzer handle behind
    [mecab.reading].  [clock] gives the successive values of
    [time.time()], [ticks] counts the readings taken so far. *)
Record World (MecabState : Type) : Type := mkWorld {
  mecab : MecabState;
  readings : list (str * bool * bool);   (* calls of [mecab.reading] *)
  notes : gmap Z Note;                   (* the stored collection *)
  assigns : list assignment;             (* field assignments, in order *)
  writes : list Z;                       (* [update_note] / [flush] calls *)
  undo_entries : nat;                    (* [add_custom_undo_entry] calls *)
  undo_merges : nat;                     (* [merge_undo_entries] calls *)
  clock : nat -> Q;
  ticks : nat;
  reports : list report                  (* progress callback calls *)
}.
Arguments mkWorld {MecabState}.
Arguments mecab {MecabState}.
Arguments readings {MecabState}.
Arguments notes {MecabState}.
Arguments assigns {MecabState}.
Arguments writes {MecabState}.
Arguments undo_entries {MecabState}.
Arguments undo_merges {MecabState}.
Arguments clock {MecabState}.
Arguments ticks {MecabState}.
Arguments reports {MecabState}.

(** Computations that change the world and may raise. *)
Definition M (S A : Type) : Type := World S -> World S * result A.

Definition ret {S A : Type} (a : A) : M S A := fun w => (w, Ok a).

Definition raise {S A : Type} (e : exn) : M S A := fun w => (w, Raise e).

Definition bind {S A B : Type} (m : M S A) (k : A -> M S B) : M S B :=
  fun w =>
    match m w with
    | (w', Ok a) => k a w'
    | (w', Raise e) => (w', Raise e)
    end.

Declare Scope py_scope.
Delimit Scope py_scope with py.
Notation "x <- m ;; k" := (bind m (fun x => k))
  (at level 100, m at next level, right associativity) : py_scope.
Notation "m ;;; k" := (bind m (fun _ => k))
  (at level 100, right associativity) : py_scope.

(** The 0.1 s threshold of the progress rate test. *)
Definition progress_period : Q := (1 # 10)%Q.

Section Engine.

Context {MecabState : Type}.

(** The analyzer adapter [MecabController.reading(expr, ignoreNumbers,
    useRubyTags)] of [reading.py]: from the state of the handle, the new
    state and the annotated text or the error raised. *)
Variable reading_impl :
  MecabState -> str -> bool -> bool -> MecabState * result str.

(** [removeFurigana] of [utils.py]. *)
Variable removeFurigana : str -> str.

(** The default of [reading]'s [ignoreNumbers] parameter, which
    [app.py] leaves unset. *)
Variable reading_default_ignoreNumbers : bool.

(** [mw.col.find_notes(query)]: whether the search [query] selects the
    note with this id. *)
Variable search : str -> Z -> Note -> bool.

Local Open Scope py_scope.
Local Abbreviation W := (World MecabState).
Local Abbreviation Cmd := (M MecabState).

(** *** Primitive operations *)

(** [mecab.reading(expr, ignoreNumbers, useRubyTags)]. *)
Definition mecab_reading (expr : str) (ignoreNumbers useRubyTags : bool)
  : Cmd str :=
  fun w =>
    let '(m', r) := reading_impl (mecab w) expr ignoreNumbers useRubyTags in
    (mkWorld m' (readings w ++ [(expr, ignoreNumbers, useRubyTags)])
             (notes w) (assigns w) (writes w) (undo_entries w)
             (undo_merges w) (clock w) (ticks w) (reports w),
     r).

(** [collection.get_note(noteId)]. *)
Definition get_note (noteId : Z) : Cmd Note :=
  fun w =>
    match notes w !! noteId with
    | Some note => (w, Ok note)
    | None => (w, Raise NotFoundError)
    end.

(** [collection.update_note(note)] and [note.flush()]: store the note. *)
Definition store_note (noteId : Z) (note : Note) : Cmd unit :=
  fun w =>
    (mkWorld (mecab w) (readings w) (<[noteId := note]> (notes w))
             (assigns w) (writes w ++ [noteId]) (undo_entries w)
             (undo_merges w) (clock w) (ticks w) (reports w),
     Ok tt).

(** [note[field] = value] on the loaded note [flds]. *)
Definition assign_field (noteId : Z) (field value : str)
    (flds : gmap str str) : Cmd (gmap str str) :=
  fun w =>
    (mkWorld (mecab w) (readings w) (notes w)
             (assigns w ++ [mkAssign noteId field (flds !!! field) value])
             (writes w) (undo_entries w) (undo_merges w) (clock w)
             (ticks w) (reports w),
     Ok (<[field := value]> flds)).

(** [collection.add_custom_undo_entry(...)]. *)
Definition add_custom_undo_entry : Cmd unit :=
  fun w =>
    (mkWorld (mecab w) (readings w) (notes w) (assigns w) (writes w)
             (S (undo_entries w)) (undo_merges w) (clock w) (ticks w)
             (reports w),
     Ok tt).

(** [collection.merge_undo_entries(undo_entry)]. *)
Definition merge_undo_entries : Cmd unit :=
  fun w =>
    (mkWorld (mecab w) (readings w) (notes w) (assigns w) (writes w)
             (undo_entries w) (S (undo_merges w)) (clock w) (ticks w)
             (reports w),
     Ok tt).

(** [time.time()]. *)
Definition time_time : Cmd Q :=
  fun w =>
    (mkWorld (mecab w) (readings w) (notes w) (assigns w) (writes w)
             (undo_entries w) (undo_merges w) (clock w) (S (ticks w))
             (reports w),
     Ok (clock w (ticks w))).

(** The call [progress(done, total)].  With the two arguments the entry
    keeps the clock reading [tested] that let the call through and the
    value the clock has for its next reading, the one assigned to
    [last_progress_update] right after the call. *)
Definition progress (done total : nat) (tested : Q) : Cmd unit :=
  fun w =>
    (mkWorld (mecab w) (readings w) (notes w) (assigns w) (writes w)
             (undo_entries w) (undo_merges w) (clock w) (ticks w)
             (reports w ++ [mkReport done total tested (clock w (ticks w))]),
     Ok tt).

(** *** [bulk.py] *)

(** The guard [not html or not html.strip()]. *)
Definition is_blank (html : str) : bool :=
  negb (truthy html) || negb (truthy (strip html)).

Definition generateFurigana (html : str)
    (ignore_numbers use_ruby_tags : bool) : Cmd str :=
  if is_blank html then ret []
  else
    let html_no_furigana := removeFurigana html in
    html_with_furigana <-
      mecab_reading html_no_furigana ignore_numbers use_ruby_tags ;;
    ret html_with_furigana.

(** One turn of the inner loop over [field_pairs]; the state is the
    loaded note and [is_modified]. *)
Definition bulk_pair (noteId : Z) (ignore_numbers use_ruby_tags : bool)
    (p : pair) (st : gmap str str * bool) : Cmd (gmap str str * bool) :=
  let '(note, is_modified) := st in
  if falsy (source p) || falsy (destination p) then ret st
  else
    match source p, destination p with
    | Some source_field, Some dest_field =>
        if has_field source_field note && has_field dest_field note
           && truthy (note !!! source_field)
        then
          let source_text := note !!! source_field in
          generated_text <-
            generateFurigana source_text ignore_numbers use_ruby_tags ;;
          if negb (Py.eqb (note !!! dest_field) generated_text)
          then
            note' <- assign_field noteId dest_field generated_text note ;;
            ret (note', true)
          else ret st
        else ret st
    | _, _ => ret st
    end.

Fixpoint bulk_pairs (noteId : Z) (ignore_numbers use_ruby_tags : bool)
    (field_pairs : list pair) (st : gmap str str * bool)
  : Cmd (gmap str str * bool) :=
  match field_pairs with
  | [] => ret st
  | p :: rest =>
      st' <- bulk_pair noteId ignore_numbers use_ruby_tags p st ;;
      bulk_pairs noteId ignore_numbers use_ruby_tags rest st'
  end.

(** The end of a turn of the loop over [enumerate(noteIds)]: the rate
    test and the progress call; the result is the new value of
    [last_progress_update].  [progress] is a callable or [None]:
    [has_progress] says which. *)
Definition update_progress (has_progress : bool) (total_notes i : nat)
    (last_progress_update : Q) : Cmd Q :=
  now <- time_time ;;
  if Qle_bool progress_period (now - last_progress_update)
  then
    (if has_progress then progress (S i) total_notes now else ret tt) ;;;
    time_time
  else ret last_progress_update.

(** The body of the loop over [enumerate(noteIds)]; the state is
    [(last_progress_update, notes_modified_count)]. *)
Definition bulk_note (field_pairs : list pair) (has_progress : bool)
    (ignore_numbers use_ruby_tags : bool) (total_notes : nat)
    (i : nat) (noteId : Z) (st : Q * nat) : Cmd (Q * nat) :=
  let '(last_progress_update, notes_modified_count) := st in
  note <- get_note noteId ;;
  r <- bulk_pairs noteId ignore_numbers use_ruby_tags field_pairs
         (fields note, false) ;;
  let '(flds, is_modified) := r in
  count <-
    (if is_modified : bool
     then
       store_note noteId (mkNote flds (deck note)) ;;;
       merge_undo_entries ;;;
       ret (S notes_modified_count)
     else ret notes_modified_count) ;;
  last <- update_progress has_progress total_notes i last_progress_update ;;
  ret (last, count).

Fixpoint bulk_loop (field_pairs : list pair) (has_progress : bool)
    (ignore_numbers use_ruby_tags : bool) (total_notes : nat)
    (i : nat) (noteIds : list Z) (st : Q * nat) : Cmd (Q * nat) :=
  match noteIds with
  | [] => ret st
  | noteId :: rest =>
      st' <- bulk_note field_pairs has_progress ignore_numbers
               use_ruby_tags total_notes i noteId st ;;
      bulk_loop field_pairs has_progress ignore_numbers use_ruby_tags
        total_notes (S i) rest st'
  end.

Definition bulkGenerate (noteIds : list Z) (field_pairs : list pair)
    (has_progress : bool) (ignore_numbers use_ruby_tags : bool)
  : Cmd nat :=
  add_custom_undo_entry ;;;
  st <- bulk_loop field_pairs has_progress ignore_numbers use_ruby_tags
          (length noteIds) 0 noteIds (0%Q, 0%nat) ;;
  ret (snd st).

(** *** [__init__.py]: the scan *)

(** [key in note] for the value of [pair.get(...)]. *)
Definition field_in (key : option str) (note : gmap str str) : bool :=
  match key with
  | Some k => has_field k note
  | None => false
  end.

(** The query [f'deck:"{rule_deck_name}"']. *)
Definition deck_query (rule_deck_name : str) : str :=
  lit "deck:" ++ [34] ++ rule_deck_name ++ [34].

(** [mw.col.find_notes(query)]. *)
Definition find_notes (query : str) : Cmd (list Z) :=
  fun w =>
    (w, Ok (map fst (filter (fun e => search query (fst e) (snd e))
                            (map_to_list (notes w))))).

(** The loop over the pairs of one rule for one note, with its
    [break]. *)
Fixpoint select_pairs (nid : Z) (note : gmap str str)
    (pairs : list pair) (notes_to_process_ids : gset Z) : gset Z :=
  match pairs with
  | [] => notes_to_process_ids
  | p :: rest =>
      match source p, destination p with
      | Some src_field, Some dest_field =>
          if has_field src_field note && has_field dest_field note
             && truthy (note !!! src_field)
          then
            let source_text := note !!! src_field in
            let destination_text := note !!! dest_field in
            if is_field_effectively_empty destination_text
               || Py.eqb source_text destination_text
            then {[nid]} ∪ notes_to_process_ids
            else select_pairs nid note rest notes_to_process_ids
          else select_pairs nid note rest notes_to_process_ids
      | _, _ => select_pairs nid note rest notes_to_process_ids
      end
  end.

Fixpoint select_notes (r : rule) (nids : list Z)
    (notes_to_process_ids : gset Z) : Cmd (gset Z) :=
  match nids with
  | [] => ret notes_to_process_ids
  | nid :: rest =>
      note <- get_note nid ;;
      select_notes r rest
        (select_pairs nid (fields note) (fieldPairs r)
           notes_to_process_ids)
  end.

Fixpoint select_rules (rules : list rule)
    (notes_to_process_ids : gset Z) : Cmd (gset Z) :=
  match rules with
  | [] => ret notes_to_process_ids
  | r :: rest =>
      match deckName r with
      | Some rule_deck_name =>
          if negb (truthy rule_deck_name)
          then select_rules rest notes_to_process_ids
          else
            nids <- find_notes (deck_query rule_deck_name) ;;
            ids <- select_notes r nids notes_to_process_ids ;;
            select_rules rest ids
      | None => select_rules rest notes_to_process_ids
      end
  end.

Definition find_notes_to_process (rules : list rule) : Cmd (list Z) :=
  ids <- select_rules rules ∅ ;;
  ret (elements ids).

(** One turn of the loop over the pairs of a matching rule in
    [do_update]; the state is the loaded note and
    [note_was_modified]. *)
Definition update_pair (cfg : Config) (nid : Z) (p : pair)
    (st : gmap str str * bool) : Cmd (gmap str str * bool) :=
  let '(note, note_was_modified) := st in
  match source p, destination p with
  | Some src_field, Some dest_field =>
      if has_field src_field note && has_field dest_field note
         && truthy (note !!! src_field)
      then
        let source_text := note !!! src_field in
        let destination_text := note !!! dest_field in
        if is_field_effectively_empty destination_text
           || Py.eqb source_text destination_text
        then
          generated_text <-
            generateFurigana source_text (getIgnoreNumbers cfg)
              (getUseRubyTags cfg) ;;
          if negb (Py.eqb generated_text destination_text)
          then
            note' <- assign_field nid dest_field generated_text note ;;
            ret (note', true)
          else ret st
        else ret st
      else ret st
  | _, _ => ret st
  end.

Fixpoint update_pairs (cfg : Config) (nid : Z) (pairs : list pair)
    (st : gmap str str * bool) : Cmd (gmap str str * bool) :=
  match pairs with
  | [] => ret st
  | p :: rest =>
      st' <- update_pair cfg nid p st ;;
      update_pairs cfg nid rest st'
  end.

(** One turn of the loop over [rules] in [do_update].  With a deck
    name at hand and a rule without [deckName], the test
    [deck_name == rule_deck_name or
     deck_name.startswith(rule_deck_name + '::')] raises. *)
Definition update_rule (cfg : Config) (nid : Z)
    (note_deck : option str) (r : rule) (st : gmap str str * bool)
  : Cmd (gmap str str * bool) :=
  match note_deck with
  | None => ret st
  | Some deck_name =>
      match deckName r with
      | None => raise TypeError
      | Some rule_deck_name =>
          if Py.eqb deck_name rule_deck_name
             || startswith (rule_deck_name ++ lit "::") deck_name
          then update_pairs cfg nid (fieldPairs r) st
          else ret st
      end
  end.

Fixpoint update_rules (cfg : Config) (nid : Z) (note_deck : option str)
    (rules : list rule) (st : gmap str str * bool)
  : Cmd (gmap str str * bool) :=
  match rules with
  | [] => ret st
  | r :: rest =>
      st' <- update_rule cfg nid note_deck r st ;;
      update_rules cfg nid note_deck rest st'
  end.

(** The body of the loop over [nids] in [do_update]. *)
Definition update_one (cfg : Config) (rules : list rule) (nid : Z)
    (notes_modified_count : nat) : Cmd nat :=
  note <- get_note nid ;;
  r <- update_rules cfg nid (deck note) rules (fields note, false) ;;
  let '(flds, note_was_modified) := r in
  if note_was_modified : bool
  then
    store_note nid (mkNote flds (deck note)) ;;;
    ret (S notes_modified_count)
  else ret notes_modified_count.

Fixpoint update_loop (cfg : Config) (rules : list rule) (nids : list Z)
    (notes_modified_count : nat) : Cmd nat :=
  match nids with
  | [] => ret notes_modified_count
  | nid :: rest =>
      count <- update_one cfg rules nid notes_modified_count ;;
      update_loop cfg rules rest count
  end.

Definition do_update (cfg : Config) (rules : list rule) (nids : list Z)
  : Cmd nat :=
  update_loop cfg rules nids 0%nat.

(** *** [app.py] *)

(** The handler of [/api/furigana]; the result is the string sent
    back under the key [furigana]. *)
Definition api_furigana (data : request) : Cmd str :=
  let text := default [] (req_text data) in
  let use_ruby := default false (req_useRubyTags data) in
  processed_text <-
    mecab_reading text reading_default_ignoreNumbers use_ruby ;;
  ret processed_text.

End Engine.

(** ** The furigana codec of [utils.py], from its specification *)

Module Codec.

Definition lbracket : N := 91.
Definition rbracket : N := 93.

(** [s] without the prefix [p], when it has it. *)
Fixpoint strip_prefix (p s : str) : option str :=
  match p, s with
  | [], _ => Some s
  | _ :: _, [] => None
  | a :: p', b :: s' => if a =? b then strip_prefix p' s' else None
  end.

(** The longest prefix of characters satisfying [ok], and the rest. *)
Fixpoint span (ok : N -> bool) (s : str) : str * str :=
  match s with
  | [] => ([], [])
  | c :: t =>
      if ok c then let '(a, b) := span ok t in (c :: a, b) else ([], s)
  end.

Definition is_tag_char (c : N) : bool :=
  (c =? TagRe.lt_sign) || (c =? TagRe.gt_sign).

Definition is_bracket (c : N) : bool :=
  (c =? lbracket) || (c =? rbracket).

(** A character of a base run: no bracket, no whitespace, no tag
    delimiter. *)
Definition is_base_char (c : N) : bool :=
  negb (is_bracket c) && negb (is_space c) && negb (is_tag_char c).

(** A character of a reading: no bracket, no tag delimiter. *)
Definition is_reading_char (c : N) : bool :=
  negb (is_bracket c) && negb (is_tag_char c).

(** An element [opening text closing] at the head of [s], whose text
    holds no tag; the result is what follows it. *)
Definition text_element (opening closing s : str) : option str :=
  match strip_prefix opening s with
  | Some s1 =>
      strip_prefix closing
        (snd (span (fun c => negb (c =? TagRe.lt_sign)) s1))
  | None => None
  end.

(** An optional [<rp>...</rp>] at the head of [s]. *)
Definition skip_rp (s : str) : str :=
  match text_element (lit "<rp>") (lit "</rp>") s with
  | Some rest => rest
  | None => s
  end.

(** Modelled from the spec: ruby form at the head of [s], an opening
    [ruby] tag, a base without tags, an [rt] element whose reading holds
    no tag, optionally with an [rp] element before and after it, and the
    closing tag.  The result is the base and what follows the
    annotation. *)
Definition match_ruby (s : str) : option (str * str) :=
  match strip_prefix (lit "<ruby>") s with
  | Some s1 =>
      let '(base, s2) := span (fun c => negb (c =? TagRe.lt_sign)) s1 in
      match text_element (lit "<rt>") (lit "</rt>") (skip_rp s2) with
      | Some s3 =>
          match strip_prefix (lit "</ruby>") (skip_rp s3) with
          | Some rest => Some (base, rest)
          | None => None
          end
      | None => None
      end
  | None => None
  end.

(** Modelled from the spec: bracket form at the head of [s], a run of
    base characters immediately followed by a bracketed reading.  The
    result is the base run and what follows the closing bracket. *)
Definition match_bracket (s : str) : option (str * str) :=
  let '(run, s1) := span is_base_char s in
  match run with
  | [] => None
  | _ :: _ =>
      match strip_prefix [lbracket] s1 with
      | Some s2 =>
          match strip_prefix [rbracket] (snd (span is_reading_char s2)) with
          | Some rest => Some (run, rest)
          | None => None
          end
      | None => None
      end
  end.

(** An annotation of either encoding at the head of [s]. *)
Definition match_annotation (s : str) : option (str * str) :=
  match match_ruby s with
  | Some m => Some m
  | None => match_bracket s
  end.

(** Modelled from the spec: one pass from the left; an annotation at the
    cursor is replaced by its base and the scan goes on after it, any
    other character is copied.  [fuel] bounds the number of steps. *)
Fixpoint strip_from (fuel : nat) (s : str) : str :=
  match fuel with
  | O => s
  | S f =>
      match s with
      | [] => []
      | c :: t =>
          match match_annotation s with
          | Some (base, rest) => base ++ strip_from f rest
          | None => c :: strip_from f t
          end
      end
  end.

(** Modelled from the spec: [removeFurigana] lives in [utils.py], which
    is not among the sources at hand.  Section 4.1 gives its design:
    two patterns are recognised, bracket form (a run of non-bracket,
    non-whitespace, non-tag characters immediately followed by a
    bracketed reading) and ruby form (base, then an [rt] element,
    optionally with [rp] elements around it), matched non-greedily and
    never across a tag; the annotation is dropped, the base kept, and
    the scan goes on after the match. *)
Definition removeFurigana (s : str) : str := strip_from (length s) s.


End Codec.

(** ** An analyzer on a two-word dictionary, and sample data *)

Module Demo.

Definition neko : N := 29483.            (* U+732B *)
Definition yomi : str := [12397; 12371].  (* U+306D U+3053 *)
Definition digit_two : N := 50.
Definition yomi_two : str := [12395].     (* U+306B *)

(** The two encodings of one annotation. *)
Definition encode (useRubyTags : bool) (surface reading : str) : str :=
  if useRubyTags
  then lit "<ruby>" ++ surface ++ lit "<rt>" ++ reading ++ lit "</rt></ruby>"
  else surface ++ lit "[" ++ reading ++ lit "]".

(** A tag [<[^>]+>] at the head of [s]. *)
Definition tag_at (s : str) : bool :=
  match s with
  | c0 :: c1 :: t =>
      (c0 =? TagRe.lt_sign) && negb (c1 =? TagRe.gt_sign)
      && existsb (fun c => c =? TagRe.gt_sign) t
  | _ => false
  end.

(** Modelled from the spec: the analyzer pass of [reading.py], which is
    not among the sources at hand, on a two-word dictionary.  As section
    4.3 has it, tags are copied verbatim, a token with a reading is
    rendered in bracket or ruby form, a numeral is left alone when
    [ignoreNumbers] is set, and every character no token covers (kana,
    Latin letters, punctuation, whitespace) is copied through.  [in_tag]
    says that the scan is inside a tag. *)
Fixpoint annotate (ignoreNumbers useRubyTags : bool) (in_tag : bool)
    (s : str) : str :=
  match s with
  | [] => []
  | c :: t =>
      if in_tag
      then c :: annotate ignoreNumbers useRubyTags
                  (negb (c =? TagRe.gt_sign)) t
      else if tag_at s
      then c :: annotate ignoreNumbers useRubyTags true t
      else
        (if c =? neko then encode useRubyTags [c] yomi
         else if (c =? digit_two) && negb ignoreNumbers
              then encode useRubyTags [c] yomi_two
              else [c])
        ++ annotate ignoreNumbers useRubyTags false t
  end.

(** An analyzer handle that serves [budget] calls and is gone after
    that. *)
Definition reading_impl (budget : nat) (expr : str)
    (ignoreNumbers useRubyTags : bool) : nat * result str :=
  match budget with
  | O => (O, Raise TokenizerUnavailable)
  | S k => (k, Ok (annotate ignoreNumbers useRubyTags false expr))
  end.

(** A deck search that selects the notes of exactly the named deck. *)
Definition search (query : str) (nid : Z) (note : Note) : bool :=
  match deck note with
  | Some d => Py.eqb query (deck_query d)
  | None => false
  end.

(** A clock that starts at 1000 s and advances 0.06 s between two
    readings. *)
Definition clock (k : nat) : Q :=
  (1000 + inject_Z (Z.of_nat k) * (3 # 50))%Q.

Definition world (budget : nat) (ns : gmap Z Note) : World nat :=
  mkWorld budget [] ns [] [] 0%nat 0%nat clock 0%nat [].

Definition expression : str := lit "Expression".
Definition reading : str := lit "Reading".
Definition meaning : str := lit "Meaning".
Definition japanese : str := lit "Japanese".

Definition note_of (e r : str) : Note :=
  mkNote (<[expression := e]> (<[reading := r]> (<[meaning := lit "cat"]> ∅)))
         (Some japanese).

Definition expr_to_reading : pair := mkPair (Some expression) (Some reading).
Definition expr_to_meaning : pair := mkPair (Some expression) (Some meaning).
Definition expr_to_expr : pair := mkPair (Some expression) (Some expression).
Definition nameless : pair := mkPair None (Some reading).

Definition cfg : Config := mkConfig true false.

(** U+732B followed by its bracketed reading. *)
Definition neko_annotated : str := encode false [neko] yomi.

(** Example 3 of the specification, with its annotations. *)
Definition nihongo : str :=
  [26085; 26412; 35486] ++ lit "[" ++ [12395; 12411; 12435; 12372]
  ++ lit "]" ++ [12434; 21193; 24375] ++ lit "["
  ++ [12409; 12435; 12365; 12423; 12358] ++ lit "]" ++ [12377; 12427].

(** Example 3 without its annotations. *)
Definition nihongo_plain : str :=
  [26085; 26412; 35486; 12434; 21193; 24375; 12377; 12427].

(** Example 4 of the specification. *)
Definition neko_ruby : str := encode true [neko] yomi ++ [12364; 22909; 12365].



(** A collection with one note, whose reading is still empty. *)
Definition one_note : gmap Z Note := <[1%Z := note_of [neko] []]> ∅.

(** A collection of three notes; the second already has the reading
    the analyzer gives. *)
Definition three_notes : gmap Z Note :=
  <[1%Z := note_of [neko] []]>
    (<[2%Z := note_of [neko] neko_annotated]>
       (<[3%Z := note_of (lit "2") []]> ∅)).

(** A rule with two pairs on the same source. *)
Definition two_pair_rule : rule :=
  mkRule (Some japanese) [expr_to_meaning; expr_to_reading].

(** A rule whose pair writes into its own source. *)
Definition in_place_rule : rule := mkRule (Some japanese) [expr_to_expr].

(** The stored content of a field of a note. *)
Definition stored {S : Type} (w : World S) (nid : Z) (field : str)
  : option str :=
  match notes w !! nid with
  | Some note => fields note !! field
  | None => None
  end.

End Demo.

(** ** Vocabulary of the statements *)

(** The destination field names of a list of pairs. *)
Definition dest_fields (pairs : list pair) : list str :=
  omap destination pairs.

(** The pairs of all rules. *)
Definition rule_pairs (rules : list rule) : list pair :=
  concat (map fieldPairs rules).

(** An assignment to one of the fields [D] that changes its content. *)
Definition changes_dest (D : list str) (a : assignment) : Prop :=
  as_field a ∈ D /\ as_new a <> as_old a.

(** Note [b] is note [a] up to the fields [D]. *)
Definition same_but (D : list str) (a b : Note) : Prop :=
  deck b = deck a /\ forall k : str, k ∉ D -> fields b !! k = fields a !! k.

(** The collection [ns'] has the notes of [ns], each up to the fields
    [D]. *)
Definition notes_same_but (D : list str) (ns ns' : gmap Z Note) : Prop :=
  forall nid : Z, option_Forall2 (same_but D) (ns !! nid) (ns' !! nid).

(** Progress calls are spaced: each passed the rate test against the
    reading stored after the call before it, [last] for the first. *)
Fixpoint spaced (last : Q) (rs : list report) : Prop :=
  match rs with
  | [] => True
  | r :: rest =>
      (progress_period <= rp_tested r - last)%Q /\ spaced (rp_stamp r) rest
  end.

(** The two readings kept with a progress call are successive readings
    of the clock [clk]. *)
Definition successive_readings (clk : nat -> Q) (r : report) : Prop :=
  exists t : nat, rp_tested r = clk t /\ rp_stamp r = clk (S t).

(** The value of [last_progress_update] after the calls [rs]. *)
Fixpoint last_stamp (last : Q) (rs : list report) : Q :=
  match rs with
  | [] => last
  | r :: rest => last_stamp (rp_stamp r) rest
  end.

(** The guard of the inner loop of [bulkGenerate] fails for this pair:
    a field name is missing or empty, a field is not on the note, or the
    source field is empty. *)
Definition pair_skipped (note : gmap str str) (p : pair) : bool :=
  falsy (source p) || falsy (destination p)
  || negb (field_in (source p) note && field_in (destination p) note
           && truthy (from_option (fun k => note !!! k) [] (source p))).

(** The test of the scan on one pair: both fields on the note, a source
    that is not empty, and a destination that is effectively empty or
    equal to the source. *)
Definition pair_needs (note : gmap str str) (p : pair) : bool :=
  match source p, destination p with
  | Some src_field, Some dest_field =>
      has_field src_field note && has_field dest_field note
      && truthy (note !!! src_field)
      && needsGeneration (note !!! src_field) (note !!! dest_field)
  | _, _ => false
  end.

(** What the work on the pairs of one note may do to the world: it adds
    the assignments [added], all on note [nid], each to a field of [D]
    and each changing the content; the store, the clock and the logs of
    writes and progress calls stay as they are. *)
Record pair_run {S : Type} (D : list str) (nid : Z) (w w' : World S)
    (added : list assignment) : Prop := mkPairRun {
  pr_notes : notes w' = notes w;
  pr_writes : writes w' = writes w;
  pr_undo_entries : undo_entries w' = undo_entries w;
  pr_undo_merges : undo_merges w' = undo_merges w;
  pr_clock : clock w' = clock w;
  pr_ticks : ticks w' = ticks w;
  pr_reports : reports w' = reports w;
  pr_assigns : assigns w' = assigns w ++ added;
  pr_added : Forall (fun a => as_note a = nid /\ changes_dest D a) added
}.

(** What the work on a list of notes may do to the world: assignments
    [added], writes [ws], progress calls [rs]. *)
Record note_run {S : Type} (D : list str) (w w' : World S)
    (added : list assignment) (ws : list Z) (rs : list report)
  : Prop := mkNoteRun {
  nr_notes : notes_same_but D (notes w) (notes w');
  nr_assigns : assigns w' = assigns w ++ added;
  nr_added : Forall (changes_dest D) added;
  nr_writes : writes w' = writes w ++ ws;
  nr_written :
    forall nid : Z, nid ∈ ws -> exists a, a ∈ added /\ as_note a = nid;
  nr_undo_entries : undo_entries w' = undo_entries w;
  nr_clock : clock w' = clock w;
  nr_reports : reports w' = reports w ++ rs
}.

Section Vocabulary.

Context {MecabState : Type}.
Variable reading_impl :
  MecabState -> str -> bool -> bool -> MecabState * result str.
Variable removeFurigana : str -> str.


End Vocabulary.

(** ** The rest of the plugin *)

(** What the plugin shows to the user; the messages with a number keep
    the number. *)
Inductive ui_event : Type :=
| TooltipNoRules           (* "No rules configured. ..." *)
| TooltipStarting          (* "Starting scan for notes needing furigana..." *)
| TooltipNothingNeeded     (* "Scan complete. No notes needed ..." *)
| ShowTextFound (n : nat)  (* "Found {n} note(s) to process. ..." *)
| TooltipGenerated (count : nat)
                           (* "Successfully generated furigana for ..." *)
| TooltipNothingToGenerate (* "Nothing to generate!" *)
| TooltipNoFurigana        (* "No furigana found to delete" *)
| TooltipScanEnabled (interval_seconds : Z)
                           (* "Automatic furigana scan enabled ..." *)
| TooltipScanDisabled      (* "Automatic furigana scan disabled." *)
| ErrorShown (e : exn).    (* the error window of a failed operation *)

(** The value of [config.getAutoGenerateConfig()]: each key of the
    dictionary, [None] when the key is absent. *)
Record AutoGenerateConfig : Type := mkAutoGenerateConfig {
  ag_enabled : option bool;
  ag_scanIntervalSeconds : option Z;
  ag_rules : option (list rule);
  ag_hideNotifications : option bool
}.

(** What an editor action does to the selection: a tooltip, or
    [s.modify(html)]. *)
Inductive selection_action : Type :=
| Notify (e : ui_event)
| Modify (html : str).

(** The template context of the page of [app.py]. *)
Record page : Type := mkPage {
  pg_processed_text : str;
  pg_text : str;
  pg_use_ruby_tags : bool
}.

(** The answer of the route [/]: the rendered page, or the answer 400
    that Flask gives when [request.form['text']] finds no such key. *)
Inductive http_answer : Type :=
| Rendered (p : page)
| BadRequest.

Section Plugin.

Context {MecabState : Type}.
Variable reading_impl :
  MecabState -> str -> bool -> bool -> MecabState * result str.
Variable removeFurigana : str -> str.
Variable reading_default_ignoreNumbers : bool.
Variable search : str -> Z -> Note -> bool.

Local Open Scope py_scope.
Local Abbreviation W := (World MecabState).
Local Abbreviation Cmd := (M MecabState).

(** *** [__init__.py]: the editor buttons *)

(** [onGenerateFurigana(s, editor)] for the selection [s.selected]. *)
Definition onGenerateFurigana (cfg : Config) (selected : str)
  : Cmd selection_action :=
  let html := selected in
  html_with_furigana <-
    generateFurigana reading_impl removeFurigana html
      (getIgnoreNumbers cfg) (getUseRubyTags cfg) ;;
  if Py.eqb html_with_furigana html
  then ret (Notify TooltipNothingToGenerate)
  else ret (Modify html_with_furigana).

(** [onDeleteFurigana(s, editor)] for the selection [s.selected]. *)
Definition onDeleteFurigana (selected : str) : Cmd selection_action :=
  let stripped := removeFurigana selected in
  if Py.eqb stripped selected
  then ret (Notify TooltipNoFurigana)
  else ret (Modify stripped).

(** *** [__init__.py]: [run_furigana_scan] *)

(** [on_done(count)]. *)
Definition on_done (is_manual : bool) (scan_config : AutoGenerateConfig)
    (count : nat) : list ui_event :=
  if (0 <? count)%nat
  then
    if is_manual || negb (default false (ag_hideNotifications scan_config))
    then [TooltipGenerated count]
    else []
  else [].

(** [run_furigana_scan(is_manual)].  [scan_config] is what
    [config.getAutoGenerateConfig()] returns, [cfg] what
    [config.getIgnoreNumbers()] and [config.getUseRubyTags()] answer.
    The operation handed to [QueryOp] is run to its end: its count goes
    to [on_done], its error to the error window.  The result is the new
    world, the messages shown, and the error that leaves the function,
    if any. *)
Definition run_furigana_scan (is_manual : bool)
    (scan_config : AutoGenerateConfig) (cfg : Config) (w : W)
  : W * (list ui_event * result unit) :=
  if negb (default false (ag_enabled scan_config)) && negb is_manual
  then (w, ([], Ok tt))
  else
    let rules := default [] (ag_rules scan_config) in
    match rules with
    | [] => (w, (if is_manual then [TooltipNoRules] else [], Ok tt))
    | _ :: _ =>
        let started := if is_manual then [TooltipStarting] else [] in
        match find_notes_to_process search rules w with
        | (w1, Raise e) => (w1, (started, Raise e))
        | (w1, Ok notes_to_process_ids) =>
            match notes_to_process_ids with
            | [] =>
                (w1, (started
                      ++ (if is_manual then [TooltipNothingNeeded] else []),
                      Ok tt))
            | _ :: _ =>
                let found :=
                  started
                  ++ (if is_manual
                      then [ShowTextFound (length notes_to_process_ids)]
                      else []) in
                match do_update reading_impl removeFurigana cfg rules
                        notes_to_process_ids w1 with
                | (w2, Ok count) =>
                    (w2, (found ++ on_done is_manual scan_config count,
                          Ok tt))
                | (w2, Raise e) => (w2, (found ++ [ErrorShown e], Ok tt))
                end
            end
        end
    end.

(** *** [app.py]: the page *)

(** The route [/]: [is_post] says whether the method is POST, [form] is
    [request.form]. *)
Definition index (is_post : bool) (form : gmap str str)
  : Cmd http_answer :=
  if is_post
  then
    match form !! lit "text" with
    | None => ret BadRequest
    | Some text =>
        let use_ruby := has_field (lit "use_ruby_tags") form in
        processed_text <-
          mecab_reading reading_impl text reading_default_ignoreNumbers
            use_ruby ;;
        ret (Rendered (mkPage processed_text text use_ruby))
    end
  else ret (Rendered (mkPage [] [] false)).

End Plugin.

(** *** [__init__.py]: the timer of the background scan *)

(** A [QTimer]: running or not, and its interval in milliseconds. *)
Record QTimer : Type := mkQTimer {
  isActive : bool;
  interval : Z
}.

(** [QTimer(mw)]: a timer that is not running, with interval 0. *)
Definition new_timer : QTimer := mkQTimer false 0.

(** [setup_auto_scanner()].  [auto_scan_timer] is the global of that
    name, [None] before the first call; the result is its new value and
    the messages shown. *)
Definition setup_auto_scanner (scan_config : AutoGenerateConfig)
    (auto_scan_timer : option QTimer) : option QTimer * list ui_event :=
  let timer :=
    match auto_scan_timer with
    | Some t => t
    | None => new_timer
    end in
  if default false (ag_enabled scan_config)
  then
    let interval_seconds :=
      default 120%Z (ag_scanIntervalSeconds scan_config) in
    let interval_ms := (interval_seconds * 1000)%Z in
    if negb (isActive timer) || negb (interval timer =? interval_ms)%Z
    then
      (Some (mkQTimer true interval_ms),
       if negb (default false (ag_hideNotifications scan_config))
       then [TooltipScanEnabled interval_seconds]
       else [])
    else (Some timer, [])
  else
    if isActive timer
    then
      (Some (mkQTimer false (interval timer)),
       if negb (default false (ag_hideNotifications scan_config))
       then [TooltipScanDisabled]
       else [])
    else (Some timer, []).

(** ** [config.py] *)

Module ConfigPy.

(** The errors of [config.py]. *)
Inductive config_exn : Type :=
| AbortAddonImport   (* raised by [Config.__init__] without a main window *)
| AttributeError     (* a method called on [None] *)
| KeyError.          (* a key that a dictionary does not have *)

Inductive attempt (A : Type) : Type :=
| Done (a : A)
| Failed (e : config_exn).
Arguments Done {A} a.
Arguments Failed {A} e.

(** The value stored under [lastBulkConfig]. *)
Record BulkConfig : Type := mkBulkConfig {
  bc_deck : option str;
  bc_noteType : option str;
  bc_fieldPairs : option (list pair)
}.

(** The dictionary [self.data], by its keys; [None] for an absent
    key. *)
Record ConfigData : Type := mkConfigData {
  d_autoGenerateConfig : option AutoGenerateConfig;
  d_lastBulkConfig : option BulkConfig;
  d_useRubyTags : option bool;
  d_ignoreNumbers : option bool;
  d_keyboardShortcut : option (gmap str str)
}.

(** [mw.addonManager]: the configuration it has for each add-on
    package, and the calls of [writeConfig]. *)
Record AddonManager : Type := mkAddonManager {
  configs : gmap str ConfigData;
  config_writes : list (str * ConfigData)
}.

(** An instance of [Config]. *)
Record ConfigObject : Type := mkConfigObject {
  addon_package : str;
  data : ConfigData
}.

(** [mw.addonManager.writeConfig(package, data)]. *)
Definition writeConfig (mgr : AddonManager) (package : str)
    (d : ConfigData) : AddonManager :=
  mkAddonManager (<[package := d]> (configs mgr))
    (config_writes mgr ++ [(package, d)]).

(** The decorator [saveMe]: call the setter, then write the data of the
    instance to the file of its package. *)
Definition saveMe {Args : Type}
    (func : ConfigObject -> Args -> attempt ConfigObject)
    (self : ConfigObject) (args : Args) (mgr : AddonManager)
  : attempt ConfigObject * AddonManager :=
  match func self args with
  | Done self' =>
      (Done self', writeConfig mgr (addon_package self') (data self'))
  | Failed e => (Failed e, mgr)
  end.

(** [d.setdefault(key, value)] on one key. *)
Definition setdefault {A : Type} (value : A) (current : option A)
  : option A :=
  match current with
  | Some v => Some v
  | None => Some value
  end.

Definition default_lastBulkConfig : BulkConfig :=
  mkBulkConfig (Some (lit "All Decks")) (Some (lit "All Note Types"))
    (Some [mkPair (Some (lit "Expression")) (Some (lit "Reading"))]).

Definition default_keyboardShortcut : gmap str str :=
  <[lit "add_furigana" := lit "Ctrl+R"]>
    (<[lit "del_furigana" := lit "Ctrl+Alt+R"]> ∅).

(** The [setdefault] calls of [Config.__init__]. *)
Definition fill_defaults (d : ConfigData) : ConfigData :=
  let auto_gen_config :=
    match d_autoGenerateConfig d with
    | Some a => a
    | None => mkAutoGenerateConfig None None None None
    end in
  mkConfigData
    (Some (mkAutoGenerateConfig
             (setdefault false (ag_enabled auto_gen_config))
             (setdefault 30%Z (ag_scanIntervalSeconds auto_gen_config))
             (setdefault [] (ag_rules auto_gen_config))
             (ag_hideNotifications auto_gen_config)))
    (setdefault default_lastBulkConfig (d_lastBulkConfig d))
    (setdefault false (d_useRubyTags d))
    (setdefault true (d_ignoreNumbers d))
    (setdefault default_keyboardShortcut (d_keyboardShortcut d)).

(** [Config(addon_package)]; [mw] is the main window's add-on manager,
    [None] when there is no main window.  [getConfig] gives [None] for
    a package without configuration, and the first [setdefault] then
    fails. *)
Definition Config_init (mw : option AddonManager) (package : str)
  : attempt ConfigObject :=
  match mw with
  | None => Failed AbortAddonImport
  | Some mgr =>
      match configs mgr !! package with
      | None => Failed AttributeError
      | Some d => Done (mkConfigObject package (fill_defaults d))
      end
  end.

Definition getUseRubyTags (self : ConfigObject) : attempt bool :=
  match d_useRubyTags (data self) with
  | Some b => Done b
  | None => Failed KeyError
  end.

Definition getIgnoreNumbers (self : ConfigObject) : attempt bool :=
  match d_ignoreNumbers (data self) with
  | Some b => Done b
  | None => Failed KeyError
  end.

Definition getKeyboardShortcut (self : ConfigObject) (name : str)
  : attempt str :=
  match d_keyboardShortcut (data self) with
  | Some shortcuts =>
      match shortcuts !! name with
      | Some key => Done key
      | None => Failed KeyError
      end
  | None => Failed KeyError
  end.

(** [self.data.get('autoGenerateConfig', {}).copy()]. *)
Definition getAutoGenerateConfig (self : ConfigObject)
  : AutoGenerateConfig :=
  match d_autoGenerateConfig (data self) with
  | Some a => a
  | None => mkAutoGenerateConfig None None None None
  end.

(** [self.data.get('lastBulkConfig', {})]. *)
Definition getLastBulkConfig (self : ConfigObject) : BulkConfig :=
  match d_lastBulkConfig (data self) with
  | Some b => b
  | None => mkBulkConfig None None None
  end.

(** The bodies of the setters, before decoration. *)
Definition setUseRubyTags_body (self : ConfigObject) (isEnabled : bool)
  : attempt ConfigObject :=
  let d := data self in
  Done (mkConfigObject (addon_package self)
          (mkConfigData (d_autoGenerateConfig d) (d_lastBulkConfig d)
             (Some isEnabled) (d_ignoreNumbers d) (d_keyboardShortcut d))).

Definition setIgnoreNumbers_body (self : ConfigObject) (isEnabled : bool)
  : attempt ConfigObject :=
  let d := data self in
  Done (mkConfigObject (addon_package self)
          (mkConfigData (d_autoGenerateConfig d) (d_lastBulkConfig d)
             (d_useRubyTags d) (Some isEnabled) (d_keyboardShortcut d))).

(** [self.data["keyboardShortcut"][name] = key]. *)
Definition setKeyboardShortcut_body (self : ConfigObject)
    (args : str * str) : attempt ConfigObject :=
  let d := data self in
  match d_keyboardShortcut d with
  | Some shortcuts =>
      Done (mkConfigObject (addon_package self)
              (mkConfigData (d_autoGenerateConfig d) (d_lastBulkConfig d)
                 (d_useRubyTags d) (d_ignoreNumbers d)
                 (Some (<[fst args := snd args]> shortcuts))))
  | None => Failed KeyError
  end.

Definition setAutoGenerateConfig_body (self : ConfigObject)
    (auto_gen_config : AutoGenerateConfig) : attempt ConfigObject :=
  let d := data self in
  Done (mkConfigObject (addon_package self)
          (mkConfigData (Some auto_gen_config) (d_lastBulkConfig d)
             (d_useRubyTags d) (d_ignoreNumbers d) (d_keyboardShortcut d))).

Definition setLastBulkConfig_body (self : ConfigObject)
    (bulkConfig : BulkConfig) : attempt ConfigObject :=
  let d := data self in
  Done (mkConfigObject (addon_package self)
          (mkConfigData (d_autoGenerateConfig d) (Some bulkConfig)
             (d_useRubyTags d) (d_ignoreNumbers d) (d_keyboardShortcut d))).

(** The setters as the class has them, decorated. *)
Definition setUseRubyTags := saveMe setUseRubyTags_body.
Definition setIgnoreNumbers := saveMe setIgnoreNumbers_body.
Definition setKeyboardShortcut := saveMe setKeyboardShortcut_body.
Definition setAutoGenerateConfig := saveMe setAutoGenerateConfig_body.
Definition setLastBulkConfig := saveMe setLastBulkConfig_body.

(** A setter of the class, by name and argument. *)
Inductive setter_call : Type :=
| SetUseRubyTags (isEnabled : bool)
| SetIgnoreNumbers (isEnabled : bool)
| SetKeyboardShortcut (name key : str)
| SetAutoGenerateConfig (auto_gen_config : AutoGenerateConfig)
| SetLastBulkConfig (bulkConfig : BulkConfig).

Definition call_setter (c : setter_call) (self : ConfigObject)
    (mgr : AddonManager) : attempt ConfigObject * AddonManager :=
  match c with
  | SetUseRubyTags b => setUseRubyTags self b mgr
  | SetIgnoreNumbers b => setIgnoreNumbers self b mgr
  | SetKeyboardShortcut name key => setKeyboardShortcut self (name, key) mgr
  | SetAutoGenerateConfig a => setAutoGenerateConfig self a mgr
  | SetLastBulkConfig b => setLastBulkConfig self b mgr
  end.

(** The answers of the two flag getters, as the scan uses them, when
    both succeed. *)
Definition flags_of (self : ConfigObject) : option Config :=
  match getIgnoreNumbers self, getUseRubyTags self with
  | Done n, Done r => Some (mkConfig n r)
  | _, _ => None
  end.

End ConfigPy.

(** ** Vocabulary of the further statements *)

(** Text made of whitespace and of simple tags only: a tag here is [<],
    a body that is not empty and holds neither [<] nor [>], and [>]. *)
Inductive markup_only : str -> Prop :=
| markup_nil : markup_only []
| markup_space (c : N) (rest : str) :
    is_space c = true -> markup_only rest -> markup_only (c :: rest)
| markup_tag (body rest : str) :
    body <> [] ->
    forallb (fun c => negb (c =? TagRe.lt_sign) && negb (c =? TagRe.gt_sign))
      body = true ->
    markup_only rest ->
    markup_only (TagRe.lt_sign :: body ++ TagRe.gt_sign :: rest).

(** The pair leaves a note with these fields alone once [gen] is the
    text generated from a source: it is skipped, or the destination
    already holds the text generated from the source. *)
Definition pair_settled (gen : str -> str) (note : gmap str str)
    (p : pair) : Prop :=
  pair_skipped note p = true
  \/ exists source_field dest_field,
       source p = Some source_field /\ destination p = Some dest_field
       /\ note !!! dest_field = gen (note !!! source_field).

(** The stored note [nid] is there and every pair leaves it alone. *)
Definition settled_at {S : Type} (gen : str -> str) (pairs : list pair)
    (w : World S) (nid : Z) : Prop :=
  exists note, notes w !! nid = Some note
               /\ Forall (pair_settled gen (fields note)) pairs.

(** No source field of the pairs is a destination field, and no two
    pairs have the same destination field. *)
Definition separate_fields (pairs : list pair) : Prop :=
  NoDup (dest_fields pairs)
  /\ forall p source_field,
       p ∈ pairs -> source p = Some source_field ->
       source_field ∉ dest_fields pairs.

(** The update step of the scan leaves a note with these fields alone
    for this pair, once [gen] is the text generated from a source: the
    pair does not pass the test of the scan, or the destination already
    holds the text generated from the source. *)
Definition pair_quiet (gen : str -> str) (note : gmap str str)
    (p : pair) : Prop :=
  pair_needs note p = false
  \/ exists source_field dest_field,
       source p = Some source_field /\ destination p = Some dest_field
       /\ note !!! dest_field = gen (note !!! source_field).

(** The test of [do_update] on the deck of a note and a rule:
    [deck_name == rule_deck_name or
     deck_name.startswith(rule_deck_name + '::')], for a rule that has a
    deck name. *)
Definition rule_applies (deck_name : str) (r : rule) : bool :=
  match deckName r with
  | Some rule_deck_name =>
      Py.eqb deck_name rule_deck_name
      || startswith (rule_deck_name ++ lit "::") deck_name
  | None => false
  end.

(** The pairs of the rules that apply to a note of the deck
    [deck_name], in the order of the rules. *)
Fixpoint applicable_pairs (deck_name : str) (rules : list rule)
  : list pair :=
  match rules with
  | [] => []
  | r :: rest =>
      (if rule_applies deck_name r then fieldPairs r else [])
      ++ applicable_pairs deck_name rest
  end.

(** The same for a note that may have no deck. *)
Definition pairs_for (note_deck : option str) (rules : list rule)
  : list pair :=
  match note_deck with
  | Some deck_name => applicable_pairs deck_name rules
  | None => []
  end.

(** The loop over the rules has no rule to stumble over: the note has
    no deck, or every rule has a deck name. *)
Definition rules_fit (note_deck : option str) (rules : list rule) : Prop :=
  note_deck = None \/ Forall (fun r => is_Some (deckName r)) rules.

(** The stored note [nid] is there, the loop over the rules can run for
    it, and every pair that applies to it leaves it alone. *)
Definition quiet_at {S : Type} (gen : str -> str) (rules : list rule)
    (w : World S) (nid : Z) : Prop :=
  exists note,
    notes w !! nid = Some note
    /\ rules_fit (deck note) rules
    /\ Forall (pair_quiet gen (fields note)) (pairs_for (deck note) rules).

(** The log of assignments grows by assignments that satisfy [P]. *)
Definition assigns_by {S : Type} (P : assignment -> Prop)
    (w w' : World S) : Prop :=
  exists added, assigns w' = assigns w ++ added /\ Forall P added.

(** The log of analyzer calls grows by at most [bound] calls, which
    satisfy [P]. *)
Definition readings_by {S : Type} (P : str * bool * bool -> Prop)
    (bound : nat) (w w' : World S) : Prop :=
  exists calls,
    readings w' = readings w ++ calls /\ Forall P calls
    /\ (length calls <= bound)%nat.

(** The log of writes grows by ids taken in order from [ids], with one
    call of [merge_undo_entries] for each and no new undo entry. *)
Definition writes_merged {S : Type} (ids : list Z) (w w' : World S)
  : Prop :=
  exists ws,
    writes w' = writes w ++ ws /\ sublist ws ids
    /\ undo_merges w' = (undo_merges w + length ws)%nat
    /\ undo_entries w' = undo_entries w.

(** The selection step of the scan takes the note [nid] of the
    collection [ns]: the deck search of a rule with a deck name finds
    it, and a pair of that rule passes the test on it. *)
Definition rule_selects (search : str -> Z -> Note -> bool)
    (rules : list rule) (ns : gmap Z Note) (nid : Z) : Prop :=
  exists r name note,
    r ∈ rules /\ deckName r = Some name /\ name <> []
    /\ ns !! nid = Some note
    /\ search (deck_query name) nid note = true
    /\ existsb (pair_needs (fields note)) (fieldPairs r) = true.

Section FurtherVocabulary.

Context {MecabState : Type}.
Variable reading_impl :
  MecabState -> str -> bool -> bool -> MecabState * result str.
Variable removeFurigana : str -> str.

(** The assignment puts the text that [generateFurigana] gives for a
    source text in the place of a content that is effectively empty or
    equal to that source text. *)
Definition fills_in (ignore_numbers use_ruby_tags : bool)
    (a : assignment) : Prop :=
  exists (source_text : str) (w1 w2 : World MecabState),
    needsGeneration source_text (as_old a) = true
    /\ generateFurigana reading_impl removeFurigana source_text
         ignore_numbers use_ruby_tags w1 = (w2, Ok (as_new a)).

(** A call of the analyzer with these flags, on the stripped form of a
    text that is not blank. *)
Definition call_for (ignore_numbers use_ruby_tags : bool)
    (c : str * bool * bool) : Prop :=
  exists html : str,
    is_blank html = false
    /\ c = (removeFurigana html, ignore_numbers, use_ruby_tags).

(** The analyzer never fails and its answer is [f] of its arguments,
    whatever the state of the handle. *)
Definition answers (f : str -> bool -> bool -> str) : Prop :=
  forall (m : MecabState) (expr : str) (n r : bool),
    snd (reading_impl m expr n r) = Ok (f expr n r).

(** What [generateFurigana] returns with such an analyzer. *)
Definition generated (f : str -> bool -> bool -> str)
    (ignore_numbers use_ruby_tags : bool) (html : str) : str :=
  if is_blank html then []
  else f (removeFurigana html) ignore_numbers use_ruby_tags.

End FurtherVocabulary.

(** ** More sample data *)

Module Sample.

(** The answer of the sample analyzer. *)
Definition steady_f (expr : str) (ignoreNumbers useRubyTags : bool) : str :=
  Demo.annotate ignoreNumbers useRubyTags false expr.

(** An analyzer handle that never fails. *)
Definition steady_impl (u : unit) (expr : str)
    (ignoreNumbers useRubyTags : bool) : unit * result str :=
  (tt, Ok (steady_f expr ignoreNumbers useRubyTags)).

Definition world (ns : gmap Z Note) : World unit :=
  mkWorld tt [] ns [] [] 0%nat 0%nat Demo.clock 0%nat [].

(** A configuration file that has nothing but an enabled scan. *)
Definition bare_file : ConfigPy.ConfigData :=
  ConfigPy.mkConfigData
    (Some (mkAutoGenerateConfig (Some true) None None None))
    None None None None.

Definition package : str := lit "furigana".

Definition manager : ConfigPy.AddonManager :=
  ConfigPy.mkAddonManager (<[package := bare_file]> ∅) [].

Definition loaded : ConfigPy.ConfigObject :=
  ConfigPy.mkConfigObject package (ConfigPy.fill_defaults bare_file).

(** The rule of the sample deck, from [Expression] to [Reading]. *)
Definition reading_rule : rule :=
  mkRule (Some Demo.japanese) [Demo.expr_to_reading].

(** A rule without [deckName]. *)
Definition nameless_rule : rule := mkRule None [Demo.expr_to_reading].

Definition scan_config : AutoGenerateConfig :=
  mkAutoGenerateConfig (Some true) (Some 30%Z) (Some [reading_rule])
    (Some true).

(** A form with a text and the ruby box ticked. *)
Definition form : gmap str str :=
  <[lit "text" := [Demo.neko]]> (<[lit "use_ruby_tags" := lit "on"]> ∅).

End Sample.

(** * Properties *)

(** ** String primitives *)

Lemma truthy_false (s : str) : truthy s = false <-> s = [].
Proof. destruct s; simpl; split; congruence. Qed.

Lemma truthy_true (s : str) : truthy s = true <-> s <> [].
Proof. destruct s; simpl; split; congruence. Qed.

Lemma eqb_true (a b : str) : Py.eqb a b = true <-> a = b.
Proof. unfold Py.eqb. apply bool_decide_eq_true. Qed.

Lemma eqb_false (a b : str) : Py.eqb a b = false <-> a <> b.
Proof. unfold Py.eqb. apply bool_decide_eq_false. Qed.

Lemma lstrip_spaces (s : str) :
  forallb is_space s = true -> lstrip s = [].
Proof.
  induction s as [|c t IH]; simpl; [done|].
  intros [Hc Ht]%andb_true_iff. rewrite Hc. auto.
Qed.

Lemma lstrip_nil_spaces (s : str) :
  lstrip s = [] -> forallb is_space s = true.
Proof.
  induction s as [|c t IH]; simpl; [done|].
  destruct (is_space c); simpl; [exact IH | discriminate].
Qed.

(** What [lstrip] leaves is empty or starts with a character that is
    not whitespace. *)
Lemma lstrip_head (s : str) :
  match lstrip s with
  | [] => True
  | c :: _ => is_space c = false
  end.
Proof.
  induction s as [|c t IH]; simpl; [done|].
  destruct (is_space c) eqn:Hc; [exact IH | exact Hc].
Qed.

Lemma forallb_rev (f : N -> bool) (s : str) :
  forallb f (rev s) = forallb f s.
Proof.
  induction s as [|c t IH]; simpl; [done|].
  rewrite forallb_app, IH. simpl. rewrite andb_true_r. apply andb_comm.
Qed.

Lemma rstrip_nil_spaces (s : str) :
  rstrip s = [] -> forallb is_space s = true.
Proof.
  unfold rstrip. intros H.
  assert (lstrip (rev s) = []) as H'.
  { rewrite <- (rev_involutive (lstrip (rev s))), H. done. }
  apply lstrip_nil_spaces in H'. by rewrite forallb_rev in H'.
Qed.

(** [s.strip()] is empty exactly when [s] holds whitespace only. *)
Lemma strip_nil_iff (s : str) :
  strip s = [] <-> forallb is_space s = true.
Proof.
  split.
  - unfold strip. intros H. apply rstrip_nil_spaces in H.
    pose proof (lstrip_head s) as Hh.
    destruct (lstrip s) as [|c t] eqn:E.
    + by apply lstrip_nil_spaces.
    + simpl in H. rewrite Hh in H. discriminate.
  - intros H. unfold strip. by rewrite (lstrip_spaces s H).
Qed.

(** The guard of [generateFurigana] holds exactly for the strings made
    of whitespace only, the empty string among them. *)
Lemma is_blank_spaces (html : str) :
  is_blank html = forallb is_space html.
Proof.
  unfold is_blank.
  destruct (forallb is_space html) eqn:E.
  - apply strip_nil_iff in E. rewrite E. simpl. apply orb_true_r.
  - destruct html as [|c t]; [discriminate|].
    destruct (strip (c :: t)) eqn:Es; [|done].
    apply strip_nil_iff in Es. congruence.
Qed.

Lemma startswith_app (p s : str) :
  startswith p s = true -> s = p ++ drop (length p) s.
Proof.
  revert s. induction p as [|a p IH]; intros [|b s]; simpl; try done.
  intros [Hab Hps]%andb_true_iff. apply N.eqb_eq in Hab. subst b.
  f_equal. by apply IH.
Qed.

Lemma startswith_prefix (p s : str) : startswith p (p ++ s) = true.
Proof.
  induction p as [|a p IH]; simpl; [done|].
  by rewrite N.eqb_refl.
Qed.

(** ** The tag pattern *)

Module TagReFacts.
Import TagRe.

Lemma lazy_tail_shorter (s rest : str) :
  lazy_tail s = Some rest -> (length rest < length s)%nat.
Proof.
  revert rest. induction s as [|c t IH]; intros rest; simpl; [done|].
  destruct (c =? gt_sign).
  - intros [= ->]. lia.
  - destruct (c =? lt_sign); [done|].
    intros H%IH. lia.
Qed.

Lemma match_here_shorter (s rest : str) :
  match_here s = Some rest -> (length rest < length s)%nat.
Proof.
  destruct s as [|c0 [|c1 t]]; simpl; try done.
  destruct ((c0 =? lt_sign) && negb (c1 =? lt_sign)); [|done].
  intros H%lazy_tail_shorter. lia.
Qed.

(** Any fuel from the length of the text on gives the same result. *)
Lemma sub_from_enough (f g : nat) (s : str) :
  (length s <= f)%nat -> (length s <= g)%nat ->
  sub_from f s = sub_from g s.
Proof.
  revert g s. induction f as [|f IH]; intros g s Hf Hg.
  - destruct s; [|simpl in Hf; lia]. by destruct g.
  - destruct g as [|g].
    + destruct s; [done | simpl in Hg; lia].
    + destruct s as [|c t]; [done|].
      change (sub_from (S f) (c :: t))
        with (match match_here (c :: t) with
              | Some rest => sub_from f rest
              | None => c :: sub_from f t
              end).
      change (sub_from (S g) (c :: t))
        with (match match_here (c :: t) with
              | Some rest => sub_from g rest
              | None => c :: sub_from g t
              end).
      simpl in Hf, Hg.
      destruct (match_here (c :: t)) as [rest|] eqn:E.
      * apply match_here_shorter in E. simpl in E. apply IH; lia.
      * f_equal. apply IH; lia.
Qed.

(** The equations of [re.sub] for this pattern. *)
Lemma sub_nil : sub [] = [].
Proof. reflexivity. Qed.

Lemma sub_cons (c : N) (t : str) :
  sub (c :: t) =
    match match_here (c :: t) with
    | Some rest => sub rest
    | None => c :: sub t
    end.
Proof.
  unfold sub.
  change (sub_from (length (c :: t)) (c :: t))
    with (match match_here (c :: t) with
          | Some rest => sub_from (length t) rest
          | None => c :: sub_from (length t) t
          end).
  destruct (match_here (c :: t)) as [rest|] eqn:E; [|done].
  apply match_here_shorter in E. simpl in E.
  apply sub_from_enough; lia.
Qed.

(** Text without [<] has no tag to remove. *)
Lemma sub_no_lt (s : str) :
  forallb (fun c => negb (c =? lt_sign)) s = true -> sub s = s.
Proof.
  induction s as [|c t IH]; [done|].
  simpl. intros [Hc Ht]%andb_true_iff.
  rewrite sub_cons.
  assert (match_here (c :: t) = None) as ->.
  { destruct t as [|c1 t']; [done|]. simpl.
    apply negb_true_iff in Hc. by rewrite Hc. }
  f_equal. by apply IH.
Qed.

End TagReFacts.

(** ** Deleting [&nbsp;] *)

Lemma replace_from_enough (old new : str) (f g : nat) (s : str) :
  old <> [] -> (length s <= f)%nat -> (length s <= g)%nat ->
  replace_from f old new s = replace_from g old new s.
Proof.
  intros Hold. revert g s. induction f as [|f IH]; intros g s Hf Hg.
  - destruct s; [|simpl in Hf; lia]. by destruct g.
  - destruct g as [|g].
    + destruct s; [done | simpl in Hg; lia].
    + destruct s as [|c t]; [done|].
      simpl replace_from. simpl in Hf, Hg.
      destruct (startswith old (c :: t)) eqn:E.
      * f_equal. apply IH.
        -- rewrite length_drop. simpl. destruct old; [done|]. simpl. lia.
        -- rewrite length_drop. simpl. destruct old; [done|]. simpl. lia.
      * f_equal. apply IH; lia.
Qed.

Lemma replace_nil (old new : str) : old <> [] -> replace old new [] = [].
Proof. destruct old; [done|]. reflexivity. Qed.

Lemma replace_cons (old new : str) (c : N) (t : str) :
  old <> [] ->
  replace old new (c :: t) =
    if startswith old (c :: t)
    then new ++ replace old new (drop (length old) (c :: t))
    else c :: replace old new t.
Proof.
  intros Hold. unfold replace. destruct old as [|o old']; [done|].
  change (replace_from (length (c :: t)) (o :: old') new (c :: t))
    with (if startswith (o :: old') (c :: t)
          then new ++ replace_from (length t) (o :: old') new
                        (drop (length (o :: old')) (c :: t))
          else c :: replace_from (length t) (o :: old') new t).
  destruct (startswith (o :: old') (c :: t)) eqn:E; [|done].
  f_equal. apply replace_from_enough; [done| |lia].
  rewrite length_drop. simpl. lia.
Qed.

(** Deleting every [&nbsp;] leaves nothing exactly for a sequence of
    [&nbsp;] entities with nothing between them. *)
Lemma delete_nbsp_nil (s : str) :
  replace nbsp [] s = [] <-> exists k : nat, s = concat (replicate k nbsp).
Proof.
  assert (nbsp <> []) as Hne by done.
  remember (length s) as n eqn:Hn.
  revert s Hn. induction n as [n IH] using lt_wf_ind. intros s Hn.
  destruct s as [|c t].
  - split; [intros _; by exists 0%nat | intros _; by apply replace_nil].
  - rewrite replace_cons by done.
    destruct (startswith nbsp (c :: t)) eqn:E.
    + pose proof (startswith_app _ _ E) as Hs.
      assert (length (drop (length nbsp) (c :: t)) < n)%nat as Hlt.
      { rewrite length_drop. subst n. simpl. lia. }
      specialize (IH _ Hlt _ eq_refl). simpl app. rewrite IH. split.
      * intros [k Hk]. exists (S k).
        change (concat (replicate (S k) nbsp))
          with (nbsp ++ concat (replicate k nbsp)).
        rewrite <- Hk. exact Hs.
      * intros [k Hk]. destruct k as [|k]; [discriminate|].
        exists k.
        change (concat (replicate (S k) nbsp))
          with (nbsp ++ concat (replicate k nbsp)) in Hk.
        rewrite Hk. by rewrite drop_app_length.
    + split; [discriminate|].
      intros [k Hk]. destruct k as [|k]; [discriminate|].
      change (concat (replicate (S k) nbsp))
        with (nbsp ++ concat (replicate k nbsp)) in Hk.
      rewrite Hk, startswith_prefix in E. discriminate.
Qed.

(** ** The emptiness test of the scan *)

(** C10: [is_field_effectively_empty s] is true exactly when [s] is empty
    or when removing the tags matched by [<[^<]+?>], stripping leading
    and trailing whitespace and then deleting every [&nbsp;] leaves the
    empty string.  A field holding only [<br>] or a lone [&nbsp;] counts
    as empty; [&nbsp; &nbsp;], with a space between the entities, does
    not. *)
Theorem is_field_effectively_empty_iff :
  (forall s : str,
     is_field_effectively_empty s = true <->
     s = [] \/ replace nbsp [] (strip (TagRe.sub s)) = [])
  /\ is_field_effectively_empty (lit "<br>") = true
  /\ is_field_effectively_empty (lit "&nbsp;") = true
  /\ is_field_effectively_empty (lit "&nbsp; &nbsp;") = false.
Proof.
  split; [|by vm_compute].
  intros s. unfold is_field_effectively_empty.
  destruct s as [|c t]; simpl negb; cbv iota.
  - split; auto.
  - rewrite negb_true_iff, truthy_false. split; [auto|].
    intros [H|H]; [discriminate | exact H].
Qed.

(** ** The engine façade and the web demo *)

Section EngineFacts.

Context {MecabState : Type}.
Variable reading_impl :
  MecabState -> str -> bool -> bool -> MecabState * result str.
Variable removeFurigana : str -> str.
Variable reading_default_ignoreNumbers : bool.

Local Abbreviation generate := (generateFurigana reading_impl removeFurigana).
Local Abbreviation tokenize := (mecab_reading reading_impl).

(** The monad's unit on the right. *)
Lemma bind_ret_r {A : Type} (m : M MecabState A) (w : World MecabState) :
  bind m (fun a => ret a) w = m w.
Proof. unfold bind, ret. by destruct (m w) as [w' [a|e]]. Qed.

(** Every call of the analyzer is recorded. *)
Lemma mecab_reading_logged (expr : str) (n r : bool)
    (w : World MecabState) :
  readings (fst (tokenize expr n r w)) = readings w ++ [(expr, n, r)].
Proof.
  unfold mecab_reading.
  by destruct (reading_impl (mecab w) expr n r).
Qed.

(** C1: for an input made of whitespace only, the empty string among
    them, [generateFurigana] returns the empty string whatever the
    flags, and the world is left as it was: the analyzer is not called. *)
Theorem generateFurigana_blank (html : str) (n r : bool)
    (w : World MecabState) :
  forallb is_space html = true ->
  generate html n r w = (w, Ok []).
Proof.
  intros H. unfold generateFurigana.
  by rewrite is_blank_spaces, H.
Qed.

(** Past its guard, [generateFurigana] is the analyzer pass on the
    stripped text. *)
Lemma generateFurigana_nonblank (html : str) (n r : bool)
    (w : World MecabState) :
  is_blank html = false ->
  generate html n r w = tokenize (removeFurigana html) n r w.
Proof.
  intros H. unfold generateFurigana. rewrite H. apply bind_ret_r.
Qed.

(** C2: for an input that holds a character other than whitespace,
    [generateFurigana] is the analyzer pass applied to the text with its
    furigana removed: [mecab.reading(removeFurigana(html), ignoreNumbers,
    useRubyTags)], result and effects alike. *)
Theorem generateFurigana_strips_then_reads (html : str) (n r : bool)
    (w : World MecabState) :
  forallb is_space html = false ->
  generate html n r w = tokenize (removeFurigana html) n r w.
Proof.
  intros H. apply generateFurigana_nonblank. by rewrite is_blank_spaces.
Qed.

(** C4: when the analyzer call made for a non-blank input raises,
    [generateFurigana] raises the same error; it returns no string. *)
Theorem generateFurigana_propagates (html : str) (n r : bool)
    (w : World MecabState) (e : exn) :
  forallb is_space html = false ->
  snd (tokenize (removeFurigana html) n r w) = Raise e ->
  snd (generate html n r w) = Raise e
  /\ forall s : str, snd (generate html n r w) <> Ok s.
Proof.
  intros Hb He.
  rewrite generateFurigana_nonblank by (by rewrite is_blank_spaces).
  rewrite He. split; [done | discriminate].
Qed.

(** The handler of [/api/furigana] is the analyzer pass on the text as
    received, with the default [ignoreNumbers]. *)
Lemma api_furigana_reads (data : request) (w : World MecabState) :
  api_furigana reading_impl reading_default_ignoreNumbers data w
  = tokenize (default [] (req_text data)) reading_default_ignoreNumbers
      (default false (req_useRubyTags data)) w.
Proof. unfold api_furigana. apply bind_ret_r. Qed.

(** C3, as the code has it: the handler of [/api/furigana] does not
    strip and has no guard for blank text; it agrees with
    [generateFurigana], called with the default [ignoreNumbers] of the
    analyzer pass, on every text that is not blank and that
    [removeFurigana] leaves as it is. *)
Theorem api_furigana_agrees (data : request) (w : World MecabState) :
  forallb is_space (default [] (req_text data)) = false ->
  removeFurigana (default [] (req_text data)) = default [] (req_text data) ->
  api_furigana reading_impl reading_default_ignoreNumbers data w
  = generate (default [] (req_text data)) reading_default_ignoreNumbers
      (default false (req_useRubyTags data)) w.
Proof.
  intros Hb Hs. rewrite api_furigana_reads.
  rewrite generateFurigana_nonblank by (by rewrite is_blank_spaces).
  by rewrite Hs.
Qed.

End EngineFacts.

(** ** Runs over pairs and notes *)

Lemma spaced_app (last : Q) (rs1 rs2 : list report) :
  spaced last rs1 -> spaced (last_stamp last rs1) rs2 ->
  spaced last (rs1 ++ rs2).
Proof.
  revert last. induction rs1 as [|r rs1 IH]; intros last; simpl; [done|].
  intros [Hr H1] H2. split; [exact Hr | by apply IH].
Qed.

Lemma last_stamp_app (last : Q) (rs1 rs2 : list report) :
  last_stamp last (rs1 ++ rs2) = last_stamp (last_stamp last rs1) rs2.
Proof.
  revert last. induction rs1 as [|r rs1 IH]; intros last; simpl; [done|].
  apply IH.
Qed.


Lemma app_not_nil {A : Type} (l1 l2 : list A) :
  l1 ++ l2 <> [] <-> l1 <> [] \/ l2 <> [].
Proof.
  destruct l1 as [|a l1].
  - simpl. split; [by right | by intros [?|?]].
  - simpl. split; [by left | done].
Qed.

Lemma same_but_refl (D : list str) (a : Note) : same_but D a a.
Proof. by split. Qed.

Lemma same_but_trans (D : list str) (a b c : Note) :
  same_but D a b -> same_but D b c -> same_but D a c.
Proof.
  intros [Hd1 Hf1] [Hd2 Hf2]. split; [congruence|].
  intros k Hk. rewrite Hf2, Hf1; done.
Qed.

Lemma notes_same_but_refl (D : list str) (ns : gmap Z Note) :
  notes_same_but D ns ns.
Proof.
  intros nid. destruct (ns !! nid); constructor. apply same_but_refl.
Qed.

Lemma notes_same_but_trans (D : list str) (ns1 ns2 ns3 : gmap Z Note) :
  notes_same_but D ns1 ns2 -> notes_same_but D ns2 ns3 ->
  notes_same_but D ns1 ns3.
Proof.
  intros H12 H23 nid. specialize (H12 nid). specialize (H23 nid).
  destruct H12 as [a b Hab|]; inversion H23; subst; constructor.
  by apply same_but_trans with b.
Qed.

(** Storing, under its id, a note that differs from the stored one on
    the fields [D] only. *)
Lemma notes_same_but_store (D : list str) (ns : gmap Z Note) (nid : Z)
    (old new : Note) :
  ns !! nid = Some old -> same_but D old new ->
  notes_same_but D ns (<[nid := new]> ns).
Proof.
  intros Hold Hsame j. destruct (decide (j = nid)) as [->|Hne].
  - rewrite lookup_insert_eq, Hold. by constructor.
  - rewrite lookup_insert_ne by done.
    destruct (ns !! j); constructor. apply same_but_refl.
Qed.

Lemma pair_run_refl {S : Type} (D : list str) (nid : Z) (w : World S) :
  pair_run D nid w w [].
Proof. constructor; try done. by rewrite app_nil_r. Qed.

Lemma pair_run_trans {S : Type} (D : list str) (nid : Z)
    (w1 w2 w3 : World S) (a1 a2 : list assignment) :
  pair_run D nid w1 w2 a1 -> pair_run D nid w2 w3 a2 ->
  pair_run D nid w1 w3 (a1 ++ a2).
Proof.
  intros [] []. constructor; try congruence.
  - rewrite app_assoc. congruence.
  - by apply Forall_app.
Qed.

Lemma pair_run_weaken {S : Type} (D D' : list str) (nid : Z)
    (w w' : World S) (added : list assignment) :
  D ⊆ D' -> pair_run D nid w w' added -> pair_run D' nid w w' added.
Proof.
  intros Hsub []. constructor; try done.
  eapply Forall_impl; [eassumption|].
  intros a (Hn & Hf & Hc). repeat split; auto.
Qed.

Lemma dest_fields_elem (pairs : list pair) (p : pair) (d : str) :
  p ∈ pairs -> destination p = Some d -> d ∈ dest_fields pairs.
Proof. intros Hp Hd. apply list_elem_of_omap. eauto. Qed.

Lemma dest_fields_cons_l (p : pair) (pairs : list pair) (d : str) :
  destination p = Some d -> d ∈ dest_fields (p :: pairs).
Proof. intros Hd. apply (dest_fields_elem _ p); [left | done]. Qed.

Lemma dest_fields_cons_r (p : pair) (pairs : list pair) :
  dest_fields pairs ⊆ dest_fields (p :: pairs).
Proof.
  intros d (q & Hq & Hd)%list_elem_of_omap.
  apply (dest_fields_elem _ q); [by right | done].
Qed.

Lemma rule_pairs_cons_l (r : rule) (rules : list rule) :
  dest_fields (fieldPairs r) ⊆ dest_fields (rule_pairs (r :: rules)).
Proof.
  intros d (q & Hq & Hd)%list_elem_of_omap.
  apply (dest_fields_elem _ q); [|done].
  unfold rule_pairs. simpl. apply elem_of_app. by left.
Qed.

Lemma rule_pairs_cons_r (r : rule) (rules : list rule) :
  dest_fields (rule_pairs rules) ⊆ dest_fields (rule_pairs (r :: rules)).
Proof.
  intros d (q & Hq & Hd)%list_elem_of_omap.
  apply (dest_fields_elem _ q); [|done].
  unfold rule_pairs. simpl. apply elem_of_app. by right.
Qed.

(** A run that only reads the clock and calls the progress callback. *)
Ltac quiet_run :=
  constructor; simpl; try done;
  try apply notes_same_but_refl;
  try (by rewrite app_nil_r);
  try (by intros ? ?%elem_of_nil).

Section BatchFacts.

Context {MecabState : Type}.
Variable reading_impl :
  MecabState -> str -> bool -> bool -> MecabState * result str.
Variable removeFurigana : str -> str.

Local Abbreviation W := (World MecabState).
Local Abbreviation generate := (generateFurigana reading_impl removeFurigana).

(** [generateFurigana] touches the analyzer only. *)
Lemma generate_run (D : list str) (nid : Z) (html : str) (n r : bool)
    (w w' : W) (res : result str) :
  generate html n r w = (w', res) -> pair_run D nid w w' [].
Proof.
  unfold generateFurigana. destruct (is_blank html).
  - intros [= <- <-]. apply pair_run_refl.
  - unfold bind, mecab_reading.
    destruct (reading_impl (mecab w) (removeFurigana html) n r)
      as [m' [t|e]];
      intros [= <- <-]; constructor; simpl; try done;
      by rewrite app_nil_r.
Qed.

(** One assignment to a destination field, changing its content. *)
Lemma assign_run (D : list str) (nid : Z) (field value : str)
    (flds : gmap str str) (w : W) :
  field ∈ D -> value <> flds !!! field ->
  pair_run D nid w (fst (assign_field nid field value flds w))
    [mkAssign nid field (flds !!! field) value].
Proof.
  intros HD Hne. constructor; simpl; try done.
  constructor; [|constructor]. by repeat split.
Qed.

(** The outcome of a turn that leaves the note alone. *)
Lemma untouched_outcome (D : list str) (nid : Z) (flds : gmap str str)
    (m : bool) (w w' : W) (res : result (gmap str str * bool)) :
  (w, Ok (flds, m)) = (w', res) ->
  exists added,
    pair_run D nid w w' added
    /\ match res with
       | Ok (flds', m') =>
           (forall k, k ∉ D -> flds' !! k = flds !! k)
           /\ (m' = true <-> m = true \/ added <> [])
       | Raise _ => True
       end.
Proof.
  intros [= <- <-]. exists []. split; [apply pair_run_refl|].
  split; [done|]. split; [auto | by intros [?|?]].
Qed.

(** The outcome of a turn that generates [g] for the field [df]. *)
Lemma generated_outcome (D : list str) (nid : Z) (df g : str)
    (flds : gmap str str) (m : bool) (w w1 w' : W)
    (res : result (gmap str str * bool)) :
  df ∈ D ->
  pair_run D nid w w1 [] ->
  (if negb (Py.eqb g (flds !!! df))
   then bind (assign_field nid df g flds) (fun note' => ret (note', true))
   else ret (flds, m)) w1 = (w', res) ->
  exists added,
    pair_run D nid w w' added
    /\ match res with
       | Ok (flds', m') =>
           (forall k, k ∉ D -> flds' !! k = flds !! k)
           /\ (m' = true <-> m = true \/ added <> [])
       | Raise _ => True
       end.
Proof.
  intros HD Hg.
  destruct (Py.eqb g (flds !!! df)) eqn:Heq; simpl negb; cbv iota.
  - intros [= <- <-]. exists []. split; [exact Hg|]. split; [done|].
    split; [auto | by intros [?|?]].
  - apply eqb_false in Heq. unfold bind, ret. simpl.
    intros [= <- <-].
    exists [mkAssign nid df (flds !!! df) g]. split.
    + apply (pair_run_trans D nid w w1 _ [] _ Hg).
      by apply (assign_run D nid df g flds w1).
    + split.
      * intros k Hk. apply lookup_insert_ne. by intros ->.
      * split; [by right | done].
Qed.

(** What one turn of the inner loop of [bulkGenerate] does. *)
Lemma bulk_pair_run (D : list str) (nid : Z) (n r : bool) (p : pair)
    (flds : gmap str str) (m : bool) (w w' : W)
    (res : result (gmap str str * bool)) :
  (forall d, destination p = Some d -> d ∈ D) ->
  bulk_pair reading_impl removeFurigana nid n r p (flds, m) w = (w', res) ->
  exists added,
    pair_run D nid w w' added
    /\ match res with
       | Ok (flds', m') =>
           (forall k, k ∉ D -> flds' !! k = flds !! k)
           /\ (m' = true <-> m = true \/ added <> [])
       | Raise _ => True
       end.
Proof.
  intros HD. unfold bulk_pair.
  destruct (falsy (source p) || falsy (destination p));
    [apply untouched_outcome|].
  destruct (source p) as [sf|]; [|apply untouched_outcome].
  destruct (destination p) as [df|] eqn:Hdf; [|apply untouched_outcome].
  destruct (has_field sf flds && has_field df flds
            && truthy (flds !!! sf)); [|apply untouched_outcome].
  unfold bind at 1.
  destruct (generate (flds !!! sf) n r w) as [w1 [g|e]] eqn:Eg.
  - apply (generate_run D nid) in Eg.
    replace (Py.eqb (flds !!! df) g) with (Py.eqb g (flds !!! df)).
    + apply generated_outcome; [by apply HD | exact Eg].
    + unfold Py.eqb. apply bool_decide_ext. split; congruence.
  - apply (generate_run D nid) in Eg.
    intros [= <- <-]. exists []. split; [exact Eg | done].
Qed.

Lemma bulk_pairs_run (nid : Z) (n r : bool) (pairs : list pair)
    (flds : gmap str str) (m : bool) (w w' : W)
    (res : result (gmap str str * bool)) :
  bulk_pairs reading_impl removeFurigana nid n r pairs (flds, m) w
    = (w', res) ->
  exists added,
    pair_run (dest_fields pairs) nid w w' added
    /\ match res with
       | Ok (flds', m') =>
           (forall k, k ∉ dest_fields pairs -> flds' !! k = flds !! k)
           /\ (m' = true <-> m = true \/ added <> [])
       | Raise _ => True
       end.
Proof.
  revert flds m w. induction pairs as [|p rest IH]; intros flds m w.
  - apply untouched_outcome.
  - cbn [bulk_pairs]. unfold bind at 1.
    destruct (bulk_pair reading_impl removeFurigana nid n r p (flds, m) w)
      as [w1 [[flds1 m1]|e]] eqn:E1.
    + apply (bulk_pair_run (dest_fields (p :: rest))) in E1;
        [|intros d Hd; by apply dest_fields_cons_l].
      destruct E1 as (a1 & Hr1 & Hf1 & Hm1).
      intros (a2 & Hr2 & Hv2)%IH.
      exists (a1 ++ a2). split.
      * apply (pair_run_trans _ _ w w1 _ _ _ Hr1).
        eapply pair_run_weaken; [apply dest_fields_cons_r | exact Hr2].
      * destruct res as [[flds2 m2]|e]; [|done].
        destruct Hv2 as [Hf2 Hm2]. split.
        -- intros k Hk. rewrite Hf2, Hf1; [done|done|].
           intros Hin. apply Hk. by apply dest_fields_cons_r.
        -- rewrite Hm2, Hm1, app_not_nil. tauto.
    + apply (bulk_pair_run (dest_fields (p :: rest))) in E1;
        [|intros d Hd; by apply dest_fields_cons_l].
      destruct E1 as (a1 & Hr1 & _).
      intros [= <- <-]. exists a1. split; [exact Hr1 | done].
Qed.

Lemma pair_run_note_run (D : list str) (nid : Z) (w w' : W)
    (added : list assignment) :
  pair_run D nid w w' added -> note_run D w w' added [] [].
Proof.
  intros []. constructor; try done.
  - rewrite pr_notes0. apply notes_same_but_refl.
  - eapply Forall_impl; [eassumption|]. by intros a [_ ?].
  - by rewrite app_nil_r.
  - by intros nid' ?%elem_of_nil.
  - by rewrite app_nil_r.
Qed.

Lemma note_run_refl (D : list str) (w : W) : note_run D w w [] [] [].
Proof. apply (pair_run_note_run D 0%Z), pair_run_refl. Qed.

Lemma note_run_trans (D : list str) (w1 w2 w3 : W)
    (a1 a2 : list assignment) (ws1 ws2 : list Z) (rs1 rs2 : list report) :
  note_run D w1 w2 a1 ws1 rs1 -> note_run D w2 w3 a2 ws2 rs2 ->
  note_run D w1 w3 (a1 ++ a2) (ws1 ++ ws2) (rs1 ++ rs2).
Proof.
  intros [] []. constructor; try congruence.
  - by eapply notes_same_but_trans.
  - rewrite app_assoc. congruence.
  - by apply Forall_app.
  - rewrite app_assoc. congruence.
  - intros nid [H|H]%elem_of_app.
    + destruct (nr_written0 nid H) as (a & Ha & Hn).
      exists a. split; [apply elem_of_app; by left | done].
    + destruct (nr_written1 nid H) as (a & Ha & Hn).
      exists a. split; [apply elem_of_app; by right | done].
  - rewrite app_assoc. congruence.
Qed.

Lemma note_run_weaken (D D' : list str) (w w' : W)
    (added : list assignment) (ws : list Z) (rs : list report) :
  D ⊆ D' -> note_run D w w' added ws rs -> note_run D' w w' added ws rs.
Proof.
  intros Hsub []. constructor; try done.
  - intros nid. specialize (nr_notes0 nid).
    destruct nr_notes0 as [a b [Hd Hf]|]; constructor.
    split; [done|]. intros k Hk. apply Hf. intros Hin. by apply Hk, Hsub.
  - eapply Forall_impl; [eassumption|].
    intros a [Hf Hc]. split; auto.
Qed.

(** The rate test and the progress call at the end of a turn of the
    loop of [bulkGenerate]. *)
Lemma progress_step_run (D : list str) (hp : bool) (total i : nat)
    (last : Q) (count : nat) (w w' : W) (res : result (Q * nat)) :
  bind (update_progress hp total i last) (fun l => ret (l, count)) w
    = (w', res) ->
  exists (rs : list report) (last' : Q),
    res = Ok (last', count)
    /\ note_run D w w' [] [] rs
    /\ spaced last rs
    /\ (rs = []
        \/ exists tested stamp, rs = [mkReport (S i) total tested stamp])
    /\ (hp = false -> rs = [])
    /\ (hp = true -> last' = last_stamp last rs)
    /\ Forall (successive_readings (clock w)) rs.
Proof.
  unfold update_progress, bind, time_time, progress, ret. simpl.
  destruct (Qle_bool progress_period (clock w (ticks w) - last)) eqn:Hq.
  - apply Qle_bool_iff in Hq. destruct hp; simpl.
    + intros [= <- <-].
      exists [mkReport (S i) total (clock w (ticks w)) (clock w (S (ticks w)))].
      eexists. split; [reflexivity|]. split; [quiet_run|].
      split; [simpl; by split|]. split; [right; eauto|].
      split; [done|]. split; [reflexivity|].
      constructor; [|constructor]. by exists (ticks w).
    + intros [= <- <-]. exists []. eexists.
      split; [reflexivity|]. split; [quiet_run|].
      split; [done|]. split; [by left|]. split; [done|].
      split; [discriminate | constructor].
  - simpl. intros [= <- <-]. exists []. eexists.
    split; [reflexivity|]. split; [quiet_run|].
    split; [done|]. split; [by left|]. split; [done|].
    split; [reflexivity | constructor].
Qed.

(** Storing a note that was changed on its destination fields. *)
Lemma store_run (D : list str) (nid : Z) (note : Note)
    (flds : gmap str str) (w w1 : W) (added : list assignment) :
  notes w !! nid = Some note ->
  pair_run D nid w w1 added ->
  added <> [] ->
  (forall k, k ∉ D -> flds !! k = fields note !! k) ->
  note_run D w
    (fst (bind (store_note nid (mkNote flds (deck note)))
            (fun _ => bind merge_undo_entries (fun _ => ret tt)) w1))
    added [nid] [].
Proof.
  intros Hnote [] Hne Hf. destruct added as [|a added']; [done|].
  constructor; simpl; try done.
  - rewrite pr_notes0.
    apply notes_same_but_store with note; [done | by split].
  - eapply Forall_impl; [eassumption|]. by intros b [_ ?].
  - by rewrite pr_writes0.
  - intros nid' ->%list_elem_of_singleton. exists a. split; [left|].
    by inversion pr_added0 as [|? ? [? _] _].
  - by rewrite app_nil_r.
Qed.

(** What one turn of the loop of [bulkGenerate] does. *)
Lemma bulk_note_run (pairs : list pair) (hp n r : bool) (total i : nat)
    (nid : Z) (last : Q) (count : nat) (w w' : W)
    (res : result (Q * nat)) :
  bulk_note reading_impl removeFurigana pairs hp n r total i nid
    (last, count) w = (w', res) ->
  exists added ws rs,
    note_run (dest_fields pairs) w w' added ws rs
    /\ spaced last rs
    /\ (rs = []
        \/ exists tested stamp, rs = [mkReport (S i) total tested stamp])
    /\ (hp = false -> rs = [])
    /\ Forall (successive_readings (clock w)) rs
    /\ match res with
       | Ok (last', count') =>
           count' = (count + length ws)%nat
           /\ (forall a, a ∈ added -> as_note a ∈ ws)
           /\ (hp = true -> last' = last_stamp last rs)
       | Raise _ => True
       end.
Proof.
  set (D := dest_fields pairs).
  unfold bulk_note. unfold bind at 1. unfold get_note at 1.
  destruct (notes w !! nid) as [note|] eqn:Hnote.
  2:{ intros [= <- <-]. exists [], [], [].
      split; [apply note_run_refl|]. by repeat split; auto. }
  unfold bind at 1.
  destruct (bulk_pairs reading_impl removeFurigana nid n r pairs
              (fields note, false) w) as [w1 [[flds m]|e]] eqn:E1.
  2:{ apply bulk_pairs_run in E1. destruct E1 as (added & Hr & _).
      intros [= <- <-]. exists added, [], [].
      split; [by apply (pair_run_note_run D nid)|].
      by repeat split; auto. }
  apply bulk_pairs_run in E1. destruct E1 as (added & Hr & Hf & Hm).
  fold D in Hr, Hf.
  destruct m.
  - assert (added <> []) as Hne.
    { destruct Hm as [Hm _]. by destruct Hm as [?|?]. }
    pose proof (store_run D nid note flds w w1 added Hnote Hr Hne Hf)
      as Hs.
    set (w3 := fst (bind (store_note nid (mkNote flds (deck note)))
                      (fun _ => bind merge_undo_entries (fun _ => ret tt))
                      w1)) in Hs.
    unfold bind at 1.
    change (bind (store_note nid (mkNote flds (deck note)))
              (fun _ => bind merge_undo_entries
                          (fun _ => ret (S count))) w1)
      with (w3, Ok (S count)).
    cbv beta iota.
    intros (rs & last' & -> & Hp & Hsp & Hrs & Hhp & Hl & Hsucc)%
      (progress_step_run D).
    exists added, [nid], rs. split.
    { pose proof (note_run_trans D w w3 w' _ _ _ _ _ _ Hs Hp) as Ht.
      by rewrite app_nil_r in Ht. }
    split; [done|]. split; [done|]. split; [done|].
    split; [by rewrite <- (nr_clock _ _ _ _ _ _ Hs)|].
    split; [simpl; lia|]. split; [|done].
    intros a Ha. destruct Hr as [_ _ _ _ _ _ _ _ Hall].
    rewrite Forall_forall in Hall. destruct (Hall a Ha) as [-> _]. left.
  - assert (added = []) as ->.
    { destruct added; [done|]. destruct Hm as [_ Hm].
      by discriminate Hm; right. }
    unfold bind at 1. unfold ret at 1.
    intros (rs & last' & -> & Hp & Hsp & Hrs & Hhp & Hl & Hsucc)%
      (progress_step_run D).
    exists [], [], rs. split.
    { apply (pair_run_note_run D nid) in Hr.
      apply (note_run_trans D w w1 w' _ _ _ _ _ _ Hr Hp). }
    split; [done|]. split; [done|]. split; [done|].
    split; [by rewrite <- (pr_clock _ _ _ _ _ Hr)|].
    split; [simpl; lia|]. split; [|done].
    by intros a ?%elem_of_nil.
Qed.

(** What the loop of [bulkGenerate] does from index [i] on. *)
Lemma bulk_loop_run (pairs : list pair) (hp n r : bool) (total : nat)
    (ids : list Z) (i : nat) (last : Q) (count : nat) (w w' : W)
    (res : result (Q * nat)) :
  bulk_loop reading_impl removeFurigana pairs hp n r total i ids
    (last, count) w = (w', res) ->
  exists added ws rs,
    note_run (dest_fields pairs) w w' added ws rs
    /\ spaced last rs
    /\ Forall (fun rp => rp_total rp = total) rs
    /\ sublist (map rp_done rs) (seq (S i) (length ids))
    /\ (hp = false -> rs = [])
    /\ Forall (successive_readings (clock w)) rs
    /\ match res with
       | Ok (last', count') =>
           count' = (count + length ws)%nat
           /\ (forall a, a ∈ added -> as_note a ∈ ws)
           /\ (hp = true -> last' = last_stamp last rs)
       | Raise _ => True
       end.
Proof.
  set (D := dest_fields pairs).
  revert i last count w.
  induction ids as [|nid rest IH]; intros i last count w.
  - intros [= <- <-]. exists [], [], [].
    split; [apply note_run_refl|]. split; [done|].
    split; [constructor|]. split; [constructor|]. split; [done|].
    split; [constructor|].
    split; [simpl; lia|]. split; [by intros a ?%elem_of_nil | done].
  - cbn [bulk_loop]. unfold bind at 1.
    destruct (bulk_note reading_impl removeFurigana pairs hp n r total i
                nid (last, count) w) as [w1 [[last1 count1]|e]] eqn:E1;
      apply bulk_note_run in E1;
      destruct E1 as (a1 & ws1 & rs1 & Hr1 & Hs1 & Hone & Hhp1 & Hsu1 & Hv1).
    + destruct Hv1 as (Hc1 & Hw1 & Hl1).
      intros (a2 & ws2 & rs2 & Hr2 & Hs2 & Ht2 & Hd2 & Hhp2 & Hsu2 & Hv2)%IH.
      exists (a1 ++ a2), (ws1 ++ ws2), (rs1 ++ rs2).
      split; [by eapply note_run_trans|].
      split.
      { destruct hp.
        - apply spaced_app; [done|]. by rewrite <- Hl1.
        - rewrite (Hhp1 eq_refl), (Hhp2 eq_refl). done. }
      split.
      { apply Forall_app. split; [|done].
        destruct Hone as [->|(g & t & ->)]; by repeat constructor. }
      split.
      { rewrite map_app.
        change (seq (S i) (length (nid :: rest)))
          with ([S i] ++ seq (S (S i)) (length rest)).
        apply sublist_app; [|done].
        destruct Hone as [->|(g & t & ->)]; simpl.
        - apply sublist_nil_l.
        - done. }
      split.
      { intros Hf. by rewrite (Hhp1 Hf), (Hhp2 Hf). }
      split.
      { apply Forall_app. split; [done|].
        by rewrite <- (nr_clock _ _ _ _ _ _ Hr1). }
      destruct res as [[last' count']|e]; [|done].
      destruct Hv2 as (Hc2 & Hw2 & Hl2).
      split; [rewrite length_app; lia|]. split.
      * intros a [Ha|Ha]%elem_of_app; apply elem_of_app; auto.
      * intros Hf. rewrite last_stamp_app, <- Hl1 by done. auto.
    + intros [= <- <-]. exists a1, ws1, rs1.
      split; [done|]. split; [done|]. split.
      { destruct Hone as [->|(g & t & ->)]; by repeat constructor. }
      split.
      { change (seq (S i) (length (nid :: rest)))
          with ([S i] ++ seq (S (S i)) (length rest)).
        rewrite <- (app_nil_r (map rp_done rs1)).
        apply sublist_app; [|apply sublist_nil_l].
        destruct Hone as [->|(g & t & ->)]; simpl.
        - apply sublist_nil_l.
        - done. }
      done.
Qed.



(** *** The update step of the scan *)

Lemma update_pair_run (D : list str) (cfg : Config) (nid : Z) (p : pair)
    (flds : gmap str str) (m : bool) (w w' : W)
    (res : result (gmap str str * bool)) :
  (forall d, destination p = Some d -> d ∈ D) ->
  update_pair reading_impl removeFurigana cfg nid p (flds, m) w
    = (w', res) ->
  exists added,
    pair_run D nid w w' added
    /\ match res with
       | Ok (flds', m') =>
           (forall k, k ∉ D -> flds' !! k = flds !! k)
           /\ (m' = true <-> m = true \/ added <> [])
       | Raise _ => True
       end.
Proof.
  intros HD. unfold update_pair.
  destruct (source p) as [sf|]; [|apply untouched_outcome].
  destruct (destination p) as [df|] eqn:Hdf; [|apply untouched_outcome].
  destruct (has_field sf flds && has_field df flds
            && truthy (flds !!! sf)); [|apply untouched_outcome].
  destruct (is_field_effectively_empty (flds !!! df)
            || Py.eqb (flds !!! sf) (flds !!! df));
    [|apply untouched_outcome].
  unfold bind at 1.
  destruct (generate (flds !!! sf) (getIgnoreNumbers cfg)
              (getUseRubyTags cfg) w) as [w1 [g|e]] eqn:Eg;
    apply (generate_run D nid) in Eg.
  - apply generated_outcome; [by apply HD | exact Eg].
  - intros [= <- <-]. exists []. split; [exact Eg | done].
Qed.

Lemma update_pairs_run (cfg : Config) (nid : Z) (pairs : list pair)
    (flds : gmap str str) (m : bool) (w w' : W)
    (res : result (gmap str str * bool)) :
  update_pairs reading_impl removeFurigana cfg nid pairs (flds, m) w
    = (w', res) ->
  exists added,
    pair_run (dest_fields pairs) nid w w' added
    /\ match res with
       | Ok (flds', m') =>
           (forall k, k ∉ dest_fields pairs -> flds' !! k = flds !! k)
           /\ (m' = true <-> m = true \/ added <> [])
       | Raise _ => True
       end.
Proof.
  revert flds m w. induction pairs as [|p rest IH]; intros flds m w.
  - apply untouched_outcome.
  - cbn [update_pairs]. unfold bind at 1.
    destruct (update_pair reading_impl removeFurigana cfg nid p (flds, m) w)
      as [w1 [[flds1 m1]|e]] eqn:E1;
      (apply (update_pair_run (dest_fields (p :: rest))) in E1;
       [|intros d Hd; by apply dest_fields_cons_l]).
    + destruct E1 as (a1 & Hr1 & Hf1 & Hm1).
      intros (a2 & Hr2 & Hv2)%IH.
      exists (a1 ++ a2). split.
      * apply (pair_run_trans _ _ w w1 _ _ _ Hr1).
        eapply pair_run_weaken; [apply dest_fields_cons_r | exact Hr2].
      * destruct res as [[flds2 m2]|e]; [|done].
        destruct Hv2 as [Hf2 Hm2]. split.
        -- intros k Hk. rewrite Hf2, Hf1; [done|done|].
           intros Hin. apply Hk. by apply dest_fields_cons_r.
        -- rewrite Hm2, Hm1, app_not_nil. tauto.
    + destruct E1 as (a1 & Hr1 & _).
      intros [= <- <-]. exists a1. split; [exact Hr1 | done].
Qed.

Lemma update_rule_run (D : list str) (cfg : Config) (nid : Z)
    (note_deck : option str) (rl : rule) (flds : gmap str str) (m : bool)
    (w w' : W) (res : result (gmap str str * bool)) :
  dest_fields (fieldPairs rl) ⊆ D ->
  update_rule reading_impl removeFurigana cfg nid note_deck rl
    (flds, m) w = (w', res) ->
  exists added,
    pair_run D nid w w' added
    /\ match res with
       | Ok (flds', m') =>
           (forall k, k ∉ D -> flds' !! k = flds !! k)
           /\ (m' = true <-> m = true \/ added <> [])
       | Raise _ => True
       end.
Proof.
  intros HD. unfold update_rule.
  destruct note_deck as [deck_name|]; [|apply untouched_outcome].
  destruct (deckName rl) as [rule_deck_name|].
  2:{ intros [= <- <-]. exists []. split; [apply pair_run_refl|done]. }
  destruct (Py.eqb deck_name rule_deck_name
            || startswith (rule_deck_name ++ lit "::") deck_name);
    [|apply untouched_outcome].
  intros (added & Hr & Hv)%update_pairs_run. exists added. split.
  - eapply pair_run_weaken; [exact HD | exact Hr].
  - destruct res as [[flds' m']|e]; [|done].
    destruct Hv as [Hf Hm]. split; [|done].
    intros k Hk. apply Hf. intros Hin. by apply Hk, HD.
Qed.

Lemma update_rules_run (cfg : Config) (nid : Z) (note_deck : option str)
    (rules : list rule) (flds : gmap str str) (m : bool) (w w' : W)
    (res : result (gmap str str * bool)) :
  update_rules reading_impl removeFurigana cfg nid note_deck rules
    (flds, m) w = (w', res) ->
  exists added,
    pair_run (dest_fields (rule_pairs rules)) nid w w' added
    /\ match res with
       | Ok (flds', m') =>
           (forall k, k ∉ dest_fields (rule_pairs rules) ->
                      flds' !! k = flds !! k)
           /\ (m' = true <-> m = true \/ added <> [])
       | Raise _ => True
       end.
Proof.
  revert flds m w. induction rules as [|rl rest IH]; intros flds m w.
  - apply untouched_outcome.
  - cbn [update_rules]. unfold bind at 1.
    destruct (update_rule reading_impl removeFurigana cfg nid note_deck rl
                (flds, m) w) as [w1 [[flds1 m1]|e]] eqn:E1;
      (apply (update_rule_run (dest_fields (rule_pairs (rl :: rest))))
         in E1; [|apply rule_pairs_cons_l]).
    + destruct E1 as (a1 & Hr1 & Hf1 & Hm1).
      intros (a2 & Hr2 & Hv2)%IH.
      exists (a1 ++ a2). split.
      * apply (pair_run_trans _ _ w w1 _ _ _ Hr1).
        eapply pair_run_weaken; [apply rule_pairs_cons_r | exact Hr2].
      * destruct res as [[flds2 m2]|e]; [|done].
        destruct Hv2 as [Hf2 Hm2]. split.
        -- intros k Hk. rewrite Hf2, Hf1; [done|done|].
           intros Hin. apply Hk. by apply rule_pairs_cons_r.
        -- rewrite Hm2, Hm1, app_not_nil. tauto.
    + destruct E1 as (a1 & Hr1 & _).
      intros [= <- <-]. exists a1. split; [exact Hr1 | done].
Qed.

(** What one turn of the loop of [do_update] does. *)
Lemma update_one_run (cfg : Config) (rules : list rule) (nid : Z)
    (count : nat) (w w' : W) (res : result nat) :
  update_one reading_impl removeFurigana cfg rules nid count w
    = (w', res) ->
  exists added ws,
    note_run (dest_fields (rule_pairs rules)) w w' added ws []
    /\ match res with
       | Ok count' =>
           count' = (count + length ws)%nat
           /\ (forall a, a ∈ added -> as_note a ∈ ws)
       | Raise _ => True
       end.
Proof.
  set (D := dest_fields (rule_pairs rules)).
  unfold update_one. unfold bind at 1. unfold get_note at 1.
  destruct (notes w !! nid) as [note|] eqn:Hnote.
  2:{ intros [= <- <-]. exists [], [].
      split; [apply note_run_refl | done]. }
  unfold bind at 1.
  destruct (update_rules reading_impl removeFurigana cfg nid (deck note)
              rules (fields note, false) w) as [w1 [[flds m]|e]] eqn:E1;
    apply update_rules_run in E1.
  2:{ destruct E1 as (added & Hr & _).
      intros [= <- <-]. exists added, [].
      split; [by apply (pair_run_note_run D nid) | done]. }
  destruct E1 as (added & Hr & Hf & Hm). fold D in Hr, Hf.
  destruct m.
  - assert (added <> []) as Hne.
    { destruct Hm as [Hm _]. by destruct Hm as [?|?]. }
    unfold bind, store_note, ret. intros [= <- <-].
    exists added, [nid]. split.
    + destruct Hr. destruct added as [|a added']; [done|].
      constructor; simpl; try done.
      * rewrite pr_notes0.
        apply notes_same_but_store with note; [done | by split].
      * eapply Forall_impl; [eassumption|]. by intros b [_ ?].
      * by rewrite pr_writes0.
      * intros nid' ->%list_elem_of_singleton. exists a. split; [left|].
        by inversion pr_added0 as [|? ? [? _] _].
      * by rewrite app_nil_r.
    + split; [simpl; lia|].
      intros a Ha. destruct Hr as [_ _ _ _ _ _ _ _ Hall].
      rewrite Forall_forall in Hall. destruct (Hall a Ha) as [-> _]. left.
  - assert (added = []) as ->.
    { destruct added; [done|]. destruct Hm as [_ Hm].
      by discriminate Hm; right. }
    intros [= <- <-]. exists [], [].
    split; [by apply (pair_run_note_run D nid)|].
    split; [simpl; lia | by intros a ?%elem_of_nil].
Qed.

Lemma update_loop_run (cfg : Config) (rules : list rule) (nids : list Z)
    (count : nat) (w w' : W) (res : result nat) :
  update_loop reading_impl removeFurigana cfg rules nids count w
    = (w', res) ->
  exists added ws,
    note_run (dest_fields (rule_pairs rules)) w w' added ws []
    /\ match res with
       | Ok count' =>
           count' = (count + length ws)%nat
           /\ (forall a, a ∈ added -> as_note a ∈ ws)
       | Raise _ => True
       end.
Proof.
  revert count w. induction nids as [|nid rest IH]; intros count w.
  - intros [= <- <-]. exists [], [].
    split; [apply note_run_refl|].
    split; [simpl; lia | by intros a ?%elem_of_nil].
  - cbn [update_loop]. unfold bind at 1.
    destruct (update_one reading_impl removeFurigana cfg rules nid count w)
      as [w1 [count1|e]] eqn:E1;
      apply update_one_run in E1; destruct E1 as (a1 & ws1 & Hr1 & Hv1).
    + destruct Hv1 as [Hc1 Hw1].
      intros (a2 & ws2 & Hr2 & Hv2)%IH.
      exists (a1 ++ a2), (ws1 ++ ws2). split.
      * apply (note_run_trans _ _ _ _ _ _ _ _ _ _ Hr1 Hr2).
      * destruct res as [count'|e]; [|done].
        destruct Hv2 as [Hc2 Hw2].
        split; [rewrite length_app; lia|].
        intros a [Ha|Ha]%elem_of_app; apply elem_of_app; auto.
    + intros [= <- <-]. exists a1, ws1. done.
Qed.

(** What a whole run of [bulkGenerate] does. *)
Lemma bulkGenerate_run (noteIds : list Z) (pairs : list pair)
    (hp n r : bool) (w w' : W) (res : result nat) :
  bulkGenerate reading_impl removeFurigana noteIds pairs hp n r w
    = (w', res) ->
  exists added ws rs,
    assigns w' = assigns w ++ added
    /\ Forall (changes_dest (dest_fields pairs)) added
    /\ notes_same_but (dest_fields pairs) (notes w) (notes w')
    /\ writes w' = writes w ++ ws
    /\ (forall nid : Z, nid ∈ ws -> exists a, a ∈ added /\ as_note a = nid)
    /\ reports w' = reports w ++ rs
    /\ spaced 0 rs
    /\ Forall (fun rp => rp_total rp = length noteIds) rs
    /\ sublist (map rp_done rs) (seq 1 (length noteIds))
    /\ Forall (successive_readings (clock w)) rs
    /\ match res with
       | Ok k => k = length ws /\ forall a, a ∈ added -> as_note a ∈ ws
       | Raise _ => True
       end.
Proof.
  unfold bulkGenerate.
  unfold bind at 1. unfold add_custom_undo_entry at 1.
  unfold bind at 1.
  match goal with
  | |- context [bulk_loop _ _ _ _ _ _ _ _ _ _ ?w0] => set (w0' := w0)
  end.
  destruct (bulk_loop reading_impl removeFurigana pairs hp n r
              (length noteIds) 0 noteIds (0%Q, 0%nat) w0')
    as [w1 res1] eqn:E.
  apply bulk_loop_run in E.
  destruct E as (added & ws & rs & Hr & Hsp & Ht & Hd & _ & Hsu & Hv).
  destruct Hr. intros Hres.
  assert (w' = w1) as ->.
  { destruct res1 as [[? ?]|?]; by injection Hres. }
  exists added, ws, rs. repeat (split; [done|]).
  destruct res1 as [[last1 count1]|e]; injection Hres as <-; [|done].
  destruct Hv as (Hc & Hw & _). split; [simpl; lia | done].
Qed.

(** *** Counts, progress calls and written fields *)



(** C9, as the code has it: in a run of [bulkGenerate] and in a run of
    the update step of the scan, every assignment goes to a destination
    field of a configured pair and changes its content; in the stored
    collection every field that is not such a destination field keeps
    its content (a source field too, unless it is also configured as a
    destination); and a note is written back only after an assignment
    to it. *)
Theorem writes_touch_destinations_only :
  (forall (noteIds : list Z) (pairs : list pair) (hp n r : bool) (w : W),
     let w' := fst (bulkGenerate reading_impl removeFurigana noteIds pairs
                      hp n r w) in
     exists added ws,
       assigns w' = assigns w ++ added
       /\ Forall (changes_dest (dest_fields pairs)) added
       /\ notes_same_but (dest_fields pairs) (notes w) (notes w')
       /\ writes w' = writes w ++ ws
       /\ forall nid : Z,
            nid ∈ ws -> exists a, a ∈ added /\ as_note a = nid)
  /\ (forall (cfg : Config) (rules : list rule) (nids : list Z) (w : W),
        let w' := fst (do_update reading_impl removeFurigana cfg rules
                         nids w) in
        exists added ws,
          assigns w' = assigns w ++ added
          /\ Forall (changes_dest (dest_fields (rule_pairs rules))) added
          /\ notes_same_but (dest_fields (rule_pairs rules))
               (notes w) (notes w')
          /\ writes w' = writes w ++ ws
          /\ forall nid : Z,
               nid ∈ ws -> exists a, a ∈ added /\ as_note a = nid).
Proof.
  split.
  - intros noteIds pairs hp n r w.
    destruct (bulkGenerate reading_impl removeFurigana noteIds pairs hp n r
                w) as [w' res] eqn:E.
    apply bulkGenerate_run in E.
    destruct E as (added & ws & rs & Ha & Hc & Hn & Hw & Hwr & _).
    by exists added, ws.
  - intros cfg rules nids w. unfold do_update.
    destruct (update_loop reading_impl removeFurigana cfg rules nids 0 w)
      as [w1 res] eqn:E.
    apply update_loop_run in E.
    destruct E as (added & ws & Hr & _).
    exists added, ws. by destruct Hr.
Qed.

End BatchFacts.

(** ** The selection step of the scan *)

(** The test of the scan on one pair, spelled out. *)
Lemma pair_needs_iff (note : gmap str str) (p : pair) :
  pair_needs note p = true <->
  exists src_field dest_field,
    source p = Some src_field /\ destination p = Some dest_field
    /\ is_Some (note !! src_field) /\ is_Some (note !! dest_field)
    /\ note !!! src_field <> []
    /\ needsGeneration (note !!! src_field) (note !!! dest_field) = true.
Proof.
  unfold pair_needs, has_field. split.
  - destruct (source p) as [sf|], (destination p) as [df|]; try done.
    rewrite !andb_true_iff, !bool_decide_eq_true, truthy_true.
    intros [[[? ?] ?] ?]. exists sf, df. done.
  - intros (sf & df & -> & -> & ? & ? & ? & ?).
    rewrite !andb_true_iff, !bool_decide_eq_true, truthy_true. done.
Qed.

(** The loop with [break] adds the note exactly when some pair passes
    the test. *)
Lemma select_pairs_spec (nid : Z) (note : gmap str str) (pairs : list pair)
    (acc : gset Z) :
  select_pairs nid note pairs acc
  = if existsb (pair_needs note) pairs then {[nid]} ∪ acc else acc.
Proof.
  induction pairs as [|p rest IH]; simpl; [done|].
  unfold pair_needs at 1, needsGeneration.
  destruct (source p) as [sf|], (destination p) as [df|]; simpl; try done.
  destruct (has_field sf note && has_field df note && truthy (note !!! sf));
    simpl; [|done].
  by destruct (is_field_effectively_empty (note !!! df)
               || Py.eqb (note !!! sf) (note !!! df)).
Qed.

Section ScanFacts.

Context {MecabState : Type}.
Variable search : str -> Z -> Note -> bool.

Local Abbreviation W := (World MecabState).

(** [find_notes] reads the collection and returns ids it holds. *)
Lemma find_notes_spec (query : str) (w : W) :
  exists nids,
    find_notes search query w = (w, Ok nids)
    /\ forall nid : Z,
         nid ∈ nids <->
         exists note, notes w !! nid = Some note
                      /\ search query nid note = true.
Proof.
  unfold find_notes. eexists. split; [reflexivity|].
  intros nid. rewrite list_elem_of_In, in_map_iff. split.
  - intros ([j note] & <- & Hin). apply list_elem_of_In in Hin.
    apply list_elem_of_filter in Hin. destruct Hin as [Hs Hin].
    apply elem_of_map_to_list in Hin. simpl in *.
    exists note. split; [done | by apply Is_true_true].
  - intros (note & Hnote & Hs). exists (nid, note). split; [done|].
    apply list_elem_of_In, list_elem_of_filter. split.
    + simpl. by apply Is_true_true.
    + by apply elem_of_map_to_list.
Qed.

Lemma select_notes_spec (r : rule) (nids : list Z) (acc : gset Z)
    (w : W) :
  (forall nid, nid ∈ nids -> is_Some (notes w !! nid)) ->
  exists ids,
    select_notes r nids acc w = (w, Ok ids)
    /\ forall j : Z,
         j ∈ ids <->
         j ∈ acc
         \/ (j ∈ nids
             /\ exists note,
                  notes w !! j = Some note
                  /\ existsb (pair_needs (fields note)) (fieldPairs r)
                     = true).
Proof.
  revert acc. induction nids as [|nid rest IH]; intros acc Hex.
  - exists acc. split; [done|]. intros j. split; [auto|].
    intros [?|[?%elem_of_nil _]]; done.
  - cbn [select_notes]. unfold bind at 1. unfold get_note at 1.
    destruct (Hex nid) as [note Hnote]; [left|]. rewrite Hnote.
    destruct (IH (select_pairs nid (fields note) (fieldPairs r) acc))
      as (ids & Heq & Hids).
    { intros j Hj. apply Hex. by right. }
    exists ids. split; [exact Heq|].
    intros j. rewrite Hids, select_pairs_spec. split.
    + intros [Hj|(Hj & Hn)].
      * destruct (existsb (pair_needs (fields note)) (fieldPairs r))
          eqn:Hany; [|by left].
        apply elem_of_union in Hj. destruct Hj as [->%elem_of_singleton|Hj];
          [|by left].
        right. split; [left|]. eauto.
      * right. split; [by right | done].
    + intros [Hj|(Hj & note' & Hn' & Hany)]; [left|].
      * destruct (existsb _ _); [apply elem_of_union; by right | done].
      * apply elem_of_cons in Hj. destruct Hj as [->|Hj].
        -- left. rewrite Hnote in Hn'. injection Hn' as <-.
           rewrite Hany. apply elem_of_union. left.
           by apply elem_of_singleton.
        -- right. split; [done|]. eauto.
Qed.

Lemma select_rules_spec (rules : list rule) (acc : gset Z) (w : W) :
  exists ids,
    select_rules search rules acc w = (w, Ok ids)
    /\ forall j : Z,
         j ∈ ids <->
         j ∈ acc
         \/ exists r name note,
              r ∈ rules /\ deckName r = Some name /\ name <> []
              /\ notes w !! j = Some note
              /\ search (deck_query name) j note = true
              /\ existsb (pair_needs (fields note)) (fieldPairs r) = true.
Proof.
  revert acc. induction rules as [|r rest IH]; intros acc.
  - exists acc. split; [done|]. intros j. split; [auto|].
    intros [?|(r & ? & ? & ?%elem_of_nil & _)]; done.
  - cbn [select_rules].
    assert (forall ids : gset Z,
              (forall j, j ∈ ids <->
                 j ∈ acc
                 \/ exists r0 name note,
                      r0 ∈ rest /\ deckName r0 = Some name /\ name <> []
                      /\ notes w !! j = Some note
                      /\ search (deck_query name) j note = true
                      /\ existsb (pair_needs (fields note))
                           (fieldPairs r0) = true) ->
              (deckName r = None \/ deckName r = Some []) ->
              forall j, j ∈ ids <->
                 j ∈ acc
                 \/ exists r0 name note,
                      r0 ∈ r :: rest /\ deckName r0 = Some name
                      /\ name <> []
                      /\ notes w !! j = Some note
                      /\ search (deck_query name) j note = true
                      /\ existsb (pair_needs (fields note))
                           (fieldPairs r0) = true) as Hskip.
    { intros ids Hids Hr j. rewrite Hids. split.
      - intros [?|(r0 & name & note & Hin & Hrest)]; [by left|].
        right. exists r0, name, note. split; [by right | done].
      - intros [?|(r0 & name & note & Hin & Hd & Hne & Hrest)]; [by left|].
        apply elem_of_cons in Hin. destruct Hin as [->|Hin].
        + destruct Hr as [Hr|Hr]; rewrite Hr in Hd; [done|].
          by injection Hd as <-.
        + right. exists r0, name, note. done. }
    destruct (deckName r) as [name|] eqn:Hname.
    2:{ destruct (IH acc) as (ids & Heq & Hids). exists ids.
        split; [done|]. apply Hskip; auto. }
    destruct name as [|c name'].
    { simpl. destruct (IH acc) as (ids & Heq & Hids). exists ids.
      split; [done|]. apply Hskip; auto. }
    change (negb (truthy (c :: name'))) with false. cbv iota.
    unfold bind at 1.
    destruct (find_notes_spec (deck_query (c :: name')) w)
      as (nids & -> & Hnids).
    unfold bind at 1.
    destruct (select_notes_spec r nids acc w) as (ids1 & -> & Hids1).
    { intros nid (note & Hn & _)%Hnids. eauto. }
    destruct (IH ids1) as (ids & Heq & Hids). exists ids.
    split; [done|]. intros j. rewrite Hids, Hids1. split.
    + intros [[?|(Hj & note & Hn & Hany)]
             |(r0 & name & note & Hin & Hrest)].
      * by left.
      * right. exists r, (c :: name'), note.
        apply Hnids in Hj. destruct Hj as (note' & Hn' & Hs).
        rewrite Hn in Hn'. injection Hn' as <-.
        split; [left|]. done.
      * right. exists r0, name, note. split; [by right | done].
    + intros [?|(r0 & name & note & Hin & Hd & Hne & Hn & Hs & Hany)];
        [by left; left|].
      apply elem_of_cons in Hin. destruct Hin as [->|Hin].
      * rewrite Hname in Hd. injection Hd as <-.
        left. right. split; [apply Hnids; eauto | eauto].
      * right. exists r0, name, note. done.
Qed.

(** C7, as the code has it: the selection never fails, and a note is
    selected exactly when, for some pair of some rule whose deck search
    finds the note, both fields are on the note, the source is not
    empty, and the destination is effectively empty or equal to the
    source. *)
Theorem find_notes_to_process_selects (rules : list rule) (w : W) :
  exists nids,
    find_notes_to_process search rules w = (w, Ok nids)
    /\ forall nid : Z,
         nid ∈ nids <->
         exists r name note p src_field dest_field,
           r ∈ rules /\ deckName r = Some name /\ name <> []
           /\ notes w !! nid = Some note
           /\ search (deck_query name) nid note = true
           /\ p ∈ fieldPairs r
           /\ source p = Some src_field
           /\ destination p = Some dest_field
           /\ is_Some (fields note !! src_field)
           /\ is_Some (fields note !! dest_field)
           /\ fields note !!! src_field <> []
           /\ needsGeneration (fields note !!! src_field)
                (fields note !!! dest_field) = true.
Proof.
  unfold find_notes_to_process. unfold bind at 1.
  destruct (select_rules_spec rules ∅ w) as (ids & -> & Hids).
  exists (elements ids). split; [done|].
  intros nid. rewrite elem_of_elements, Hids. split.
  - intros [?%elem_of_empty|(r & name & note & Hr & Hd & Hne & Hn & Hs
                             & Hany)]; [done|].
    apply existsb_exists in Hany. destruct Hany as (p & Hp & Hneeds).
    apply pair_needs_iff in Hneeds.
    destruct Hneeds as (sf & df & ? & ? & ? & ? & ? & ?).
    exists r, name, note, p, sf, df.
    repeat (split; [done|]). split; [by apply list_elem_of_In|]. done.
  - intros (r & name & note & p & sf & df & Hr & Hd & Hne & Hn & Hs & Hp
            & Hrest).
    right. exists r, name, note. repeat (split; [done|]).
    apply existsb_exists. exists p. split; [by apply list_elem_of_In|].
    apply pair_needs_iff. exists sf, df. done.
Qed.

End ScanFacts.

(** ** The codec *)

Module CodecFacts.
Import Codec.












End CodecFacts.

(** * The statements on sample data *)

(** With an analyzer that is gone, blank input still gives the empty
    string, and the world is untouched. *)
Lemma generateFurigana_blank_witness :
  (forallb is_space (lit "") = true
   /\ generateFurigana Demo.reading_impl Codec.removeFurigana (lit "")
        true false (Demo.world 0 ∅) = (Demo.world 0 ∅, Ok []))
  /\ (forallb is_space (lit "   ") = true
      /\ generateFurigana Demo.reading_impl Codec.removeFurigana (lit "   ")
           false true (Demo.world 0 ∅) = (Demo.world 0 ∅, Ok [])).
Proof.
  split; (split; [reflexivity|]).
  - apply (generateFurigana_blank Demo.reading_impl Codec.removeFurigana
             (lit "") true false (Demo.world 0 ∅)).
    reflexivity.
  - apply (generateFurigana_blank Demo.reading_impl Codec.removeFurigana
             (lit "   ") false true (Demo.world 0 ∅)).
    reflexivity.
Defined.

Lemma generateFurigana_strips_then_reads_witness :
  forallb is_space Demo.neko_annotated = false
  /\ generateFurigana Demo.reading_impl Codec.removeFurigana
       Demo.neko_annotated true false (Demo.world 1 ∅)
     = mecab_reading Demo.reading_impl
         (Codec.removeFurigana Demo.neko_annotated) true false
         (Demo.world 1 ∅).
Proof.
  split; [reflexivity|].
  apply (generateFurigana_strips_then_reads Demo.reading_impl
           Codec.removeFurigana Demo.neko_annotated true false
           (Demo.world 1 ∅)).
  reflexivity.
Defined.

(** The stripped text is what reaches the analyzer. *)
Example generateFurigana_strips_example :
  snd (generateFurigana Demo.reading_impl Codec.removeFurigana
         Demo.neko_annotated true false (Demo.world 1 ∅))
  = Ok Demo.neko_annotated
  /\ readings (fst (generateFurigana Demo.reading_impl Codec.removeFurigana
                      Demo.neko_annotated true false (Demo.world 1 ∅)))
     = [([Demo.neko], true, false)].
Proof. by vm_compute. Qed.

Lemma generateFurigana_propagates_witness :
  forallb is_space [Demo.neko] = false
  /\ snd (mecab_reading Demo.reading_impl (Codec.removeFurigana [Demo.neko])
            true false (Demo.world 0 ∅)) = Raise TokenizerUnavailable
  /\ snd (generateFurigana Demo.reading_impl Codec.removeFurigana
            [Demo.neko] true false (Demo.world 0 ∅))
     = Raise TokenizerUnavailable.
Proof.
  split; [reflexivity|]. split; [reflexivity|].
  apply (generateFurigana_propagates Demo.reading_impl Codec.removeFurigana
           [Demo.neko] true false (Demo.world 0 ∅) TokenizerUnavailable);
    reflexivity.
Defined.

(** On text that already carries furigana the handler, which does not
    strip, annotates the base a second time; the engine does not. *)
Lemma api_furigana_differs :
  snd (api_furigana Demo.reading_impl true
         (mkRequest (Some Demo.neko_annotated) (Some false))
         (Demo.world 1 ∅))
  = Ok (Demo.neko_annotated ++ lit "[" ++ Demo.yomi ++ lit "]")
  /\ snd (generateFurigana Demo.reading_impl Codec.removeFurigana
            Demo.neko_annotated true false (Demo.world 1 ∅))
     = Ok Demo.neko_annotated
  /\ snd (api_furigana Demo.reading_impl true
            (mkRequest (Some Demo.neko_annotated) (Some false))
            (Demo.world 1 ∅))
     <> snd (generateFurigana Demo.reading_impl Codec.removeFurigana
               Demo.neko_annotated true false (Demo.world 1 ∅)).
Proof.
  split; [by vm_compute|]. split; [by vm_compute|].
  vm_compute. discriminate.
Qed.

(** The handler passes blank text and numerals to the analyzer as they
    come: whitespace comes back as it is where the engine gives the
    empty string, and a numeral is annotated or not by the default of
    [ignoreNumbers], whatever the engine is asked. *)
Example api_furigana_blank_and_numerals :
  snd (api_furigana Demo.reading_impl true
         (mkRequest (Some (lit "   ")) (Some false)) (Demo.world 1 ∅))
  = Ok (lit "   ")
  /\ snd (generateFurigana Demo.reading_impl Codec.removeFurigana
            (lit "   ") true false (Demo.world 1 ∅)) = Ok []
  /\ snd (api_furigana Demo.reading_impl true
            (mkRequest (Some (lit "2")) (Some false)) (Demo.world 1 ∅))
     = Ok (lit "2")
  /\ snd (generateFurigana Demo.reading_impl Codec.removeFurigana
            (lit "2") false false (Demo.world 1 ∅))
     = Ok (lit "2[" ++ Demo.yomi_two ++ lit "]").
Proof. by vm_compute. Qed.

Lemma api_furigana_agrees_witness :
  forallb is_space [Demo.neko] = false
  /\ Codec.removeFurigana [Demo.neko] = [Demo.neko]
  /\ api_furigana Demo.reading_impl true
       (mkRequest (Some [Demo.neko]) (Some true)) (Demo.world 1 ∅)
     = generateFurigana Demo.reading_impl Codec.removeFurigana [Demo.neko]
         true true (Demo.world 1 ∅).
Proof.
  split; [reflexivity|]. split; [reflexivity|].
  apply (api_furigana_agrees Demo.reading_impl Codec.removeFurigana true
           (mkRequest (Some [Demo.neko]) (Some true)) (Demo.world 1 ∅));
    reflexivity.
Defined.

(** Examples 3 and 4 of the specification. *)
Example removeFurigana_examples :
  Codec.removeFurigana Demo.nihongo = Demo.nihongo_plain
  /\ Codec.removeFurigana Demo.neko_ruby = [Demo.neko; 12364; 22909; 12365].
Proof. by vm_compute. Qed.




(** A batch of three notes: the first and the third are modified, the
    second is not; the progress callback is called after the first and
    after the third, the second coming too soon after the first call. *)
Example bulkGenerate_example :
  let run := bulkGenerate Demo.reading_impl Codec.removeFurigana
               [1%Z; 2%Z; 3%Z] [Demo.expr_to_reading; Demo.nameless]
               true true false (Demo.world 5 Demo.three_notes) in
  snd run = Ok 2%nat
  /\ writes (fst run) = [1%Z; 3%Z]
  /\ map (fun rp => (rp_done rp, rp_total rp)) (reports (fst run))
     = [(1, 3); (3, 3)]%nat
  /\ Demo.stored (fst run) 1 Demo.reading = Some Demo.neko_annotated
  /\ Demo.stored (fst run) 1 Demo.expression = Some [Demo.neko].
Proof. by vm_compute. Qed.



(** When the analyzer is gone the batch stops with its error, and
    nothing is written. *)
Example bulkGenerate_failure_example :
  let run := bulkGenerate Demo.reading_impl Codec.removeFurigana
               [1%Z; 2%Z; 3%Z] [Demo.expr_to_reading] true true false
               (Demo.world 0 Demo.three_notes) in
  snd run = Raise TokenizerUnavailable
  /\ writes (fst run) = []
  /\ notes (fst run) = Demo.three_notes.
Proof. by vm_compute. Qed.

(** A note is selected through one pair although the test fails for
    another pair with a non-empty source: the destination [Meaning] is
    neither effectively empty nor equal to the source. *)
Lemma selection_not_per_pair :
  let note := Demo.note_of [Demo.neko] [] in
  snd (find_notes_to_process Demo.search [Demo.two_pair_rule]
         (Demo.world 1 Demo.one_note)) = Ok [1%Z]
  /\ Demo.expr_to_meaning ∈ fieldPairs Demo.two_pair_rule
  /\ fields note !!! Demo.expression <> []
  /\ ~ (is_field_effectively_empty (fields note !!! Demo.meaning) = true
        \/ fields note !!! Demo.meaning = fields note !!! Demo.expression).
Proof.
  split; [by vm_compute|]. split; [left|]. split; [by vm_compute|].
  intros [H|H]; vm_compute in H; discriminate.
Qed.

(** The same sample through the characterisation of the selection: the
    pair from [Expression] to the empty [Reading] selects the note. *)
Lemma find_notes_to_process_selects_witness :
  exists nids,
    find_notes_to_process Demo.search [Demo.two_pair_rule]
      (Demo.world 1 Demo.one_note) = (Demo.world 1 Demo.one_note, Ok nids)
    /\ 1%Z ∈ nids.
Proof.
  destruct (find_notes_to_process_selects Demo.search [Demo.two_pair_rule]
              (Demo.world 1 Demo.one_note)) as (nids & Heq & Hin).
  exists nids. split; [exact Heq|]. apply Hin.
  exists Demo.two_pair_rule, Demo.japanese, (Demo.note_of [Demo.neko] []),
    Demo.expr_to_reading, Demo.expression, Demo.reading.
  split; [left|]. split; [reflexivity|]. split; [discriminate|].
  split; [reflexivity|]. split; [reflexivity|]. split; [right; left|].
  split; [reflexivity|]. split; [reflexivity|].
  split; [eexists; reflexivity|]. split; [eexists; reflexivity|].
  split; [discriminate | reflexivity].
Defined.

(** With a pair whose destination is its own source, the update step
    of the scan and [bulkGenerate] both change a source field. *)
Lemma source_field_changed :
  let w := Demo.world 2 Demo.one_note in
  let scanned := fst (do_update Demo.reading_impl Codec.removeFurigana
                        Demo.cfg [Demo.in_place_rule] [1%Z] w) in
  let batched := fst (bulkGenerate Demo.reading_impl Codec.removeFurigana
                        [1%Z] [Demo.expr_to_expr] false true false w) in
  source Demo.expr_to_expr = Some Demo.expression
  /\ Demo.stored w 1 Demo.expression = Some [Demo.neko]
  /\ Demo.stored scanned 1 Demo.expression = Some Demo.neko_annotated
  /\ Demo.stored batched 1 Demo.expression = Some Demo.neko_annotated
  /\ Demo.stored scanned 1 Demo.expression <> Demo.stored w 1 Demo.expression
  /\ Demo.stored batched 1 Demo.expression <> Demo.stored w 1 Demo.expression.
Proof. repeat split; by vm_compute. Qed.

(** * Further properties of the code *)

(** ** [config.py] *)

Module ConfigFacts.
Import ConfigPy.

(** All the shapes of a configuration file: each key there or not. *)
Ltac data_cases d :=
  destruct d as [[[[?|] [?|] [?|] ?]|] [?|] [?|] [?|] [?|]].

(** Filling the defaults a second time changes nothing. *)
Lemma fill_defaults_idempotent (d : ConfigData) :
  fill_defaults (fill_defaults d) = fill_defaults d.
Proof.
  by data_cases d.
Qed.

(** A setter that returns has put the data of the instance under the
    instance's package. *)
Lemma call_setter_stored (c : setter_call) (self self' : ConfigObject)
    (mgr mgr' : AddonManager) :
  call_setter c self mgr = (Done self', mgr') ->
  addon_package self' = addon_package self
  /\ configs mgr' !! addon_package self = Some (data self').
Proof.
  destruct c as [b|b|name key|a|b]; simpl;
    unfold setUseRubyTags, setIgnoreNumbers, setKeyboardShortcut,
      setAutoGenerateConfig, setLastBulkConfig, saveMe; simpl;
    try (intros [= <- <-]; split; [done | apply lookup_insert_eq]).
  unfold setKeyboardShortcut_body.
  destruct (d_keyboardShortcut (data self)) as [k|]; simpl; [|done].
  intros [= <- <-]. split; [done | apply lookup_insert_eq].
Qed.

(** X1: [Config(package)] fails only without a main window
    ([AbortAddonImport]) or without a configuration for the package; when
    it succeeds every getter answers, with the value of the user's file
    for each key the file has and with the default otherwise ([False],
    [True], 30 s, no rules, the two default shortcuts), and
    [hideNotifications] is left as the file has it. *)
Theorem Config_init_defaults (mw : option AddonManager) (package : str) :
  match Config_init mw package with
  | Failed e =>
      (mw = None /\ e = AbortAddonImport)
      \/ (exists mgr, mw = Some mgr /\ configs mgr !! package = None
                      /\ e = AttributeError)
  | Done self =>
      exists mgr d,
        mw = Some mgr /\ configs mgr !! package = Some d
        /\ addon_package self = package
        /\ getUseRubyTags self = Done (default false (d_useRubyTags d))
        /\ getIgnoreNumbers self = Done (default true (d_ignoreNumbers d))
        /\ getLastBulkConfig self
           = default default_lastBulkConfig (d_lastBulkConfig d)
        /\ (forall name,
              getKeyboardShortcut self name
              = match default default_keyboardShortcut
                        (d_keyboardShortcut d) !! name with
                | Some key => Done key
                | None => Failed KeyError
                end)
        /\ (let file := default (mkAutoGenerateConfig None None None None)
                          (d_autoGenerateConfig d) in
            let a := getAutoGenerateConfig self in
            ag_enabled a = Some (default false (ag_enabled file))
            /\ ag_scanIntervalSeconds a
               = Some (default 30%Z (ag_scanIntervalSeconds file))
            /\ ag_rules a = Some (default [] (ag_rules file))
            /\ ag_hideNotifications a = ag_hideNotifications file)
  end.
Proof.
  unfold Config_init. destruct mw as [mgr|]; [|by left].
  destruct (configs mgr !! package) as [d|] eqn:Hd; [|right; eauto].
  exists mgr, d. split; [done|]. split; [done|]. split; [done|].
  unfold getUseRubyTags, getIgnoreNumbers, getLastBulkConfig,
    getKeyboardShortcut, getAutoGenerateConfig.
  data_cases d; simpl; by repeat split.
Qed.

(** X2: a setter that returns has written the whole data of the
    instance, as the setter left it, to the file of the instance's own
    package, in one call of [writeConfig], and the other packages keep
    their configuration; a setter that raises has written nothing, and
    only [setKeyboardShortcut] on data without [keyboardShortcut] does
    so. *)
Theorem setter_persists (c : setter_call) (self : ConfigObject)
    (mgr : AddonManager) :
  match call_setter c self mgr with
  | (Done self', mgr') =>
      addon_package self' = addon_package self
      /\ configs mgr' !! addon_package self = Some (data self')
      /\ config_writes mgr'
         = config_writes mgr ++ [(addon_package self, data self')]
      /\ forall other, other <> addon_package self ->
                       configs mgr' !! other = configs mgr !! other
  | (Failed e, mgr') =>
      mgr' = mgr /\ e = KeyError
      /\ d_keyboardShortcut (data self) = None
      /\ exists name key, c = SetKeyboardShortcut name key
  end.
Proof.
  destruct c as [b|b|name key|a|b]; simpl;
    unfold setUseRubyTags, setIgnoreNumbers, setKeyboardShortcut,
      setAutoGenerateConfig, setLastBulkConfig, saveMe; simpl;
    try (split; [done|]; split; [apply lookup_insert_eq|];
         split; [done|]; intros other Hne; by apply lookup_insert_ne).
  unfold setKeyboardShortcut_body.
  destruct (d_keyboardShortcut (data self)) as [k|] eqn:Hk; simpl.
  - split; [done|]. split; [apply lookup_insert_eq|].
    split; [done|]. intros other Hne. by apply lookup_insert_ne.
  - repeat split; eauto.
Qed.

(** X3: each setter is read back by its getter, and changes the answer
    of no other getter. *)
Theorem setter_round_trip (c : setter_call) (self self' : ConfigObject)
    (mgr mgr' : AddonManager) :
  call_setter c self mgr = (Done self', mgr') ->
  match c with
  | SetUseRubyTags b =>
      getUseRubyTags self' = Done b
      /\ getIgnoreNumbers self' = getIgnoreNumbers self
      /\ (forall name, getKeyboardShortcut self' name
                       = getKeyboardShortcut self name)
      /\ getAutoGenerateConfig self' = getAutoGenerateConfig self
      /\ getLastBulkConfig self' = getLastBulkConfig self
  | SetIgnoreNumbers b =>
      getIgnoreNumbers self' = Done b
      /\ getUseRubyTags self' = getUseRubyTags self
      /\ (forall name, getKeyboardShortcut self' name
                       = getKeyboardShortcut self name)
      /\ getAutoGenerateConfig self' = getAutoGenerateConfig self
      /\ getLastBulkConfig self' = getLastBulkConfig self
  | SetKeyboardShortcut name key =>
      getKeyboardShortcut self' name = Done key
      /\ (forall other, other <> name ->
                        getKeyboardShortcut self' other
                        = getKeyboardShortcut self other)
      /\ getUseRubyTags self' = getUseRubyTags self
      /\ getIgnoreNumbers self' = getIgnoreNumbers self
      /\ getAutoGenerateConfig self' = getAutoGenerateConfig self
      /\ getLastBulkConfig self' = getLastBulkConfig self
  | SetAutoGenerateConfig a =>
      getAutoGenerateConfig self' = a
      /\ getUseRubyTags self' = getUseRubyTags self
      /\ getIgnoreNumbers self' = getIgnoreNumbers self
      /\ (forall name, getKeyboardShortcut self' name
                       = getKeyboardShortcut self name)
      /\ getLastBulkConfig self' = getLastBulkConfig self
  | SetLastBulkConfig b =>
      getLastBulkConfig self' = b
      /\ getUseRubyTags self' = getUseRubyTags self
      /\ getIgnoreNumbers self' = getIgnoreNumbers self
      /\ (forall name, getKeyboardShortcut self' name
                       = getKeyboardShortcut self name)
      /\ getAutoGenerateConfig self' = getAutoGenerateConfig self
  end.
Proof.
  destruct c as [b|b|name key|a|b]; simpl;
    unfold setUseRubyTags, setIgnoreNumbers, setKeyboardShortcut,
      setAutoGenerateConfig, setLastBulkConfig, saveMe; simpl;
    try (intros [= <- _]; by repeat split).
  unfold setKeyboardShortcut_body.
  destruct (d_keyboardShortcut (data self)) as [k|] eqn:Hk; simpl; [|done].
  intros [= <- _].
  unfold getKeyboardShortcut, getUseRubyTags, getIgnoreNumbers,
    getAutoGenerateConfig, getLastBulkConfig. simpl. rewrite Hk.
  split; [by rewrite lookup_insert_eq|].
  split; [|done]. intros other Hne. by rewrite lookup_insert_ne.
Qed.

(** X4: after a setter has returned, constructing [Config] again for the
    package reads back the data in memory with its defaults filled; for
    an instance that came from the constructor these are the data in
    memory themselves, unless [setAutoGenerateConfig] was given a
    dictionary that lacks [enabled], [scanIntervalSeconds] or [rules]. *)
Theorem setter_then_reload (c : setter_call) (mw : option AddonManager)
    (package : str) (self self' : ConfigObject) (mgr mgr' : AddonManager) :
  Config_init mw package = Done self ->
  call_setter c self mgr = (Done self', mgr') ->
  Config_init (Some mgr') package
  = Done (mkConfigObject package (fill_defaults (data self')))
  /\ (match c with
      | SetAutoGenerateConfig a =>
          is_Some (ag_enabled a) /\ is_Some (ag_scanIntervalSeconds a)
          /\ is_Some (ag_rules a)
      | _ => True
      end ->
      Config_init (Some mgr') package = Done self').
Proof.
  unfold Config_init. destruct mw as [mgr0|]; [|done].
  destruct (configs mgr0 !! package) as [d|]; [|done].
  intros [= <-]. simpl addon_package. intros Hset.
  destruct (call_setter_stored _ _ _ _ _ Hset) as (Hpkg & Hlook).
  simpl in Hpkg, Hlook. rewrite Hlook. split; [done|].
  intros Hfull. f_equal. destruct self' as [pkg' d']. simpl in *. subst pkg'.
  f_equal.
  destruct c as [b|b|name key|a|b]; simpl in Hset;
    unfold setUseRubyTags, setIgnoreNumbers, setKeyboardShortcut,
      setAutoGenerateConfig, setLastBulkConfig, saveMe in Hset;
    simpl in Hset.
  - injection Hset as <- _. by data_cases d.
  - injection Hset as <- _. by data_cases d.
  - unfold setKeyboardShortcut_body in Hset. simpl in Hset.
    destruct (setdefault default_keyboardShortcut (d_keyboardShortcut d))
      as [k0|] eqn:Hk; [|by destruct (d_keyboardShortcut d)].
    injection Hset as <- _. by data_cases d.
  - injection Hset as <- _.
    destruct Hfull as ([e He] & [i Hi] & [r Hr]).
    destruct a as [ae ai ar ah]. simpl in *. subst.
    by data_cases d.
  - injection Hset as <- _. by data_cases d.
Qed.

End ConfigFacts.

(** ** The timer of the background scan *)

(** X5: after [setup_auto_scanner] the timer exists and runs exactly
    when the scan is enabled, then with the configured interval in
    milliseconds (120 s when the configuration has none); a message is
    shown only when the call started, restarted or stopped the timer,
    and never when notifications are hidden. *)
Theorem setup_auto_scanner_state (scan_config : AutoGenerateConfig)
    (auto_scan_timer : option QTimer) :
  let before := default new_timer auto_scan_timer in
  let enabled := default false (ag_enabled scan_config) in
  let seconds := default 120%Z (ag_scanIntervalSeconds scan_config) in
  exists after : QTimer,
    fst (setup_auto_scanner scan_config auto_scan_timer) = Some after
    /\ isActive after = enabled
    /\ interval after
       = (if enabled then (seconds * 1000)%Z else interval before)
    /\ (snd (setup_auto_scanner scan_config auto_scan_timer) <> [] ->
        after <> before
        /\ default false (ag_hideNotifications scan_config) = false)
    /\ (after <> before ->
        default false (ag_hideNotifications scan_config) = false ->
        snd (setup_auto_scanner scan_config auto_scan_timer)
        = [if enabled then TooltipScanEnabled seconds
           else TooltipScanDisabled]).
Proof.
  intros before enabled seconds. unfold setup_auto_scanner.
  fold before. replace (match auto_scan_timer with
                        | Some t => t
                        | None => new_timer
                        end) with before by (by destruct auto_scan_timer).
  fold enabled seconds.
  destruct before as [active ms] eqn:Hb. simpl.
  destruct enabled.
  - destruct (negb active || negb (ms =? seconds * 1000)%Z) eqn:Hc; simpl.
    + eexists. split; [reflexivity|]. simpl. split; [done|]. split; [done|].
      split.
      * intros Hev. split.
        -- intros [= <- <-]. simpl in Hc. by rewrite Z.eqb_refl in Hc.
        -- by destruct (default false (ag_hideNotifications scan_config)).
      * intros _ ->. done.
    + apply orb_false_iff in Hc. destruct Hc as [Ha Hms].
      apply negb_false_iff in Ha. apply negb_false_iff, Z.eqb_eq in Hms.
      subst. eexists. split; [reflexivity|]. simpl.
      split; [done|]. split; [done|]. split; [done|]. by intros [].
  - destruct active; simpl.
    + eexists. split; [reflexivity|]. simpl. split; [done|]. split; [done|].
      split.
      * intros Hev. split; [done|].
        by destruct (default false (ag_hideNotifications scan_config)).
      * intros _ ->. done.
    + eexists. split; [reflexivity|]. simpl.
      split; [done|]. split; [done|]. split; [done|]. by intros [].
Qed.

(** X6: calling [setup_auto_scanner] again with the same configuration
    leaves the timer as the first call set it and shows nothing. *)
Theorem setup_auto_scanner_idempotent (scan_config : AutoGenerateConfig)
    (auto_scan_timer : option QTimer) :
  setup_auto_scanner scan_config
    (fst (setup_auto_scanner scan_config auto_scan_timer))
  = (fst (setup_auto_scanner scan_config auto_scan_timer), []).
Proof.
  unfold setup_auto_scanner.
  destruct (default false (ag_enabled scan_config)) eqn:He.
  - set (ms := (default 120%Z (ag_scanIntervalSeconds scan_config)
                * 1000)%Z).
    destruct (negb (isActive (match auto_scan_timer with
                              | Some t => t
                              | None => new_timer
                              end))
              || negb (interval (match auto_scan_timer with
                                 | Some t => t
                                 | None => new_timer
                                 end) =? ms)%Z) eqn:Hc; simpl.
    + by rewrite Z.eqb_refl.
    + by rewrite Hc.
  - destruct (isActive (match auto_scan_timer with
                        | Some t => t
                        | None => new_timer
                        end)) eqn:Ha; simpl; [done|].
    by rewrite Ha.
Qed.

(** X7: with the configuration of an instance that [Config] has just
    constructed, the fallback of 120 s is never used: an enabled scan
    runs at the interval of the user's file, or at 30 s when the file
    has none. *)
Theorem setup_auto_scanner_after_init (mgr : ConfigPy.AddonManager)
    (package : str) (self : ConfigPy.ConfigObject) (d : ConfigPy.ConfigData)
    (auto_scan_timer : option QTimer) :
  ConfigPy.configs mgr !! package = Some d ->
  ConfigPy.Config_init (Some mgr) package = ConfigPy.Done self ->
  default false
    (ag_enabled (default (mkAutoGenerateConfig None None None None)
                   (ConfigPy.d_autoGenerateConfig d))) = true ->
  fst (setup_auto_scanner (ConfigPy.getAutoGenerateConfig self)
         auto_scan_timer)
  = Some (mkQTimer true
            (default 30%Z
               (ag_scanIntervalSeconds
                  (default (mkAutoGenerateConfig None None None None)
                     (ConfigPy.d_autoGenerateConfig d))) * 1000)%Z).
Proof.
  intros Hd. unfold ConfigPy.Config_init. rewrite Hd.
  intros [= <-].
  set (file := default (mkAutoGenerateConfig None None None None)
                 (ConfigPy.d_autoGenerateConfig d)).
  intros Hen.
  unfold ConfigPy.getAutoGenerateConfig, setup_auto_scanner. simpl.
  replace (match ConfigPy.d_autoGenerateConfig d with
           | Some a => a
           | None => mkAutoGenerateConfig None None None None
           end) with file by (by destruct (ConfigPy.d_autoGenerateConfig d)).
  assert (default false (ConfigPy.setdefault false (ag_enabled file)) = true)
    as ->.
  { by destruct (ag_enabled file). }
  assert (default 120%Z
            (ConfigPy.setdefault 30%Z (ag_scanIntervalSeconds file))
          = default 30%Z (ag_scanIntervalSeconds file)) as ->.
  { by destruct (ag_scanIntervalSeconds file). }
  set (ms := (default 30%Z (ag_scanIntervalSeconds file) * 1000)%Z).
  destruct (negb (isActive (match auto_scan_timer with
                            | Some t => t
                            | None => new_timer
                            end))
            || negb (interval (match auto_scan_timer with
                               | Some t => t
                               | None => new_timer
                               end) =? ms)%Z) eqn:Hc; simpl; [done|].
  apply orb_false_iff in Hc. destruct Hc as [Ha Hms].
  apply negb_false_iff in Ha. apply negb_false_iff, Z.eqb_eq in Hms.
  destruct auto_scan_timer as [[a i]|]; simpl in *; by subst.
Qed.

(** ** The emptiness test, on text without tags and on markup *)

Lemma lstrip_elem (x : N) (s : str) : x ∈ lstrip s -> x ∈ s.
Proof.
  induction s as [|c t IH]; simpl; [done|].
  destruct (is_space c); [|done]. intros H. right. auto.
Qed.

Lemma strip_elem (x : N) (s : str) : x ∈ strip s -> x ∈ s.
Proof.
  unfold strip, rstrip. intros H.
  apply list_elem_of_In, in_rev, list_elem_of_In, lstrip_elem in H.
  apply list_elem_of_In, in_rev in H.
  apply lstrip_elem. by apply list_elem_of_In.
Qed.

(** After [<] and one character, a body of characters other than [<]
    and [>] is passed over up to the closing [>]. *)
Lemma lazy_tail_body (body rest : str) :
  forallb (fun c => negb (c =? TagRe.lt_sign) && negb (c =? TagRe.gt_sign))
    body = true ->
  TagRe.lazy_tail (body ++ TagRe.gt_sign :: rest) = Some rest.
Proof.
  induction body as [|c t IH]; simpl.
  - done.
  - intros [[Hlt Hgt]%andb_true_iff Ht]%andb_true_iff.
    apply negb_true_iff in Hlt, Hgt. rewrite Hlt, Hgt. auto.
Qed.

(** Removing the tags of markup leaves whitespace. *)
Lemma sub_markup_only (s : str) :
  markup_only s -> forallb is_space (TagRe.sub s) = true.
Proof.
  induction 1 as [|c rest Hc _ IH|body rest Hne Hbody _ IH].
  - done.
  - rewrite TagReFacts.sub_cons.
    assert (TagRe.match_here (c :: rest) = None) as ->.
    { destruct rest as [|c1 t]; [done|]. simpl.
      destruct (c =? TagRe.lt_sign) eqn:E; [|done].
      apply N.eqb_eq in E. subst c. discriminate. }
    simpl. by rewrite Hc, IH.
  - rewrite TagReFacts.sub_cons.
    assert (TagRe.match_here (TagRe.lt_sign :: body ++ TagRe.gt_sign :: rest)
            = Some rest) as ->; [|exact IH].
    destruct body as [|b0 body']; [done|].
    simpl in Hbody. apply andb_true_iff in Hbody.
    destruct Hbody as [[Hlt _]%andb_true_iff Hbody].
    simpl. rewrite Hlt. simpl. by apply lazy_tail_body.
Qed.

(** X8: for a field without [<], the field is effectively empty exactly
    when its text, stripped of leading and trailing whitespace, is a run
    of [&nbsp;] entities with nothing between them (no entity at all for
    a field of whitespace). *)
Theorem effectively_empty_without_tags (s : str) :
  forallb (fun c => negb (c =? TagRe.lt_sign)) s = true ->
  (is_field_effectively_empty s = true <->
   exists k : nat, strip s = concat (replicate k nbsp)).
Proof.
  intros Hs. unfold is_field_effectively_empty.
  rewrite (TagReFacts.sub_no_lt s Hs).
  destruct s as [|c t]; simpl negb; cbv iota.
  - split; [intros _; by exists 0%nat | done].
  - rewrite negb_true_iff, truthy_false. apply delete_nbsp_nil.
Qed.

(** X9: a field made of whitespace and simple tags only ([<br>],
    [<div></div>], ...) is effectively empty. *)
Theorem markup_only_is_empty (s : str) :
  markup_only s -> is_field_effectively_empty s = true.
Proof.
  intros H. apply sub_markup_only in H.
  unfold is_field_effectively_empty.
  destruct (truthy s); [|done]. simpl.
  apply strip_nil_iff in H. by rewrite H.
Qed.

(** X10: plain text is never taken for empty: a field without [<] and
    without [&] that holds a character other than whitespace is not
    effectively empty. *)
Theorem plain_text_not_empty (s : str) :
  forallb (fun c => negb (c =? TagRe.lt_sign) && negb (c =? 38)) s = true ->
  forallb is_space s = false ->
  is_field_effectively_empty s = false.
Proof.
  intros Hs Hvis.
  assert (forallb (fun c => negb (c =? TagRe.lt_sign)) s = true) as Hlt.
  { rewrite forallb_forall in Hs. apply forallb_forall.
    intros c Hc. specialize (Hs c Hc). by apply andb_true_iff in Hs as [? _]. }
  unfold is_field_effectively_empty.
  rewrite (TagReFacts.sub_no_lt s Hlt).
  destruct s as [|c t]; [done|]. simpl negb. cbv iota.
  apply negb_false_iff, truthy_true. intros Hnil.
  apply delete_nbsp_nil in Hnil. destruct Hnil as [k Hk].
  destruct k as [|k].
  - simpl in Hk. apply strip_nil_iff in Hk. congruence.
  - assert (38 ∈ strip (c :: t)) as Hamp by (rewrite Hk; left).
    apply strip_elem in Hamp. apply list_elem_of_In in Hamp.
    rewrite forallb_forall in Hs. specialize (Hs _ Hamp). done.
Qed.

(** ** The editor buttons and the page of the web demo *)

Section PluginFacts.

Context {MecabState : Type}.
Variable reading_impl :
  MecabState -> str -> bool -> bool -> MecabState * result str.
Variable removeFurigana : str -> str.
Variable reading_default_ignoreNumbers : bool.

Local Abbreviation W := (World MecabState).

(** X11: the generate button on a selection of whitespace only: the
    analyzer is not called; an empty selection gets the tooltip, and a
    selection that is not empty is replaced by the empty string. *)
Theorem onGenerateFurigana_blank_selection (cfg : Config) (selected : str)
    (w : W) :
  forallb is_space selected = true ->
  onGenerateFurigana reading_impl removeFurigana cfg selected w
  = (w, Ok (if truthy selected then Modify []
            else Notify TooltipNothingToGenerate)).
Proof.
  intros H. unfold onGenerateFurigana, generateFurigana.
  rewrite is_blank_spaces, H. unfold bind, ret.
  by destruct selected.
Qed.

(** X12: the page route is the JSON route with a page around it: a GET
    renders the empty page and calls nothing; a POST whose form has no
    [text] is answered with 400 before any call; a POST with [text]
    makes the call that [/api/furigana] makes for this text and the flag
    [use_ruby_tags in request.form], and renders its answer with the
    text and the flag. *)
Theorem index_route (is_post : bool) (form : gmap str str) (w : W) :
  index reading_impl reading_default_ignoreNumbers is_post form w
  = match is_post, form !! lit "text" with
    | false, _ => (w, Ok (Rendered (mkPage [] [] false)))
    | true, None => (w, Ok BadRequest)
    | true, Some text =>
        let use_ruby := has_field (lit "use_ruby_tags") form in
        let '(w', res) :=
          api_furigana reading_impl reading_default_ignoreNumbers
            (mkRequest (Some text) (Some use_ruby)) w in
        (w', match res with
             | Ok processed_text =>
                 Ok (Rendered (mkPage processed_text text use_ruby))
             | Raise e => Raise e
             end)
    end.
Proof.
  unfold index. destruct is_post; [|done].
  destruct (form !! lit "text") as [text|]; [|done].
  unfold api_furigana, bind, ret.
  cbn [from_option req_text req_useRubyTags]. unfold id.
  by destruct (mecab_reading reading_impl text reading_default_ignoreNumbers
                 (has_field (lit "use_ruby_tags") form) w) as [w' [t|e]].
Qed.

End PluginFacts.

(** ** The update step and the scan as a whole *)

Lemma assigns_by_refl {S : Type} (P : assignment -> Prop) (w : World S) :
  assigns_by P w w.
Proof. exists []. split; [by rewrite app_nil_r | constructor]. Qed.

Lemma assigns_by_same {S : Type} (P : assignment -> Prop)
    (w w' : World S) :
  assigns w' = assigns w -> assigns_by P w w'.
Proof.
  intros H. exists []. split; [by rewrite app_nil_r | constructor].
Qed.

Lemma assigns_by_trans {S : Type} (P : assignment -> Prop)
    (w1 w2 w3 : World S) :
  assigns_by P w1 w2 -> assigns_by P w2 w3 -> assigns_by P w1 w3.
Proof.
  intros (a1 & H1 & F1) (a2 & H2 & F2). exists (a1 ++ a2). split.
  - rewrite H2, H1. by rewrite <- app_assoc.
  - by apply Forall_app.
Qed.

Section UpdateFacts.

Context {MecabState : Type}.
Variable reading_impl :
  MecabState -> str -> bool -> bool -> MecabState * result str.
Variable removeFurigana : str -> str.

Local Abbreviation W := (World MecabState).
Local Abbreviation generate := (generateFurigana reading_impl removeFurigana).
Local Abbreviation fills cfg :=
  (fills_in reading_impl removeFurigana (getIgnoreNumbers cfg)
     (getUseRubyTags cfg)).

Lemma update_pair_fills (cfg : Config) (nid : Z) (p : pair)
    (st : gmap str str * bool) (w w' : W)
    (res : result (gmap str str * bool)) :
  update_pair reading_impl removeFurigana cfg nid p st w = (w', res) ->
  assigns_by (fills cfg) w w'.
Proof.
  destruct st as [flds m]. unfold update_pair.
  destruct (source p) as [sf|];
    [|intros [= <- <-]; apply assigns_by_refl].
  destruct (destination p) as [df|];
    [|intros [= <- <-]; apply assigns_by_refl].
  destruct (has_field sf flds && has_field df flds
            && truthy (flds !!! sf));
    [|intros [= <- <-]; apply assigns_by_refl].
  destruct (is_field_effectively_empty (flds !!! df)
            || Py.eqb (flds !!! sf) (flds !!! df)) eqn:Hneed;
    [|intros [= <- <-]; apply assigns_by_refl].
  unfold bind at 1.
  destruct (generate (flds !!! sf) (getIgnoreNumbers cfg)
              (getUseRubyTags cfg) w) as [w1 [g|e]] eqn:Eg;
    pose proof (generate_run reading_impl removeFurigana [] nid _ _ _ _ _ _
                  Eg) as Hrun;
    pose proof (pr_assigns _ _ _ _ _ Hrun) as Ha;
    rewrite app_nil_r in Ha.
  - destruct (negb (Py.eqb g (flds !!! df))).
    + unfold bind, assign_field, ret. intros [= <- <-].
      exists [mkAssign nid df (flds !!! df) g]. split.
      * simpl. by rewrite Ha.
      * constructor; [|constructor].
        exists (flds !!! sf), w, w1. split; [exact Hneed | exact Eg].
    + intros [= <- <-]. by apply assigns_by_same.
  - intros [= <- <-]. by apply assigns_by_same.
Qed.

Lemma update_pairs_fills (cfg : Config) (nid : Z) (pairs : list pair)
    (st : gmap str str * bool) (w w' : W)
    (res : result (gmap str str * bool)) :
  update_pairs reading_impl removeFurigana cfg nid pairs st w = (w', res) ->
  assigns_by (fills cfg) w w'.
Proof.
  revert st w. induction pairs as [|p rest IH]; intros st w.
  - intros [= <- <-]. apply assigns_by_refl.
  - cbn [update_pairs]. unfold bind at 1.
    destruct (update_pair reading_impl removeFurigana cfg nid p st w)
      as [w1 [st1|e]] eqn:E1; apply update_pair_fills in E1.
    + intros H%IH. by eapply assigns_by_trans.
    + by intros [= <- <-].
Qed.

Lemma update_rule_fills (cfg : Config) (nid : Z) (note_deck : option str)
    (rl : rule) (st : gmap str str * bool) (w w' : W)
    (res : result (gmap str str * bool)) :
  update_rule reading_impl removeFurigana cfg nid note_deck rl st w
    = (w', res) ->
  assigns_by (fills cfg) w w'.
Proof.
  unfold update_rule.
  destruct note_deck as [deck_name|];
    [|intros [= <- <-]; apply assigns_by_refl].
  destruct (deckName rl) as [rule_deck_name|];
    [|intros [= <- <-]; apply assigns_by_refl].
  destruct (Py.eqb deck_name rule_deck_name
            || startswith (rule_deck_name ++ lit "::") deck_name);
    [apply update_pairs_fills | intros [= <- <-]; apply assigns_by_refl].
Qed.

Lemma update_rules_fills (cfg : Config) (nid : Z) (note_deck : option str)
    (rules : list rule) (st : gmap str str * bool) (w w' : W)
    (res : result (gmap str str * bool)) :
  update_rules reading_impl removeFurigana cfg nid note_deck rules st w
    = (w', res) ->
  assigns_by (fills cfg) w w'.
Proof.
  revert st w. induction rules as [|rl rest IH]; intros st w.
  - intros [= <- <-]. apply assigns_by_refl.
  - cbn [update_rules]. unfold bind at 1.
    destruct (update_rule reading_impl removeFurigana cfg nid note_deck rl
                st w) as [w1 [st1|e]] eqn:E1; apply update_rule_fills in E1.
    + intros H%IH. by eapply assigns_by_trans.
    + by intros [= <- <-].
Qed.

(** One turn of the loop of [do_update]: what it assigns, and that it
    writes its own note or nothing. *)
Lemma update_one_turn (cfg : Config) (rules : list rule) (nid : Z)
    (count : nat) (w w' : W) (res : result nat) :
  update_one reading_impl removeFurigana cfg rules nid count w
    = (w', res) ->
  assigns_by (fills cfg) w w'
  /\ exists ws,
       writes w' = writes w ++ ws /\ sublist ws [nid]
       /\ match res with
          | Ok count' => count' = (count + length ws)%nat
          | Raise _ => ws = []
          end.
Proof.
  unfold update_one. unfold bind at 1. unfold get_note at 1.
  destruct (notes w !! nid) as [note|].
  2:{ intros [= <- <-]. split; [apply assigns_by_refl|].
      exists []. rewrite app_nil_r. split; [done|].
      split; [apply sublist_nil_l | done]. }
  unfold bind at 1.
  destruct (update_rules reading_impl removeFurigana cfg nid (deck note)
              rules (fields note, false) w) as [w1 [[flds m]|e]] eqn:E1;
    pose proof (update_rules_fills _ _ _ _ _ _ _ _ E1) as Hfill;
    apply update_rules_run in E1; destruct E1 as (added & Hr & _);
    pose proof (pr_writes _ _ _ _ _ Hr) as Hw.
  - destruct m.
    + unfold bind, store_note, ret. intros [= <- <-]. split.
      * eapply assigns_by_trans; [exact Hfill|]. by apply assigns_by_same.
      * exists [nid]. simpl. rewrite Hw. split; [done|].
        split; [done | lia].
    + intros [= <- <-]. split; [done|]. exists [].
      rewrite app_nil_r. split; [done|].
      split; [apply sublist_nil_l | simpl; lia].
  - intros [= <- <-]. split; [done|]. exists [].
    rewrite app_nil_r. split; [done|]. split; [apply sublist_nil_l | done].
Qed.

Lemma update_loop_turns (cfg : Config) (rules : list rule) (nids : list Z)
    (count : nat) (w w' : W) (res : result nat) :
  update_loop reading_impl removeFurigana cfg rules nids count w
    = (w', res) ->
  assigns_by (fills cfg) w w'
  /\ exists ws,
       writes w' = writes w ++ ws /\ sublist ws nids
       /\ match res with
          | Ok count' => count' = (count + length ws)%nat
          | Raise _ => True
          end.
Proof.
  revert count w. induction nids as [|nid rest IH]; intros count w.
  - intros [= <- <-]. split; [apply assigns_by_refl|].
    exists []. rewrite app_nil_r. split; [done|].
    split; [done | simpl; lia].
  - cbn [update_loop]. unfold bind at 1.
    destruct (update_one reading_impl removeFurigana cfg rules nid count w)
      as [w1 [count1|e]] eqn:E1;
      apply update_one_turn in E1;
      destruct E1 as (Hf1 & ws1 & Hw1 & Hs1 & Hc1).
    + intros (Hf2 & ws2 & Hw2 & Hs2 & Hc2)%IH. split.
      * by eapply assigns_by_trans.
      * exists (ws1 ++ ws2). rewrite Hw2, Hw1, <- app_assoc.
        split; [done|]. split.
        -- change (nid :: rest) with ([nid] ++ rest). by apply sublist_app.
        -- destruct res as [count'|e]; [|done].
           rewrite length_app. lia.
    + intros [= <- <-]. split; [done|]. exists ws1. split; [done|].
      subst ws1. split; [apply sublist_nil_l | done].
Qed.


(** With a deck name at hand, a rule without [deckName] among the rules
    makes the loop over the rules raise. *)
Lemma update_rules_deckless (cfg : Config) (nid : Z) (deck_name : str)
    (rules : list rule) (st : gmap str str * bool) (w : W) :
  (exists r0, r0 ∈ rules /\ deckName r0 = None) ->
  exists e,
    snd (update_rules reading_impl removeFurigana cfg nid (Some deck_name)
           rules st w) = Raise e.
Proof.
  revert st w. induction rules as [|rl rest IH]; intros st w (r0 & Hin & Hd).
  - by apply elem_of_nil in Hin.
  - cbn [update_rules]. unfold bind at 1.
    destruct (update_rule reading_impl removeFurigana cfg nid
                (Some deck_name) rl st w) as [w1 [st1|e]] eqn:E1.
    + apply elem_of_cons in Hin. destruct Hin as [->|Hin].
      * unfold update_rule in E1. rewrite Hd in E1. discriminate.
      * apply IH. eauto.
    + simpl. eauto.
Qed.

(** X14: a rule without [deckName] among the rules stops the update step
    at its first note that has a deck: the step raises (the [TypeError]
    of [None + '::'], unless the analyzer failed before), and neither
    this note nor any note after it is written. *)
Theorem do_update_rule_without_deck (cfg : Config) (rules : list rule)
    (nid : Z) (rest : list Z) (w : W) (note : Note) :
  (exists r0, r0 ∈ rules /\ deckName r0 = None) ->
  notes w !! nid = Some note ->
  is_Some (deck note) ->
  (exists e,
     snd (do_update reading_impl removeFurigana cfg rules (nid :: rest) w)
     = Raise e)
  /\ writes (fst (do_update reading_impl removeFurigana cfg rules
                    (nid :: rest) w)) = writes w
  /\ notes (fst (do_update reading_impl removeFurigana cfg rules
                   (nid :: rest) w)) = notes w.
Proof.
  intros Hr0 Hnote [deck_name Hdeck].
  destruct (update_rules reading_impl removeFurigana cfg nid (Some deck_name)
              rules (fields note, false) w) as [w1 [st1|e1]] eqn:E1.
  { destruct (update_rules_deckless cfg nid deck_name rules
                (fields note, false) w Hr0) as [e He].
    rewrite E1 in He. discriminate. }
  assert (do_update reading_impl removeFurigana cfg rules (nid :: rest) w
          = (w1, Raise e1)) as ->.
  { unfold do_update. cbn [update_loop]. unfold bind at 1.
    unfold update_one. unfold bind at 1. unfold get_note.
    rewrite Hnote. unfold bind at 1. by rewrite Hdeck, E1. }
  apply update_rules_run in E1. destruct E1 as (added & Hr & _).
  simpl. split; [eauto|]. by destruct Hr.
Qed.

End UpdateFacts.

Section ScanRunFacts.

Context {MecabState : Type}.
Variable reading_impl :
  MecabState -> str -> bool -> bool -> MecabState * result str.
Variable removeFurigana : str -> str.
Variable search : str -> Z -> Note -> bool.

Local Abbreviation W := (World MecabState).
Local Abbreviation scan :=
  (run_furigana_scan reading_impl removeFurigana search).

(** The selection step returns, without a change to the world, ids
    without repetition, of the notes that a rule selects. *)
Lemma find_notes_to_process_run (rules : list rule) (w : W) :
  exists nids,
    find_notes_to_process search rules w = (w, Ok nids)
    /\ NoDup nids
    /\ forall nid, nid ∈ nids <-> rule_selects search rules (notes w) nid.
Proof.
  unfold find_notes_to_process. unfold bind at 1.
  destruct (select_rules_spec search rules ∅ w) as (ids & -> & Hids).
  exists (elements ids). split; [done|]. split; [apply NoDup_elements|].
  intros nid. rewrite elem_of_elements, Hids. unfold rule_selects.
  split; [|by right]. by intros [?%elem_of_empty|?].
Qed.

(** The two ways of a scan: it ends before the update step, with the
    world as it was; or the update step runs on the selected notes, and
    what it returns or raises is shown. *)
Lemma scan_shape (is_manual : bool) (scan_config : AutoGenerateConfig)
    (cfg : Config) (w : W) :
  (fst (scan is_manual scan_config cfg w) = w
   /\ (is_manual = false -> fst (snd (scan is_manual scan_config cfg w)) = [])
   /\ (forall e, e ∈ fst (snd (scan is_manual scan_config cfg w)) ->
         e = TooltipNoRules \/ e = TooltipStarting
         \/ e = TooltipNothingNeeded)
   /\ snd (snd (scan is_manual scan_config cfg w)) = Ok tt)
  \/ (exists nids w2 res,
        (default false (ag_enabled scan_config) = true \/ is_manual = true)
        /\ nids <> [] /\ NoDup nids
        /\ (forall nid, nid ∈ nids <->
              rule_selects search (default [] (ag_rules scan_config))
                (notes w) nid)
        /\ do_update reading_impl removeFurigana cfg
             (default [] (ag_rules scan_config)) nids w = (w2, res)
        /\ scan is_manual scan_config cfg w
           = (w2,
              ((if is_manual
                then [TooltipStarting; ShowTextFound (length nids)]
                else [])
               ++ match res with
                  | Ok count => on_done is_manual scan_config count
                  | Raise e => [ErrorShown e]
                  end,
               Ok tt))).
Proof.
  unfold run_furigana_scan.
  destruct (negb (default false (ag_enabled scan_config)) && negb is_manual)
    eqn:Hguard.
  { left. simpl. split; [done|]. split; [done|].
    split; [by intros e ?%elem_of_nil | done]. }
  destruct (default [] (ag_rules scan_config)) as [|r0 rules'] eqn:Hrules.
  { left. simpl. split; [done|]. split; [by intros ->|]. split; [|done].
    destruct is_manual; [|by intros e ?%elem_of_nil].
    intros e ->%list_elem_of_singleton. by left. }
  destruct (find_notes_to_process_run (r0 :: rules') w)
    as (nids & -> & Hnd & Hsel).
  destruct nids as [|nid nids'].
  { left. simpl. split; [done|]. split; [by intros ->|]. split; [|done].
    destruct is_manual; [|by intros e ?%elem_of_nil]. simpl.
    intros e [->|[->|[]%elem_of_nil]%elem_of_cons]%elem_of_cons; auto. }
  right.
  destruct (do_update reading_impl removeFurigana cfg (r0 :: rules')
              (nid :: nids') w) as [w2 res] eqn:E.
  exists (nid :: nids'), w2, res. split.
  { destruct (default false (ag_enabled scan_config)); [by left|].
    destruct is_manual; [by right | done]. }
  split; [done|]. split; [done|]. split; [exact Hsel|].
  split; [done|].
  destruct res as [count|e]; by destruct is_manual.
Qed.

(** X15: a background scan shows nothing but the tooltip of a
    successful update and the error window of a failed one, and no
    tooltip at all when notifications are hidden; no error leaves the
    function; and with the scan disabled it does nothing at all. *)
Theorem background_scan_quiet (scan_config : AutoGenerateConfig)
    (cfg : Config) (w : W) :
  snd (snd (scan false scan_config cfg w)) = Ok tt
  /\ (forall e, e ∈ fst (snd (scan false scan_config cfg w)) ->
        (exists count, e = TooltipGenerated count
                       /\ default false (ag_hideNotifications scan_config)
                          = false)
        \/ exists x, e = ErrorShown x)
  /\ (default false (ag_enabled scan_config) = false ->
      scan false scan_config cfg w = (w, ([], Ok tt))).
Proof.
  split; [|split].
  - destruct (scan_shape false scan_config cfg w)
      as [(_ & _ & _ & H)|(nids & w2 & res & _ & _ & _ & _ & _ & ->)]; done.
  - destruct (scan_shape false scan_config cfg w)
      as [(_ & Hq & _)|(nids & w2 & res & _ & _ & _ & _ & _ & ->)].
    + rewrite (Hq eq_refl). by intros e ?%elem_of_nil.
    + simpl. destruct res as [count|x].
      * unfold on_done. simpl.
        destruct (0 <? count)%nat; [|by intros e ?%elem_of_nil].
        destruct (default false (ag_hideNotifications scan_config));
          simpl; [by intros e ?%elem_of_nil|].
        intros e ->%list_elem_of_singleton. left. eauto.
      * intros e ->%list_elem_of_singleton. right. eauto.
  - intros Hoff. unfold run_furigana_scan. by rewrite Hoff.
Qed.

(** X16: a scan writes only notes that its selection step took, each
    at most once: every note written was found by the deck search of a
    rule with a deck name and had a pair that passed the test, in the
    collection as it was when the scan began. *)
Theorem scan_writes_selected_once (is_manual : bool)
    (scan_config : AutoGenerateConfig) (cfg : Config) (w : W) :
  exists ws,
    writes (fst (scan is_manual scan_config cfg w)) = writes w ++ ws
    /\ NoDup ws
    /\ forall nid, nid ∈ ws ->
         rule_selects search (default [] (ag_rules scan_config))
           (notes w) nid.
Proof.
  destruct (scan_shape is_manual scan_config cfg w)
    as [(-> & _)|(nids & w2 & res & _ & _ & Hnd & Hsel & E & ->)].
  - exists []. rewrite app_nil_r. split; [done|].
    split; [constructor | by intros nid ?%elem_of_nil].
  - unfold do_update in E. apply update_loop_turns in E.
    destruct E as (_ & ws & Hw & Hsub & _).
    exists ws. split; [done|]. split; [by eapply sublist_NoDup|].
    intros nid Hin. apply Hsel. by eapply elem_of_sublist.
Qed.

(** X17: the number in the tooltip of a finished scan is the number of
    notes the scan wrote, and is not zero; when the update step returns
    having written a note, the tooltip is shown for a manual scan and
    for a background scan with notifications. *)
Theorem scan_tooltip_counts_writes (is_manual : bool)
    (scan_config : AutoGenerateConfig) (cfg : Config) (w : W) :
  exists ws,
    writes (fst (scan is_manual scan_config cfg w)) = writes w ++ ws
    /\ (forall count,
          TooltipGenerated count
            ∈ fst (snd (scan is_manual scan_config cfg w)) ->
          count = length ws /\ ws <> [])
    /\ (ws <> [] ->
        (forall x, ErrorShown x
                     ∉ fst (snd (scan is_manual scan_config cfg w))) ->
        is_manual
        || negb (default false (ag_hideNotifications scan_config)) = true ->
        TooltipGenerated (length ws)
          ∈ fst (snd (scan is_manual scan_config cfg w))).
Proof.
  destruct (scan_shape is_manual scan_config cfg w)
    as [(-> & _ & Hev & _)|(nids & w2 & res & _ & _ & _ & _ & E & ->)].
  - exists []. rewrite app_nil_r. split; [done|]. split; [|done].
    intros count Hin. by destruct (Hev _ Hin) as [?|[?|?]].
  - unfold do_update in E. apply update_loop_turns in E.
    destruct E as (_ & ws & Hw & _ & Hc).
    exists ws. split; [done|]. simpl. split.
    + intros count [Hin|Hin]%elem_of_app.
      { destruct is_manual; [|by apply elem_of_nil in Hin].
        by apply elem_of_cons in Hin as [?|[?|?%elem_of_nil]%elem_of_cons]. }
      destruct res as [c|x]; [|by apply list_elem_of_singleton in Hin].
      unfold on_done in Hin.
      destruct (0 <? c)%nat eqn:Hpos; [|by apply elem_of_nil in Hin].
      destruct (is_manual
                || negb (default false (ag_hideNotifications scan_config)));
        [|by apply elem_of_nil in Hin].
      apply list_elem_of_singleton in Hin. injection Hin as ->.
      apply Nat.ltb_lt in Hpos. simpl in Hc. subst c.
      split; [done|]. intros ->. simpl in Hpos. lia.
    + intros Hne Hnoerr Hshow. apply elem_of_app. right.
      destruct res as [c|x].
      * simpl in Hc. subst c. unfold on_done. rewrite Hshow.
        destruct ws as [|j ws']; [done|]. simpl. left.
      * exfalso. apply (Hnoerr x). apply elem_of_app. right. left.
Qed.

End ScanRunFacts.

(** ** More on the batch: the undo entry, the analyzer calls, the loop *)

Lemma readings_by_refl {S : Type} (P : str * bool * bool -> Prop)
    (w w' : World S) :
  readings w' = readings w -> readings_by P 0 w w'.
Proof.
  intros H. exists []. rewrite app_nil_r. split; [done|].
  split; [constructor | done].
Qed.

Lemma readings_by_trans {S : Type} (P : str * bool * bool -> Prop)
    (b1 b2 : nat) (w1 w2 w3 : World S) :
  readings_by P b1 w1 w2 -> readings_by P b2 w2 w3 ->
  readings_by P (b1 + b2) w1 w3.
Proof.
  intros (c1 & H1 & F1 & L1) (c2 & H2 & F2 & L2). exists (c1 ++ c2).
  split; [rewrite H2, H1; by rewrite <- app_assoc|].
  split; [by apply Forall_app|]. rewrite length_app. lia.
Qed.

Lemma readings_by_weaken {S : Type} (P : str * bool * bool -> Prop)
    (b b' : nat) (w w' : World S) :
  (b <= b')%nat -> readings_by P b w w' -> readings_by P b' w w'.
Proof.
  intros Hb (c & H & F & L). exists c. split; [done|]. split; [done | lia].
Qed.

Lemma writes_merged_refl {S : Type} (ids : list Z) (w w' : World S) :
  writes w' = writes w -> undo_merges w' = undo_merges w ->
  undo_entries w' = undo_entries w ->
  writes_merged ids w w'.
Proof.
  intros Hw Hm He. exists []. rewrite app_nil_r. split; [done|].
  split; [apply sublist_nil_l|]. split; [simpl; lia | done].
Qed.

Lemma writes_merged_trans {S : Type} (ids1 ids2 : list Z)
    (w1 w2 w3 : World S) :
  writes_merged ids1 w1 w2 -> writes_merged ids2 w2 w3 ->
  writes_merged (ids1 ++ ids2) w1 w3.
Proof.
  intros (a & Ha & Sa & Ma & Ea) (b & Hb & Sb & Mb & Eb). exists (a ++ b).
  split; [rewrite Hb, Ha; by rewrite <- app_assoc|].
  split; [by apply sublist_app|].
  split; [rewrite length_app; lia | congruence].
Qed.

Section BatchAccounts.

Context {MecabState : Type}.
Variable reading_impl :
  MecabState -> str -> bool -> bool -> MecabState * result str.
Variable removeFurigana : str -> str.

Local Abbreviation W := (World MecabState).
Local Abbreviation generate := (generateFurigana reading_impl removeFurigana).
Local Abbreviation call n r := (call_for removeFurigana n r).

(** The rate test and the progress call return, keep the count, and
    touch nothing but the clock and the log of progress calls. *)
Lemma progress_step_quiet (hp : bool) (total i : nat) (last : Q)
    (count : nat) (w w' : W) (res : result (Q * nat)) :
  bind (update_progress hp total i last) (fun l => ret (l, count)) w
    = (w', res) ->
  (exists last', res = Ok (last', count))
  /\ notes w' = notes w /\ writes w' = writes w /\ assigns w' = assigns w
  /\ readings w' = readings w /\ undo_merges w' = undo_merges w
  /\ undo_entries w' = undo_entries w.
Proof.
  unfold update_progress, bind, time_time, progress, ret. simpl.
  destruct (Qle_bool progress_period (clock w (ticks w) - last));
    [destruct hp|]; intros [= <- <-]; simpl; eauto 10.
Qed.

(** The ways of one turn of the loop of [bulkGenerate]. *)
Lemma bulk_note_cases (pairs : list pair) (hp n r : bool) (total i : nat)
    (nid : Z) (last : Q) (count : nat) (w w' : W)
    (res : result (Q * nat)) :
  bulk_note reading_impl removeFurigana pairs hp n r total i nid
    (last, count) w = (w', res) ->
  (notes w !! nid = None /\ w' = w /\ res = Raise NotFoundError)
  \/ exists note w1 res1,
       notes w !! nid = Some note
       /\ bulk_pairs reading_impl removeFurigana nid n r pairs
            (fields note, false) w = (w1, res1)
       /\ match res1 with
          | Raise e => w' = w1 /\ res = Raise e
          | Ok (flds, false) =>
              bind (update_progress hp total i last)
                (fun l => ret (l, count)) w1 = (w', res)
          | Ok (flds, true) =>
              bind (update_progress hp total i last)
                (fun l => ret (l, S count))
                (fst (merge_undo_entries
                        (fst (store_note nid (mkNote flds (deck note))
                                w1)))) = (w', res)
          end.
Proof.
  unfold bulk_note. unfold bind at 1. unfold get_note at 1.
  destruct (notes w !! nid) as [note|].
  2:{ intros [= <- <-]. by left. }
  unfold bind at 1.
  destruct (bulk_pairs reading_impl removeFurigana nid n r pairs
              (fields note, false) w) as [w1 [[flds m]|e]] eqn:E1.
  - intros Hrun. right. exists note, w1, (Ok (flds, m)).
    split; [done|]. split; [done|]. destruct m; exact Hrun.
  - intros [= <- <-]. right. exists note, w1, (Raise e). done.
Qed.

Lemma generate_calls (html : str) (n r : bool) (w w' : W)
    (res : result str) :
  generate html n r w = (w', res) -> readings_by (call n r) 1 w w'.
Proof.
  unfold generateFurigana. destruct (is_blank html) eqn:Hb.
  - intros [= <- <-]. apply (readings_by_weaken _ 0); [lia|].
    by apply readings_by_refl.
  - unfold bind, mecab_reading.
    destruct (reading_impl (mecab w) (removeFurigana html) n r)
      as [m' [t|e]]; intros [= <- <-];
      (exists [(removeFurigana html, n, r)]; split; [done|];
       split; [|done]; constructor; [|constructor]; by exists html).
Qed.

Lemma bulk_pair_calls (nid : Z) (n r : bool) (p : pair)
    (st : gmap str str * bool) (w w' : W)
    (res : result (gmap str str * bool)) :
  bulk_pair reading_impl removeFurigana nid n r p st w = (w', res) ->
  readings_by (call n r) 1 w w'.
Proof.
  assert (forall v, (w, v) = (w', res) -> readings_by (call n r) 1 w w')
    as Hsame.
  { intros v [= <- <-]. apply (readings_by_weaken _ 0); [lia|].
    by apply readings_by_refl. }
  destruct st as [flds m]. unfold bulk_pair.
  destruct (falsy (source p) || falsy (destination p)); [apply Hsame|].
  destruct (source p) as [sf|]; [|apply Hsame].
  destruct (destination p) as [df|]; [|apply Hsame].
  destruct (has_field sf flds && has_field df flds
            && truthy (flds !!! sf)); [|apply Hsame].
  unfold bind at 1.
  destruct (generate (flds !!! sf) n r w) as [w1 [g|e]] eqn:Eg;
    apply generate_calls in Eg.
  - destruct (negb (Py.eqb (flds !!! df) g)).
    + unfold bind, assign_field, ret. intros [= <- <-].
      destruct Eg as (c & Hc & Hall & Hlen). by exists c.
    + by intros [= <- <-].
  - by intros [= <- <-].
Qed.

Lemma bulk_pairs_calls (nid : Z) (n r : bool) (pairs : list pair)
    (st : gmap str str * bool) (w w' : W)
    (res : result (gmap str str * bool)) :
  bulk_pairs reading_impl removeFurigana nid n r pairs st w = (w', res) ->
  readings_by (call n r) (length pairs) w w'.
Proof.
  revert st w. induction pairs as [|p rest IH]; intros st w.
  - intros [= <- <-]. by apply readings_by_refl.
  - cbn [bulk_pairs]. unfold bind at 1.
    destruct (bulk_pair reading_impl removeFurigana nid n r p st w)
      as [w1 [st1|e]] eqn:E1; apply bulk_pair_calls in E1.
    + intros H%IH. apply (readings_by_trans _ 1 (length rest) w w1 w'); done.
    + intros [= <- <-]. apply (readings_by_weaken _ 1); [simpl; lia | done].
Qed.

(** One turn of the loop: its analyzer calls, its write and the merge
    into the undo entry. *)
Lemma bulk_note_account (pairs : list pair) (hp n r : bool)
    (total i : nat) (nid : Z) (st : Q * nat) (w w' : W)
    (res : result (Q * nat)) :
  bulk_note reading_impl removeFurigana pairs hp n r total i nid st w
    = (w', res) ->
  writes_merged [nid] w w' /\ readings_by (call n r) (length pairs) w w'.
Proof.
  destruct st as [last count].
  intros [(_ & -> & _)|(note & w1 & res1 & _ & E1 & Hrest)]%bulk_note_cases.
  { split; [by apply writes_merged_refl|].
    apply (readings_by_weaken _ 0); [lia | by apply readings_by_refl]. }
  pose proof (bulk_pairs_calls _ _ _ _ _ _ _ _ E1) as Hcalls.
  apply bulk_pairs_run in E1. destruct E1 as (added & Hr & _).
  destruct Hr.
  destruct res1 as [[flds [|]]|e].
  - apply progress_step_quiet in Hrest.
    destruct Hrest as (_ & _ & Hw & _ & Hrd & Hm & He). simpl in *.
    split.
    + exists [nid]. rewrite Hw, Hm, He. simpl.
      rewrite pr_writes0, pr_undo_merges0, pr_undo_entries0.
      split; [done|]. split; [done|]. split; [lia | done].
    + destruct Hcalls as (c & Hc & Hall & Hlen). exists c.
      split; [congruence | done].
  - apply progress_step_quiet in Hrest.
    destruct Hrest as (_ & _ & Hw & _ & Hrd & Hm & He).
    split.
    + apply writes_merged_refl; congruence.
    + destruct Hcalls as (c & Hc & Hall & Hlen). exists c.
      split; [congruence | done].
  - destruct Hrest as [-> _]. split; [by apply writes_merged_refl | done].
Qed.

Lemma bulk_loop_account (pairs : list pair) (hp n r : bool) (total : nat)
    (ids : list Z) (i : nat) (st : Q * nat) (w w' : W)
    (res : result (Q * nat)) :
  bulk_loop reading_impl removeFurigana pairs hp n r total i ids st w
    = (w', res) ->
  writes_merged ids w w'
  /\ readings_by (call n r) (length ids * length pairs) w w'.
Proof.
  revert i st w. induction ids as [|nid rest IH]; intros i st w.
  - intros [= <- <-].
    split; [by apply writes_merged_refl | by apply readings_by_refl].
  - cbn [bulk_loop]. unfold bind at 1.
    destruct (bulk_note reading_impl removeFurigana pairs hp n r total i
                nid st w) as [w1 [st1|e]] eqn:E1;
      apply bulk_note_account in E1; destruct E1 as [Hw1 Hc1].
    + intros [Hw2 Hc2]%IH. split.
      * apply (writes_merged_trans [nid] rest w w1 w'); done.
      * apply (readings_by_trans _ _ _ w w1 w'); done.
    + intros [= <- <-]. split.
      * destruct Hw1 as (ws & ? & Hs & ?). exists ws. split; [done|].
        split; [|done]. by apply (sublist_inserts_r rest) in Hs.
      * apply (readings_by_weaken _ (length pairs)); [simpl; lia | done].
Qed.

(** X18: a batch opens one undo entry, whether it writes or not;
    every note it writes is merged into that entry by one call of
    [merge_undo_entries]; and the notes are written in the order of
    [noteIds].  This holds for a batch that fails on the way, too. *)
Theorem bulkGenerate_undo (noteIds : list Z) (pairs : list pair)
    (hp n r : bool) (w : W) :
  exists ws,
    writes (fst (bulkGenerate reading_impl removeFurigana noteIds pairs hp
                   n r w)) = writes w ++ ws
    /\ sublist ws noteIds
    /\ undo_entries (fst (bulkGenerate reading_impl removeFurigana noteIds
                            pairs hp n r w)) = S (undo_entries w)
    /\ undo_merges (fst (bulkGenerate reading_impl removeFurigana noteIds
                           pairs hp n r w))
       = (undo_merges w + length ws)%nat.
Proof.
  unfold bulkGenerate, add_custom_undo_entry, bind.
  match goal with
  | |- context [bulk_loop _ _ _ _ _ _ _ _ _ _ ?w0] => set (w0' := w0)
  end.
  destruct (bulk_loop reading_impl removeFurigana pairs hp n r
              (length noteIds) 0 noteIds (0%Q, 0%nat) w0')
    as [w1 res1] eqn:E.
  apply bulk_loop_account in E. destruct E as ((ws & Hw & Hs & Hm & He) & _).
  exists ws. by destruct res1 as [[? ?]|?].
Qed.

(** X19: every call of the analyzer in a batch carries the two flags
    the batch was given, and the stripped form of a text that is not
    blank; a batch makes at most one call for each note and pair. *)
Theorem bulkGenerate_analyzer_calls (noteIds : list Z) (pairs : list pair)
    (hp n r : bool) (w : W) :
  exists calls,
    readings (fst (bulkGenerate reading_impl removeFurigana noteIds pairs
                     hp n r w)) = readings w ++ calls
    /\ Forall (fun c =>
         exists html : str,
           forallb is_space html = false
           /\ c = (removeFurigana html, n, r)) calls
    /\ (length calls <= length noteIds * length pairs)%nat.
Proof.
  unfold bulkGenerate, add_custom_undo_entry, bind.
  match goal with
  | |- context [bulk_loop _ _ _ _ _ _ _ _ _ _ ?w0] => set (w0' := w0)
  end.
  destruct (bulk_loop reading_impl removeFurigana pairs hp n r
              (length noteIds) 0 noteIds (0%Q, 0%nat) w0')
    as [w1 res1] eqn:E.
  apply bulk_loop_account in E. destruct E as (_ & calls & Hc & Hall & Hlen).
  exists calls. split; [by destruct res1 as [[? ?]|?]|]. split; [|done].
  eapply Forall_impl; [exact Hall|].
  intros c (html & Hb & ->). exists html. by rewrite <- is_blank_spaces.
Qed.


(** X21: an id that the collection does not have stops the loop with
    [NotFoundError] when its turn comes: the notes before it have been
    processed and stay written, the notes after it are not touched. *)
Theorem bulk_loop_unknown_note (pairs : list pair) (hp n r : bool)
    (total i : nat) (l1 l2 : list Z) (nid : Z) (st : Q * nat) (w : W) :
  notes w !! nid = None ->
  bulk_loop reading_impl removeFurigana pairs hp n r total i
    (l1 ++ nid :: l2) st w
  = match bulk_loop reading_impl removeFurigana pairs hp n r total i l1
            st w with
    | (w1, Ok _) => (w1, Raise NotFoundError)
    | (w1, Raise e) => (w1, Raise e)
    end.
Proof.
  revert i st w. induction l1 as [|j rest IH]; intros i st w Hnone.
  - destruct st as [last count]. simpl.
    unfold bind, bulk_note, get_note. unfold bind, get_note.
    by rewrite Hnone.
  - cbn [bulk_loop app]. unfold bind.
    destruct (bulk_note reading_impl removeFurigana pairs hp n r total i j
                st w) as [w1 [st1|e]] eqn:E1; [|done].
    apply IH. destruct st as [last count].
    apply bulk_note_run in E1. destruct E1 as (a & ws & rs & Hr & _).
    pose proof (nr_notes _ _ _ _ _ _ Hr nid) as Hsame.
    rewrite Hnone in Hsame. by inversion Hsame.
Qed.

End BatchAccounts.

(** ** A second batch over the same notes *)

Lemma separate_fields_tail (p : pair) (rest : list pair) :
  separate_fields (p :: rest) -> separate_fields rest.
Proof.
  intros [Hnd Hsrc]. split.
  - unfold dest_fields in *. simpl in Hnd.
    destruct (destination p); [by apply NoDup_cons in Hnd as [_ ?] | done].
  - intros q sf Hq Hsf Hin. apply (Hsrc q sf); [by right | done|].
    by apply dest_fields_cons_r.
Qed.

(** The first pair of separate pairs has its two fields outside the
    destinations of the pairs after it, and they are two fields. *)
Lemma separate_fields_head (p : pair) (rest : list pair)
    (sf df : str) :
  separate_fields (p :: rest) ->
  source p = Some sf -> destination p = Some df ->
  sf <> df /\ (sf ∉ dest_fields rest) /\ (df ∉ dest_fields rest).
Proof.
  intros [Hnd Hsrc] Hsf Hdf.
  assert (sf ∉ dest_fields (p :: rest)) as Hs.
  { apply (Hsrc p sf); [left | done]. }
  split; [|split].
  - intros ->. apply Hs. by apply dest_fields_cons_l.
  - intros Hin. apply Hs. by apply dest_fields_cons_r.
  - unfold dest_fields in *. simpl in Hnd. rewrite Hdf in Hnd.
    by apply NoDup_cons in Hnd as [? _].
Qed.

(** Whether a pair leaves a note alone depends on the two fields of the
    pair only. *)
Lemma pair_settled_stable (gen : str -> str) (flds flds' : gmap str str)
    (p : pair) :
  (forall k, source p = Some k \/ destination p = Some k ->
             flds' !! k = flds !! k) ->
  pair_settled gen flds p -> pair_settled gen flds' p.
Proof.
  intros Hk [Hskip|(sf & df & Hsf & Hdf & Heq)].
  - left. unfold pair_skipped, field_in, has_field in *.
    destruct (source p) as [sf|]; [|done].
    destruct (destination p) as [df|]; [|by rewrite orb_true_r].
    simpl in *. rewrite !lookup_total_alt in *.
    by rewrite (Hk sf), (Hk df) by auto.
  - right. exists sf, df. split; [done|]. split; [done|].
    rewrite !lookup_total_alt in *.
    by rewrite (Hk sf), (Hk df) by auto.
Qed.

Lemma settled_at_same {S : Type} (gen : str -> str) (pairs : list pair)
    (w w' : World S) (nid : Z) :
  notes w' !! nid = notes w !! nid ->
  settled_at gen pairs w nid -> settled_at gen pairs w' nid.
Proof. intros H (note & Hn & Hall). exists note. by rewrite H. Qed.

Section BatchSettles.

Context {MecabState : Type}.
Variable reading_impl :
  MecabState -> str -> bool -> bool -> MecabState * result str.
Variable removeFurigana : str -> str.
Variable f : str -> bool -> bool -> str.
Hypothesis analyzer_answers : answers reading_impl f.
Variable n r : bool.

Local Abbreviation W := (World MecabState).
Local Abbreviation generate := (generateFurigana reading_impl removeFurigana).
Local Abbreviation gen := (generated removeFurigana f n r).

Lemma generate_answers (html : str) (w : W) :
  exists w', generate html n r w = (w', Ok (gen html)).
Proof.
  unfold generateFurigana, generated.
  destruct (is_blank html); [by exists w|].
  unfold bind, mecab_reading, ret.
  pose proof (analyzer_answers (mecab w) (removeFurigana html) n r) as Ha.
  destruct (reading_impl (mecab w) (removeFurigana html) n r) as [m' res].
  simpl in Ha. subst res. by eexists.
Qed.

(** A pair that leaves the note alone: its turn returns the state it
    was given. *)
Lemma pair_settled_noop (nid : Z) (p : pair) (flds : gmap str str)
    (m : bool) (w : W) :
  pair_settled gen flds p ->
  exists w',
    bulk_pair reading_impl removeFurigana nid n r p (flds, m) w
    = (w', Ok (flds, m)).
Proof.
  intros [Hskip|(sf & df & Hsf & Hdf & Heq)].
  - exists w. unfold bulk_pair, pair_skipped in *.
    destruct (falsy (source p) || falsy (destination p)); [done|].
    destruct (source p) as [sf|], (destination p) as [df|]; try done.
    simpl in Hskip. apply negb_true_iff in Hskip. by rewrite Hskip.
  - unfold bulk_pair. rewrite Hsf, Hdf.
    destruct (falsy (Some sf) || falsy (Some df)); [by exists w|].
    destruct (has_field sf flds && has_field df flds
              && truthy (flds !!! sf)); [|by exists w].
    unfold bind at 1.
    destruct (generate_answers (flds !!! sf) w) as [w' ->].
    exists w'. rewrite Heq. unfold Py.eqb.
    by rewrite bool_decide_eq_true_2.
Qed.

Lemma pairs_settled_noop (nid : Z) (pairs : list pair)
    (flds : gmap str str) (m : bool) (w : W) :
  Forall (pair_settled gen flds) pairs ->
  exists w',
    bulk_pairs reading_impl removeFurigana nid n r pairs (flds, m) w
    = (w', Ok (flds, m)).
Proof.
  intros Hall. revert w.
  induction Hall as [|p rest Hp _ IH]; intros w; [by exists w|].
  cbn [bulk_pairs]. unfold bind at 1.
  destruct (pair_settled_noop nid p flds m w Hp) as [w1 ->].
  apply IH.
Qed.

(** After its turn a pair leaves the note alone, when its source is
    not its destination; and a turn that ends with [is_modified] unset
    has assigned nothing. *)
Lemma bulk_pair_settles (nid : Z) (p : pair) (flds flds' : gmap str str)
    (m m' : bool) (w w' : W) :
  (forall sf df, source p = Some sf -> destination p = Some df ->
                 sf <> df) ->
  bulk_pair reading_impl removeFurigana nid n r p (flds, m) w
    = (w', Ok (flds', m')) ->
  pair_settled gen flds' p /\ (m' = false -> flds' = flds /\ m = false).
Proof.
  intros Hne. unfold bulk_pair.
  destruct (falsy (source p) || falsy (destination p)) eqn:Hf.
  { intros [= <- <- <-]. split; [|done].
    left. unfold pair_skipped. by rewrite Hf. }
  destruct (source p) as [sf|] eqn:Hsf; [|done].
  destruct (destination p) as [df|] eqn:Hdf;
    [|by rewrite orb_true_r in Hf].
  destruct (has_field sf flds && has_field df flds
            && truthy (flds !!! sf)) eqn:Hg.
  2:{ intros [= <- <- <-]. split; [|done].
      left. unfold pair_skipped. rewrite Hsf, Hdf, Hf. simpl.
      by rewrite Hg. }
  unfold bind at 1.
  destruct (generate_answers (flds !!! sf) w) as [w1 ->].
  destruct (negb (Py.eqb (flds !!! df) (gen (flds !!! sf)))) eqn:Hc.
  - unfold bind, assign_field, ret. intros [= <- <- <-].
    split; [|done]. right. exists sf, df.
    split; [done|]. split; [done|].
    rewrite lookup_total_insert_eq, lookup_total_insert_ne; [done|].
    intros Heq. by apply (Hne sf df).
  - intros [= <- <- <-]. split; [|done]. right. exists sf, df.
    split; [done|]. split; [done|].
    by apply negb_false_iff, eqb_true in Hc.
Qed.

Lemma bulk_pairs_settles (nid : Z) (pairs : list pair)
    (flds flds' : gmap str str) (m m' : bool) (w w' : W) :
  separate_fields pairs ->
  bulk_pairs reading_impl removeFurigana nid n r pairs (flds, m) w
    = (w', Ok (flds', m')) ->
  Forall (pair_settled gen flds') pairs
  /\ (m' = false -> flds' = flds /\ m = false).
Proof.
  revert flds m w. induction pairs as [|p rest IH]; intros flds m w Hsep.
  - intros [= <- <- <-]. by split.
  - cbn [bulk_pairs]. unfold bind at 1.
    destruct (bulk_pair reading_impl removeFurigana nid n r p (flds, m) w)
      as [w1 [[flds1 m1]|e]] eqn:E1; [|done].
    intros E2.
    apply bulk_pair_settles in E1.
    2:{ intros sf df Hsf Hdf.
        by destruct (separate_fields_head p rest sf df Hsep Hsf Hdf). }
    destruct E1 as [Hp Hm1].
    pose proof (bulk_pairs_run _ _ _ _ _ _ _ _ _ _ _ E2) as (_ & _ & Hf & _).
    apply IH in E2; [|by eapply separate_fields_tail].
    destruct E2 as [Hrest Hm2]. split.
    + constructor; [|done].
      apply (pair_settled_stable gen flds1); [|done].
      intros k [Hk|Hk]; apply Hf.
      * destruct (destination p) as [df|] eqn:Hdf.
        -- by destruct (separate_fields_head p rest k df Hsep Hk Hdf)
             as (_ & ? & _).
        -- destruct Hsep as [_ Hsrc]. intros Hin.
           apply (Hsrc p k); [left | done|]. by apply dest_fields_cons_r.
      * destruct Hsep as [Hnd _]. unfold dest_fields in *. simpl in Hnd.
        rewrite Hk in Hnd. by apply NoDup_cons in Hnd as [? _].
    + intros Hm'. destruct (Hm2 Hm') as [-> Hm1'].
      by destruct (Hm1 Hm1') as [-> ->].
Qed.

(** After its turn that returns, a note is one that every pair leaves
    alone. *)
Lemma bulk_note_settles (pairs : list pair) (hp : bool) (total i : nat)
    (nid : Z) (st st' : Q * nat) (w w' : W) :
  separate_fields pairs ->
  bulk_note reading_impl removeFurigana pairs hp n r total i nid st w
    = (w', Ok st') ->
  settled_at gen pairs w' nid.
Proof.
  intros Hsep. destruct st as [last count].
  intros [(_ & _ & ?)|(note & w1 & res1 & Hnote & E1 & Hrest)]%
    bulk_note_cases; [done|].
  destruct res1 as [[flds m]|e]; [|by destruct Hrest].
  pose proof (bulk_pairs_run _ _ _ _ _ _ _ _ _ _ _ E1) as (a & Hr & _).
  apply bulk_pairs_settles in E1; [|done]. destruct E1 as [Hall Hm].
  destruct m; apply progress_step_quiet in Hrest;
    destruct Hrest as (_ & Hn & _).
  - exists (mkNote flds (deck note)). split; [|done].
    rewrite Hn. simpl. apply lookup_insert_eq.
  - destruct (Hm eq_refl) as [-> _]. exists note. split; [|done].
    by rewrite Hn, (pr_notes _ _ _ _ _ Hr).
Qed.

(** A turn of the loop keeps the notes that every pair leaves alone as
    they are. *)
Lemma bulk_note_keeps_settled (pairs : list pair) (hp : bool)
    (total i : nat) (nid k : Z) (st : Q * nat) (w w' : W)
    (res : result (Q * nat)) :
  settled_at gen pairs w k ->
  bulk_note reading_impl removeFurigana pairs hp n r total i nid st w
    = (w', res) ->
  settled_at gen pairs w' k.
Proof.
  intros Hk. destruct st as [last count].
  intros [(_ & -> & _)|(note & w1 & res1 & Hnote & E1 & Hrest)]%
    bulk_note_cases; [done|].
  apply (settled_at_same gen pairs w); [|done].
  pose proof (bulk_pairs_run _ _ _ _ _ _ _ _ _ _ _ E1) as (a & Hr & _).
  pose proof (pr_notes _ _ _ _ _ Hr) as Hn1.
  destruct (decide (nid = k)) as [->|Hne].
  - destruct Hk as (note' & Hnote' & Hall).
    rewrite Hnote in Hnote'. injection Hnote' as <-.
    destruct (pairs_settled_noop k pairs (fields note) false w Hall)
      as [w0 E0].
    rewrite E0 in E1. injection E1 as <- <-.
    apply progress_step_quiet in Hrest. destruct Hrest as (_ & Hn & _).
    by rewrite Hn, Hn1.
  - destruct res1 as [[flds [|]]|e].
    + apply progress_step_quiet in Hrest. destruct Hrest as (_ & Hn & _).
      rewrite Hn. simpl. rewrite lookup_insert_ne by done. by rewrite Hn1.
    + apply progress_step_quiet in Hrest. destruct Hrest as (_ & Hn & _).
      by rewrite Hn, Hn1.
    + destruct Hrest as [-> _]. by rewrite Hn1.
Qed.

Lemma bulk_loop_keeps_settled (pairs : list pair) (hp : bool)
    (total : nat) (ids : list Z) (i : nat) (k : Z) (st : Q * nat)
    (w w' : W) (res : result (Q * nat)) :
  settled_at gen pairs w k ->
  bulk_loop reading_impl removeFurigana pairs hp n r total i ids st w
    = (w', res) ->
  settled_at gen pairs w' k.
Proof.
  revert i st w. induction ids as [|nid rest IH]; intros i st w Hk.
  - by intros [= <- <-].
  - cbn [bulk_loop]. unfold bind at 1.
    destruct (bulk_note reading_impl removeFurigana pairs hp n r total i
                nid st w) as [w1 [st1|e]] eqn:E1;
      apply (bulk_note_keeps_settled _ _ _ _ _ k _ _ _ _ Hk) in E1.
    + by apply IH.
    + by intros [= <- <-].
Qed.

(** After a loop that returns, every note of the list is one that
    every pair leaves alone. *)
Lemma bulk_loop_settles (pairs : list pair) (hp : bool) (total : nat)
    (ids : list Z) (i : nat) (st st' : Q * nat) (w w' : W) :
  separate_fields pairs ->
  bulk_loop reading_impl removeFurigana pairs hp n r total i ids st w
    = (w', Ok st') ->
  forall k, k ∈ ids -> settled_at gen pairs w' k.
Proof.
  intros Hsep. revert i st w.
  induction ids as [|nid rest IH]; intros i st w.
  - by intros _ k ?%elem_of_nil.
  - cbn [bulk_loop]. unfold bind at 1.
    destruct (bulk_note reading_impl removeFurigana pairs hp n r total i
                nid st w) as [w1 [st1|e]] eqn:E1; [|done].
    intros E2 k [->|Hin]%elem_of_cons.
    + apply bulk_note_settles in E1; [|done].
      by eapply bulk_loop_keeps_settled.
    + by eapply IH.
Qed.

(** The loop over notes that every pair leaves alone returns the count
    it was given and leaves the collection and the logs of writes and
    assignments as they are. *)
Lemma bulk_loop_settled_noop (pairs : list pair) (hp : bool)
    (total : nat) (ids : list Z) (i : nat) (last : Q) (count : nat)
    (w : W) :
  (forall k, k ∈ ids -> settled_at gen pairs w k) ->
  exists w' last',
    bulk_loop reading_impl removeFurigana pairs hp n r total i ids
      (last, count) w = (w', Ok (last', count))
    /\ notes w' = notes w /\ writes w' = writes w
    /\ assigns w' = assigns w.
Proof.
  revert i last w. induction ids as [|nid rest IH]; intros i last w Hall.
  - by exists w, last.
  - destruct (Hall nid) as (note & Hnote & Hset); [left|].
    destruct (pairs_settled_noop nid pairs (fields note) false w Hset)
      as [w0 E0].
    pose proof (bulk_pairs_run _ _ _ _ _ _ _ _ _ _ _ E0)
      as (added & Hr & _ & Hm).
    assert (added = []) as ->.
    { destruct added; [done|]. destruct Hm as [_ Hm].
      by discriminate Hm; right. }
    destruct Hr as [Hn0 Hw0 _ _ _ _ _ Ha0 _]. rewrite app_nil_r in Ha0.
    destruct (bind (update_progress hp total i last)
                (fun l => ret (l, count)) w0) as [w1 res1] eqn:E1.
    assert (bulk_note reading_impl removeFurigana pairs hp n r total i nid
              (last, count) w = (w1, res1)) as Hturn.
    { unfold bulk_note. unfold bind at 1. unfold get_note at 1.
      rewrite Hnote. unfold bind at 1. rewrite E0. exact E1. }
    apply progress_step_quiet in E1.
    destruct E1 as ([last1 ->] & Hn1 & Hw1 & Ha1 & _).
    destruct (IH (S i) last1 w1) as (w' & last' & E2 & Hn2 & Hw2 & Ha2).
    { intros k Hk. apply (settled_at_same gen pairs w).
      - by rewrite Hn1, Hn0.
      - apply Hall. by right. }
    exists w', last'. split.
    + cbn [bulk_loop]. unfold bind at 1. by rewrite Hturn.
    + split; [congruence|]. split; congruence.
Qed.

End BatchSettles.

(** X22: with an analyzer that never fails and whose answer depends on
    its arguments only, and with field pairs of which no source is a
    destination and no two have the same destination, a batch that has
    returned has nothing left to do: a second batch over the same notes
    with the same flags returns 0 and changes no note, writes none and
    assigns no field. *)
Theorem bulkGenerate_twice {MecabState : Type}
    (reading_impl :
       MecabState -> str -> bool -> bool -> MecabState * result str)
    (removeFurigana : str -> str) (f : str -> bool -> bool -> str)
    (noteIds : list Z) (pairs : list pair) (hp hp' n r : bool)
    (w w1 : World MecabState) (count : nat) :
  answers reading_impl f ->
  separate_fields pairs ->
  bulkGenerate reading_impl removeFurigana noteIds pairs hp n r w
    = (w1, Ok count) ->
  exists w2,
    bulkGenerate reading_impl removeFurigana noteIds pairs hp' n r w1
    = (w2, Ok 0%nat)
    /\ notes w2 = notes w1 /\ writes w2 = writes w1
    /\ assigns w2 = assigns w1.
Proof.
  intros Hans Hsep. unfold bulkGenerate.
  unfold bind at 1. unfold add_custom_undo_entry at 1. unfold bind at 1.
  match goal with
  | |- context [bulk_loop _ _ _ _ _ _ _ _ _ _ ?w0] => set (w0' := w0)
  end.
  destruct (bulk_loop reading_impl removeFurigana pairs hp n r
              (length noteIds) 0 noteIds (0%Q, 0%nat) w0')
    as [w1' [st1|e]] eqn:E; [|done].
  intros [= <- <-].
  pose proof (bulk_loop_settles reading_impl removeFurigana f Hans n r
                _ _ _ _ _ _ _ _ _ Hsep E) as Hall.
  unfold bind at 1. unfold add_custom_undo_entry at 1. unfold bind at 1.
  match goal with
  | |- context [bulk_loop _ _ _ _ _ _ _ _ _ _ ?w0] => set (w1'' := w0)
  end.
  destruct (bulk_loop_settled_noop reading_impl removeFurigana f Hans n r
              pairs hp' (length noteIds) noteIds 0 0%Q 0%nat w1'')
    as (w2 & last' & E2 & Hn & Hw & Ha).
  { intros k Hk. by apply (settled_at_same _ pairs w1'), Hall. }
  exists w2. rewrite E2. done.
Qed.

(** ** The update step of the scan and the step of the batch *)

Section ScanVersusBatch.

Context {MecabState : Type}.
Variable reading_impl :
  MecabState -> str -> bool -> bool -> MecabState * result str.
Variable removeFurigana : str -> str.

(** X23: for a pair whose two field names are not empty, the step of
    the update loop of the scan is the step of the batch, with the
    flags of the configuration, behind the test of the scan: it does
    what the batch does for the pair when the pair passes the test on
    the loaded note, and nothing otherwise. *)
Theorem update_pair_guards_bulk_pair (cfg : Config) (nid : Z) (p : pair)
    (st : gmap str str * bool) (w : World MecabState) :
  falsy (source p) = false ->
  falsy (destination p) = false ->
  update_pair reading_impl removeFurigana cfg nid p st w
  = if pair_needs (fst st) p
    then bulk_pair reading_impl removeFurigana nid (getIgnoreNumbers cfg)
           (getUseRubyTags cfg) p st w
    else (w, Ok st).
Proof.
  destruct st as [flds m]. intros Hs Hd.
  unfold update_pair, bulk_pair, pair_needs, needsGeneration.
  rewrite Hs, Hd. change (false || false) with false. cbv iota. simpl fst.
  destruct (source p) as [sf|]; [|done].
  destruct (destination p) as [df|]; [|done].
  destruct (has_field sf flds && has_field df flds
            && truthy (flds !!! sf)); [|done].
  simpl andb.
  destruct (is_field_effectively_empty (flds !!! df)
            || Py.eqb (flds !!! sf) (flds !!! df)); [|done].
  unfold bind at 1 3.
  destruct (generateFurigana reading_impl removeFurigana (flds !!! sf)
              (getIgnoreNumbers cfg) (getUseRubyTags cfg) w)
    as [w1 [g|e]]; [|done].
  replace (Py.eqb (flds !!! df) g) with (Py.eqb g (flds !!! df)); [done|].
  unfold Py.eqb. apply bool_decide_ext. split; congruence.
Qed.

End ScanVersusBatch.

(** ** A second scan of the same collection *)

Lemma dest_fields_sublist (l k : list pair) :
  sublist l k -> sublist (dest_fields l) (dest_fields k).
Proof.
  unfold dest_fields. induction 1 as [|p l k _ IH|p l k _ IH]; simpl.
  - constructor.
  - destruct (destination p); [by constructor | done].
  - destruct (destination p); [by constructor | done].
Qed.

Lemma separate_fields_sublist (l k : list pair) :
  sublist l k -> separate_fields k -> separate_fields l.
Proof.
  intros Hs [Hnd Hsrc]. apply dest_fields_sublist in Hs as Hd. split.
  - by eapply sublist_NoDup.
  - intros p sf Hp Hsf Hin. apply (Hsrc p sf); [|done|].
    + by eapply elem_of_sublist.
    + by eapply elem_of_sublist.
Qed.

Lemma applicable_pairs_sublist (deck_name : str) (rules : list rule) :
  sublist (applicable_pairs deck_name rules) (rule_pairs rules).
Proof.
  induction rules as [|r rest IH]; [constructor|].
  cbn [applicable_pairs]. unfold rule_pairs. simpl.
  apply sublist_app; [|exact IH].
  destruct (rule_applies deck_name r); [done | apply sublist_nil_l].
Qed.

Lemma pairs_for_separate (note_deck : option str) (rules : list rule) :
  separate_fields (rule_pairs rules) ->
  separate_fields (pairs_for note_deck rules).
Proof.
  destruct note_deck as [d|]; simpl.
  - apply separate_fields_sublist, applicable_pairs_sublist.
  - intros _. split; [constructor|]. by intros p sf ?%elem_of_nil.
Qed.

(** Whether the update step leaves a note alone for a pair depends on
    the two fields of the pair only. *)
Lemma pair_quiet_stable (gen : str -> str) (flds flds' : gmap str str)
    (p : pair) :
  (forall k, source p = Some k \/ destination p = Some k ->
             flds' !! k = flds !! k) ->
  pair_quiet gen flds p -> pair_quiet gen flds' p.
Proof.
  intros Hk [Hno|(sf & df & Hsf & Hdf & Heq)].
  - left. unfold pair_needs, has_field in *.
    destruct (source p) as [sf|]; [|done].
    destruct (destination p) as [df|]; [|done].
    rewrite !lookup_total_alt in *.
    by rewrite (Hk sf), (Hk df) by auto.
  - right. exists sf, df. split; [done|]. split; [done|].
    rewrite !lookup_total_alt in *.
    by rewrite (Hk sf), (Hk df) by auto.
Qed.

Lemma quiet_at_same {S : Type} (gen : str -> str) (rules : list rule)
    (w w' : World S) (nid : Z) :
  notes w' !! nid = notes w !! nid ->
  quiet_at gen rules w nid -> quiet_at gen rules w' nid.
Proof. intros H (note & Hn & Hall). exists note. by rewrite H. Qed.

Lemma rule_selects_same (search : str -> Z -> Note -> bool)
    (rules : list rule) (ns ns' : gmap Z Note) (nid : Z) :
  ns' !! nid = ns !! nid ->
  rule_selects search rules ns nid -> rule_selects search rules ns' nid.
Proof.
  intros H (r & name & note & ? & ? & ? & Hn & ?).
  exists r, name, note. by rewrite H.
Qed.

Section UpdateShape.

Context {MecabState : Type}.
Variable reading_impl :
  MecabState -> str -> bool -> bool -> MecabState * result str.
Variable removeFurigana : str -> str.
Variable cfg : Config.

Local Abbreviation W := (World MecabState).

Lemma update_pairs_app (nid : Z) (l1 l2 : list pair)
    (st : gmap str str * bool) (w : W) :
  update_pairs reading_impl removeFurigana cfg nid (l1 ++ l2) st w
  = bind (update_pairs reading_impl removeFurigana cfg nid l1 st)
      (fun st' => update_pairs reading_impl removeFurigana cfg nid l2 st')
      w.
Proof.
  revert st w. induction l1 as [|p rest IH]; intros st w.
  - done.
  - cbn [update_pairs app]. unfold bind.
    destruct (update_pair reading_impl removeFurigana cfg nid p st w)
      as [w1 [st1|e]]; [|done].
    specialize (IH st1 w1). unfold bind in IH. exact IH.
Qed.

(** When the loop over the rules has no rule to stumble over, it is the
    loop over the pairs of the rules that apply to the note. *)
Lemma update_rules_flat (nid : Z) (note_deck : option str)
    (rules : list rule) (st : gmap str str * bool) (w : W) :
  rules_fit note_deck rules ->
  update_rules reading_impl removeFurigana cfg nid note_deck rules st w
  = update_pairs reading_impl removeFurigana cfg nid
      (pairs_for note_deck rules) st w.
Proof.
  intros Hfit. destruct note_deck as [d|].
  - destruct Hfit as [?|Hall]; [done|]. simpl pairs_for. revert st w.
    induction Hall as [|r rest [name Hname] _ IH]; intros st w; [done|].
    cbn [update_rules applicable_pairs]. rewrite update_pairs_app.
    unfold bind. unfold update_rule at 1. unfold rule_applies.
    rewrite Hname.
    destruct (Py.eqb d name || startswith (name ++ lit "::") d).
    + destruct (update_pairs reading_impl removeFurigana cfg nid
                  (fieldPairs r) st w) as [w1 [st1|e]]; [apply IH | done].
    + apply IH.
  - simpl pairs_for. clear Hfit. revert st w.
    induction rules as [|r rest IH]; intros st w; [done|].
    cbn [update_rules]. unfold bind, update_rule, ret. apply IH.
Qed.

(** A loop over the rules that returns had no rule to stumble over. *)
Lemma update_rules_ok_fit (nid : Z) (note_deck : option str)
    (rules : list rule) (st st' : gmap str str * bool) (w w' : W) :
  update_rules reading_impl removeFurigana cfg nid note_deck rules st w
    = (w', Ok st') ->
  rules_fit note_deck rules.
Proof.
  destruct note_deck as [d|]; [|by left]. intros E. right. revert st w E.
  induction rules as [|r rest IH]; intros st w; [constructor|].
  cbn [update_rules]. unfold bind at 1.
  destruct (update_rule reading_impl removeFurigana cfg nid (Some d) r st w)
    as [w1 [st1|e]] eqn:E1; [|done].
  intros E2. constructor; [|by eapply IH].
  unfold update_rule in E1. destruct (deckName r); [by eexists | done].
Qed.

(** The ways of one turn of the loop of [do_update]. *)
Lemma update_one_cases (rules : list rule) (nid : Z) (count : nat)
    (w w' : W) (res : result nat) :
  update_one reading_impl removeFurigana cfg rules nid count w
    = (w', res) ->
  (notes w !! nid = None /\ w' = w /\ res = Raise NotFoundError)
  \/ exists note w1 res1,
       notes w !! nid = Some note
       /\ update_rules reading_impl removeFurigana cfg nid (deck note)
            rules (fields note, false) w = (w1, res1)
       /\ notes w1 = notes w /\ writes w1 = writes w
       /\ match res1 with
          | Raise e => w' = w1 /\ res = Raise e
          | Ok (flds, false) => w' = w1 /\ res = Ok count
          | Ok (flds, true) =>
              w' = fst (store_note nid (mkNote flds (deck note)) w1)
              /\ res = Ok (S count)
          end.
Proof.
  unfold update_one. unfold bind at 1. unfold get_note at 1.
  destruct (notes w !! nid) as [note|].
  2:{ intros [= <- <-]. by left. }
  unfold bind at 1.
  destruct (update_rules reading_impl removeFurigana cfg nid (deck note)
              rules (fields note, false) w) as [w1 res1] eqn:E1.
  pose proof (update_rules_run _ _ _ _ _ _ _ _ _ _ _ E1) as (a & Hr & _).
  destruct Hr as [Hn Hw _ _ _ _ _ _ _].
  destruct res1 as [[flds [|]]|e]; intros [= <- <-]; right;
    eexists note, w1, _; (split; [done|]); (split; [done|]);
    (split; [done|]); (split; [done|]); done.
Qed.

(** A turn of the loop changes no note but its own. *)
Lemma update_one_other (rules : list rule) (nid k : Z) (count : nat)
    (w w' : W) (res : result nat) :
  k <> nid ->
  update_one reading_impl removeFurigana cfg rules nid count w
    = (w', res) ->
  notes w' !! k = notes w !! k.
Proof.
  intros Hne
    [(_ & -> & _)|(note & w1 & res1 & _ & _ & Hn & _ & Hrest)]%
      update_one_cases; [done|].
  destruct res1 as [[flds [|]]|e]; destruct Hrest as [-> _].
  - simpl. rewrite lookup_insert_ne by done. by rewrite Hn.
  - by rewrite Hn.
  - by rewrite Hn.
Qed.

Lemma update_loop_other (rules : list rule) (nids : list Z) (k : Z)
    (count : nat) (w w' : W) (res : result nat) :
  k ∉ nids ->
  update_loop reading_impl removeFurigana cfg rules nids count w
    = (w', res) ->
  notes w' !! k = notes w !! k.
Proof.
  revert count w. induction nids as [|nid rest IH]; intros count w Hk.
  - by intros [= <- <-].
  - apply not_elem_of_cons in Hk. destruct Hk as [Hne Hk].
    cbn [update_loop]. unfold bind at 1.
    destruct (update_one reading_impl removeFurigana cfg rules nid count w)
      as [w1 [count1|e]] eqn:E1; apply (update_one_other _ _ k) in E1;
      try done.
    + intros E2%IH; [|done]. congruence.
    + by intros [= <- <-].
Qed.

End UpdateShape.

Section UpdateSettles.

Context {MecabState : Type}.
Variable reading_impl :
  MecabState -> str -> bool -> bool -> MecabState * result str.
Variable removeFurigana : str -> str.
Variable f : str -> bool -> bool -> str.
Hypothesis analyzer_answers : answers reading_impl f.
Variable cfg : Config.

Local Abbreviation W := (World MecabState).
Local Abbreviation generate := (generateFurigana reading_impl removeFurigana).
Local Abbreviation gen :=
  (generated removeFurigana f (getIgnoreNumbers cfg) (getUseRubyTags cfg)).

(** A pair that the update step leaves alone: its turn returns the
    state it was given. *)
Lemma pair_quiet_noop (nid : Z) (p : pair) (flds : gmap str str)
    (m : bool) (w : W) :
  pair_quiet gen flds p ->
  exists w',
    update_pair reading_impl removeFurigana cfg nid p (flds, m) w
    = (w', Ok (flds, m)).
Proof.
  intros [Hno|(sf & df & Hsf & Hdf & Heq)].
  - exists w. unfold update_pair, pair_needs, needsGeneration in *.
    destruct (source p) as [sf|]; [|done].
    destruct (destination p) as [df|]; [|done].
    destruct (has_field sf flds && has_field df flds
              && truthy (flds !!! sf)); [|done].
    simpl in Hno. by rewrite Hno.
  - unfold update_pair. rewrite Hsf, Hdf.
    destruct (has_field sf flds && has_field df flds
              && truthy (flds !!! sf)); [|by exists w].
    destruct (is_field_effectively_empty (flds !!! df)
              || Py.eqb (flds !!! sf) (flds !!! df)); [|by exists w].
    unfold bind at 1.
    destruct (generate_answers reading_impl removeFurigana f
                analyzer_answers (getIgnoreNumbers cfg) (getUseRubyTags cfg)
                (flds !!! sf) w) as [w' ->].
    exists w'. rewrite <- Heq. unfold Py.eqb.
    by rewrite bool_decide_eq_true_2.
Qed.

Lemma pairs_quiet_noop (nid : Z) (pairs : list pair)
    (flds : gmap str str) (m : bool) (w : W) :
  Forall (pair_quiet gen flds) pairs ->
  exists w',
    update_pairs reading_impl removeFurigana cfg nid pairs (flds, m) w
    = (w', Ok (flds, m)).
Proof.
  intros Hall. revert w.
  induction Hall as [|p rest Hp _ IH]; intros w; [by exists w|].
  cbn [update_pairs]. unfold bind at 1.
  destruct (pair_quiet_noop nid p flds m w Hp) as [w1 ->].
  apply IH.
Qed.

(** After its turn the update step leaves the note alone for the pair,
    when the source of the pair is not its destination; and a turn that
    ends with [note_was_modified] unset has assigned nothing. *)
Lemma update_pair_settles (nid : Z) (p : pair) (flds flds' : gmap str str)
    (m m' : bool) (w w' : W) :
  (forall sf df, source p = Some sf -> destination p = Some df ->
                 sf <> df) ->
  update_pair reading_impl removeFurigana cfg nid p (flds, m) w
    = (w', Ok (flds', m')) ->
  pair_quiet gen flds' p /\ (m' = false -> flds' = flds /\ m = false).
Proof.
  intros Hne. unfold update_pair.
  destruct (source p) as [sf|] eqn:Hsf.
  2:{ intros [= <- <- <-]. split; [|done].
      left. unfold pair_needs. by rewrite Hsf. }
  destruct (destination p) as [df|] eqn:Hdf.
  2:{ intros [= <- <- <-]. split; [|done].
      left. unfold pair_needs. by rewrite Hsf, Hdf. }
  destruct (has_field sf flds && has_field df flds
            && truthy (flds !!! sf)) eqn:Hg.
  2:{ intros [= <- <- <-]. split; [|done].
      left. unfold pair_needs. by rewrite Hsf, Hdf, Hg. }
  destruct (is_field_effectively_empty (flds !!! df)
            || Py.eqb (flds !!! sf) (flds !!! df)) eqn:Ht.
  2:{ intros [= <- <- <-]. split; [|done].
      left. unfold pair_needs, needsGeneration.
      by rewrite Hsf, Hdf, Hg, Ht. }
  unfold bind at 1.
  destruct (generate_answers reading_impl removeFurigana f
              analyzer_answers (getIgnoreNumbers cfg) (getUseRubyTags cfg)
              (flds !!! sf) w) as [w1 ->].
  destruct (negb (Py.eqb (gen (flds !!! sf)) (flds !!! df))) eqn:Hc.
  - unfold bind, assign_field, ret. intros [= <- <- <-].
    split; [|done]. right. exists sf, df.
    split; [done|]. split; [done|].
    rewrite lookup_total_insert_eq, lookup_total_insert_ne; [done|].
    intros Heq. by apply (Hne sf df).
  - intros [= <- <- <-]. split; [|done]. right. exists sf, df.
    split; [done|]. split; [done|].
    by apply negb_false_iff, eqb_true in Hc.
Qed.

Lemma update_pairs_settles (nid : Z) (pairs : list pair)
    (flds flds' : gmap str str) (m m' : bool) (w w' : W) :
  separate_fields pairs ->
  update_pairs reading_impl removeFurigana cfg nid pairs (flds, m) w
    = (w', Ok (flds', m')) ->
  Forall (pair_quiet gen flds') pairs
  /\ (m' = false -> flds' = flds /\ m = false).
Proof.
  revert flds m w. induction pairs as [|p rest IH]; intros flds m w Hsep.
  - intros [= <- <- <-]. by split.
  - cbn [update_pairs]. unfold bind at 1.
    destruct (update_pair reading_impl removeFurigana cfg nid p (flds, m) w)
      as [w1 [[flds1 m1]|e]] eqn:E1; [|done].
    intros E2.
    apply update_pair_settles in E1.
    2:{ intros sf df Hsf Hdf.
        by destruct (separate_fields_head p rest sf df Hsep Hsf Hdf). }
    destruct E1 as [Hp Hm1].
    pose proof (update_pairs_run _ _ _ _ _ _ _ _ _ _ E2)
      as (_ & _ & Hf & _).
    apply IH in E2; [|by eapply separate_fields_tail].
    destruct E2 as [Hrest Hm2]. split.
    + constructor; [|done].
      apply (pair_quiet_stable gen flds1); [|done].
      intros k [Hk|Hk]; apply Hf.
      * destruct (destination p) as [df|] eqn:Hdf.
        -- by destruct (separate_fields_head p rest k df Hsep Hk Hdf)
             as (_ & ? & _).
        -- destruct Hsep as [_ Hsrc]. intros Hin.
           apply (Hsrc p k); [left | done|]. by apply dest_fields_cons_r.
      * destruct Hsep as [Hnd _]. unfold dest_fields in *. simpl in Hnd.
        rewrite Hk in Hnd. by apply NoDup_cons in Hnd as [? _].
    + intros Hm'. destruct (Hm2 Hm') as [-> Hm1'].
      by destruct (Hm1 Hm1') as [-> ->].
Qed.

(** After its turn that returns, a note is one that the update step
    leaves alone. *)
Lemma update_one_settles (rules : list rule) (nid : Z) (count count' : nat)
    (w w' : W) :
  separate_fields (rule_pairs rules) ->
  update_one reading_impl removeFurigana cfg rules nid count w
    = (w', Ok count') ->
  quiet_at gen rules w' nid.
Proof.
  intros Hsep
    [(_ & _ & ?)|(note & w1 & res1 & Hnote & E1 & Hn & _ & Hrest)]%
      update_one_cases; [done|].
  destruct res1 as [[flds m]|e]; [|by destruct Hrest].
  pose proof (update_rules_ok_fit _ _ _ _ _ _ _ _ _ _ E1) as Hfit.
  rewrite update_rules_flat in E1 by done.
  apply update_pairs_settles in E1; [|by apply pairs_for_separate].
  destruct E1 as [Hall Hm].
  destruct m; destruct Hrest as [-> _].
  - exists (mkNote flds (deck note)). split; [apply lookup_insert_eq|].
    by split.
  - destruct (Hm eq_refl) as [-> _]. exists note. rewrite Hn. by split.
Qed.

(** A turn of the loop keeps the notes that the update step leaves
    alone as they are. *)
Lemma update_one_keeps_quiet (rules : list rule) (nid k : Z) (count : nat)
    (w w' : W) (res : result nat) :
  quiet_at gen rules w k ->
  update_one reading_impl removeFurigana cfg rules nid count w
    = (w', res) ->
  quiet_at gen rules w' k.
Proof.
  intros Hk E. apply (quiet_at_same gen rules w); [|done].
  destruct (decide (k = nid)) as [->|Hne];
    [|by eapply update_one_other].
  apply update_one_cases in E.
  destruct E as [(_ & -> & _)
                |(note & w1 & res1 & Hnote & E1 & Hn & _ & Hrest)]; [done|].
  destruct Hk as (note' & Hnote' & Hfit & Hall).
  rewrite Hnote in Hnote'. injection Hnote' as <-.
  rewrite update_rules_flat in E1 by done.
  destruct (pairs_quiet_noop nid (pairs_for (deck note) rules) (fields note)
              false w Hall) as [w0 E0].
  rewrite E0 in E1. injection E1 as <- <-.
  destruct Hrest as [-> _]. by rewrite Hn.
Qed.

Lemma update_loop_keeps_quiet (rules : list rule) (nids : list Z) (k : Z)
    (count : nat) (w w' : W) (res : result nat) :
  quiet_at gen rules w k ->
  update_loop reading_impl removeFurigana cfg rules nids count w
    = (w', res) ->
  quiet_at gen rules w' k.
Proof.
  revert count w. induction nids as [|nid rest IH]; intros count w Hk.
  - by intros [= <- <-].
  - cbn [update_loop]. unfold bind at 1.
    destruct (update_one reading_impl removeFurigana cfg rules nid count w)
      as [w1 [count1|e]] eqn:E1;
      apply (update_one_keeps_quiet _ _ k _ _ _ _ Hk) in E1.
    + by apply IH.
    + by intros [= <- <-].
Qed.

(** After an update step that returns, every note of the list is one
    that the update step leaves alone. *)
Lemma update_loop_settles (rules : list rule) (nids : list Z)
    (count count' : nat) (w w' : W) :
  separate_fields (rule_pairs rules) ->
  update_loop reading_impl removeFurigana cfg rules nids count w
    = (w', Ok count') ->
  forall k, k ∈ nids -> quiet_at gen rules w' k.
Proof.
  intros Hsep. revert count w.
  induction nids as [|nid rest IH]; intros count w.
  - by intros _ k ?%elem_of_nil.
  - cbn [update_loop]. unfold bind at 1.
    destruct (update_one reading_impl removeFurigana cfg rules nid count w)
      as [w1 [count1|e]] eqn:E1; [|done].
    intros E2 k [->|Hin]%elem_of_cons.
    + apply update_one_settles in E1; [|done].
      by eapply update_loop_keeps_quiet.
    + by eapply IH.
Qed.

(** The update step over notes that it leaves alone returns the count
    it was given and leaves the collection and the logs of writes and
    assignments as they are. *)
Lemma update_loop_quiet_noop (rules : list rule) (nids : list Z)
    (count : nat) (w : W) :
  (forall k, k ∈ nids -> quiet_at gen rules w k) ->
  exists w',
    update_loop reading_impl removeFurigana cfg rules nids count w
    = (w', Ok count)
    /\ notes w' = notes w /\ writes w' = writes w
    /\ assigns w' = assigns w.
Proof.
  revert w. induction nids as [|nid rest IH]; intros w Hall.
  - by exists w.
  - destruct (Hall nid) as (note & Hnote & Hfit & Hset); [left|].
    destruct (pairs_quiet_noop nid (pairs_for (deck note) rules)
                (fields note) false w Hset) as [w0 E0].
    pose proof (update_pairs_run _ _ _ _ _ _ _ _ _ _ E0)
      as (added & Hr & _ & Hm).
    assert (added = []) as ->.
    { destruct added; [done|]. destruct Hm as [_ Hm].
      by discriminate Hm; right. }
    destruct Hr as [Hn0 Hw0 _ _ _ _ _ Ha0 _]. rewrite app_nil_r in Ha0.
    assert (update_one reading_impl removeFurigana cfg rules nid count w
            = (w0, Ok count)) as Hturn.
    { unfold update_one. unfold bind at 1. unfold get_note at 1.
      rewrite Hnote. unfold bind at 1.
      rewrite update_rules_flat by done. by rewrite E0. }
    destruct (IH w0) as (w' & E2 & Hn2 & Hw2 & Ha2).
    { intros k Hk. apply (quiet_at_same gen rules w).
      - by rewrite Hn0.
      - apply Hall. by right. }
    exists w'. split.
    + cbn [update_loop]. unfold bind at 1. by rewrite Hturn.
    + split; [congruence|]. split; congruence.
Qed.

End UpdateSettles.

(** X24: with an analyzer that never fails and whose answer depends on
    its arguments only, and with rules of which no source field is a
    destination field and no two pairs have the same destination field,
    an update step that has returned has nothing left to do: run again
    on any of its notes it returns 0, changes no note, writes none and
    assigns no field. *)
Theorem do_update_twice {MecabState : Type}
    (reading_impl :
       MecabState -> str -> bool -> bool -> MecabState * result str)
    (removeFurigana : str -> str) (f : str -> bool -> bool -> str)
    (cfg : Config) (rules : list rule) (nids again : list Z)
    (w w1 : World MecabState) (count : nat) :
  answers reading_impl f ->
  separate_fields (rule_pairs rules) ->
  do_update reading_impl removeFurigana cfg rules nids w = (w1, Ok count) ->
  again ⊆ nids ->
  exists w2,
    do_update reading_impl removeFurigana cfg rules again w1
    = (w2, Ok 0%nat)
    /\ notes w2 = notes w1 /\ writes w2 = writes w1
    /\ assigns w2 = assigns w1.
Proof.
  intros Hans Hsep E Hsub. unfold do_update in *.
  pose proof (update_loop_settles reading_impl removeFurigana f Hans cfg
                _ _ _ _ _ _ Hsep E) as Hq.
  apply (update_loop_quiet_noop reading_impl removeFurigana f Hans).
  intros k Hk. by apply Hq, Hsub.
Qed.

(** X25: under the same conditions, a scan that has shown no error
    has nothing left for the next scan: the same scan run again on the
    collection it has left changes no note, writes none, assigns no
    field and shows no tooltip of success. *)
Theorem scan_twice {MecabState : Type}
    (reading_impl :
       MecabState -> str -> bool -> bool -> MecabState * result str)
    (removeFurigana : str -> str) (search : str -> Z -> Note -> bool)
    (f : str -> bool -> bool -> str) (is_manual : bool)
    (scan_config : AutoGenerateConfig) (cfg : Config)
    (w : World MecabState) :
  answers reading_impl f ->
  separate_fields (rule_pairs (default [] (ag_rules scan_config))) ->
  (forall x,
     ErrorShown x
       ∉ fst (snd (run_furigana_scan reading_impl removeFurigana search
                     is_manual scan_config cfg w))) ->
  exists w1 w2 shown,
    fst (run_furigana_scan reading_impl removeFurigana search is_manual
           scan_config cfg w) = w1
    /\ run_furigana_scan reading_impl removeFurigana search is_manual
         scan_config cfg w1 = (w2, (shown, Ok tt))
    /\ notes w2 = notes w1 /\ writes w2 = writes w1
    /\ assigns w2 = assigns w1
    /\ forall count, TooltipGenerated count ∉ shown.
Proof.
  intros Hans Hsep Hok.
  set (scan := run_furigana_scan reading_impl removeFurigana search
                 is_manual scan_config cfg) in *.
  assert (forall w0 : World MecabState,
            fst (scan w0) = w0 ->
            (forall e, e ∈ fst (snd (scan w0)) ->
               e = TooltipNoRules \/ e = TooltipStarting
               \/ e = TooltipNothingNeeded) ->
            snd (snd (scan w0)) = Ok tt ->
            exists w2 shown,
              scan w0 = (w2, (shown, Ok tt))
              /\ notes w2 = notes w0 /\ writes w2 = writes w0
              /\ assigns w2 = assigns w0
              /\ forall count, TooltipGenerated count ∉ shown) as Hend.
  { intros w0 Hw Hev Hres.
    destruct (scan w0) as [w2 [shown res]]. simpl in *. subst.
    exists w0, shown. repeat (split; [done|]).
    intros count Hin. by destruct (Hev _ Hin) as [?|[?|?]]. }
  pose proof (scan_shape reading_impl removeFurigana search is_manual
                scan_config cfg w) as Hshape.
  fold scan in Hshape.
  destruct Hshape as [(Hw & _ & Hev & Hres)
                     |(nids & w1 & res & _ & _ & _ & Hsel & E & Hrun)].
  { exists w.
    destruct (Hend w Hw Hev Hres) as (w2 & shown & ?). by exists w2, shown. }
  rewrite Hrun in Hok |- *. simpl fst in *. exists w1.
  destruct res as [count|x].
  2:{ exfalso. apply (Hok x). apply elem_of_app. right. left. }
  unfold do_update in E.
  pose proof (update_loop_settles reading_impl removeFurigana f Hans cfg
                _ _ _ _ _ _ Hsep E) as Hq.
  pose proof (scan_shape reading_impl removeFurigana search is_manual
                scan_config cfg w1) as Hshape.
  fold scan in Hshape.
  destruct Hshape as [(Hw' & _ & Hev' & Hres')
                     |(nids' & w2 & res' & _ & _ & _ & Hsel' & E' & Hrun')].
  { destruct (Hend w1 Hw' Hev' Hres') as (w2 & shown & ?).
    by exists w2, shown. }
  destruct (update_loop_quiet_noop reading_impl removeFurigana f Hans cfg
              (default [] (ag_rules scan_config)) nids' 0 w1)
    as (w2' & E2 & Hn & Hw & Ha).
  { intros k Hk. destruct (decide (k ∈ nids)) as [Hin|Hout]; [by apply Hq|].
    exfalso. apply Hout, Hsel.
    apply (rule_selects_same search _ (notes w1)).
    - symmetry. by eapply update_loop_other.
    - by apply Hsel'. }
  unfold do_update in E'. rewrite E2 in E'. injection E' as <- <-.
  eexists w2', _. split; [done|]. split; [exact Hrun'|].
  repeat (split; [done|]).
  intros c Hin. unfold on_done in Hin. simpl in Hin.
  rewrite app_nil_r in Hin. destruct is_manual.
  - by apply elem_of_cons in Hin as [?|[?|?%elem_of_nil]%elem_of_cons].
  - by apply elem_of_nil in Hin.
Qed.

(** * The further statements on sample data *)

(** Setting a shortcut on the sample instance. *)
Lemma setter_round_trip_witness :
  exists self' mgr',
    ConfigPy.call_setter
      (ConfigPy.SetKeyboardShortcut (lit "add_furigana") (lit "Ctrl+F"))
      Sample.loaded Sample.manager = (ConfigPy.Done self', mgr')
    /\ ConfigPy.getKeyboardShortcut self' (lit "add_furigana")
       = ConfigPy.Done (lit "Ctrl+F")
    /\ ConfigPy.getKeyboardShortcut self' (lit "del_furigana")
       = ConfigPy.Done (lit "Ctrl+Alt+R")
    /\ ConfigPy.getIgnoreNumbers self' = ConfigPy.Done true.
Proof.
  eexists. eexists.
  assert (ConfigPy.call_setter
            (ConfigPy.SetKeyboardShortcut (lit "add_furigana")
               (lit "Ctrl+F"))
            Sample.loaded Sample.manager = _) as Hset by reflexivity.
  split; [exact Hset|].
  destruct (ConfigFacts.setter_round_trip _ _ _ _ _ Hset)
    as (Hget & Hother & _ & Hnum & _).
  split; [exact Hget|]. split.
  - rewrite Hother; [reflexivity | done].
  - by rewrite Hnum.
Defined.

(** Setting the ruby flag on the sample instance and constructing
    [Config] again gives the instance back. *)
Lemma setter_then_reload_witness :
  exists self' mgr',
    ConfigPy.Config_init (Some Sample.manager) Sample.package
    = ConfigPy.Done Sample.loaded
    /\ ConfigPy.call_setter (ConfigPy.SetUseRubyTags true) Sample.loaded
         Sample.manager = (ConfigPy.Done self', mgr')
    /\ ConfigPy.Config_init (Some mgr') Sample.package
       = ConfigPy.Done self'.
Proof.
  eexists. eexists.
  assert (ConfigPy.Config_init (Some Sample.manager) Sample.package
          = ConfigPy.Done Sample.loaded) as Hinit by reflexivity.
  assert (ConfigPy.call_setter (ConfigPy.SetUseRubyTags true) Sample.loaded
            Sample.manager = _) as Hset by reflexivity.
  split; [exact Hinit|]. split; [exact Hset|].
  exact (proj2 (ConfigFacts.setter_then_reload _ _ _ _ _ _ _ Hinit Hset) I).
Defined.

(** The sample file has an enabled scan and no interval: the timer
    runs at 30 s. *)
Lemma setup_auto_scanner_after_init_witness :
  ConfigPy.configs Sample.manager !! Sample.package = Some Sample.bare_file
  /\ ConfigPy.Config_init (Some Sample.manager) Sample.package
     = ConfigPy.Done Sample.loaded
  /\ fst (setup_auto_scanner (ConfigPy.getAutoGenerateConfig Sample.loaded)
            None)
     = Some (mkQTimer true 30000).
Proof.
  assert (ConfigPy.configs Sample.manager !! Sample.package
          = Some Sample.bare_file) as Hfile by reflexivity.
  assert (ConfigPy.Config_init (Some Sample.manager) Sample.package
          = ConfigPy.Done Sample.loaded) as Hinit by reflexivity.
  split; [exact Hfile|]. split; [exact Hinit|].
  exact (setup_auto_scanner_after_init Sample.manager Sample.package
           Sample.loaded Sample.bare_file None Hfile Hinit eq_refl).
Defined.

(** Two entities between spaces. *)
Lemma effectively_empty_without_tags_witness :
  forallb (fun c => negb (c =? TagRe.lt_sign)) (lit " &nbsp;&nbsp; ") = true
  /\ is_field_effectively_empty (lit " &nbsp;&nbsp; ") = true.
Proof.
  split; [reflexivity|].
  apply (effectively_empty_without_tags (lit " &nbsp;&nbsp; ") eq_refl).
  by exists 2%nat.
Defined.

(** A line break, a space and an empty bold element. *)
Lemma markup_only_is_empty_witness :
  markup_only (lit "<br> <b></b>")
  /\ is_field_effectively_empty (lit "<br> <b></b>") = true.
Proof.
  assert (markup_only (lit "<br> <b></b>")) as Hm.
  { apply (markup_tag (lit "br") (lit " <b></b>")); [done | reflexivity|].
    apply markup_space; [reflexivity|].
    apply (markup_tag (lit "b") (lit "</b>")); [done | reflexivity|].
    apply (markup_tag (lit "/b") []); [done | reflexivity|].
    apply markup_nil. }
  split; [exact Hm|]. exact (markup_only_is_empty _ Hm).
Defined.

Lemma plain_text_not_empty_witness :
  forallb (fun c => negb (c =? TagRe.lt_sign) && negb (c =? 38)) (lit " cat")
  = true
  /\ forallb is_space (lit " cat") = false
  /\ is_field_effectively_empty (lit " cat") = false.
Proof.
  split; [reflexivity|]. split; [reflexivity|].
  exact (plain_text_not_empty (lit " cat") eq_refl eq_refl).
Defined.

(** The generate button on a selection of two spaces deletes them, and
    the analyzer, which is gone, is not asked. *)
Lemma onGenerateFurigana_blank_selection_witness :
  forallb is_space (lit "  ") = true
  /\ onGenerateFurigana Demo.reading_impl Codec.removeFurigana Demo.cfg
       (lit "  ") (Demo.world 0 Demo.one_note)
     = (Demo.world 0 Demo.one_note, Ok (Modify [])).
Proof.
  split; [reflexivity|].
  exact (onGenerateFurigana_blank_selection Demo.reading_impl
           Codec.removeFurigana Demo.cfg (lit "  ")
           (Demo.world 0 Demo.one_note) eq_refl).
Defined.

(** The page for the sample form. *)
Example index_example :
  index Demo.reading_impl true true Sample.form (Demo.world 5 Demo.one_note)
  = (fst (api_furigana Demo.reading_impl true
            (mkRequest (Some [Demo.neko]) (Some true))
            (Demo.world 5 Demo.one_note)),
     Ok (Rendered (mkPage (Demo.encode true [Demo.neko] Demo.yomi)
                     [Demo.neko] true))).
Proof. by vm_compute. Qed.

(** A rule without [deckName] after the rule of the sample deck: the
    first rule generates the reading, the second raises, and the note
    is not written. *)
Lemma do_update_rule_without_deck_witness :
  let rules := [Sample.reading_rule; Sample.nameless_rule] in
  let w := Demo.world 5 Demo.one_note in
  let run := do_update Demo.reading_impl Codec.removeFurigana Demo.cfg
               rules [1%Z] w in
  (exists r0, r0 ∈ rules /\ deckName r0 = None)
  /\ notes w !! 1%Z = Some (Demo.note_of [Demo.neko] [])
  /\ is_Some (deck (Demo.note_of [Demo.neko] []))
  /\ snd run = Raise TypeError
  /\ writes (fst run) = []
  /\ notes (fst run) = Demo.one_note
  /\ length (readings (fst run)) = 1%nat.
Proof.
  intros rules w run.
  assert (exists r0, r0 ∈ rules /\ deckName r0 = None) as Hr0.
  { exists Sample.nameless_rule. split; [|reflexivity]. right. left. }
  assert (notes w !! 1%Z = Some (Demo.note_of [Demo.neko] [])) as Hnote
    by reflexivity.
  assert (is_Some (deck (Demo.note_of [Demo.neko] []))) as Hdeck
    by (by eexists).
  split; [exact Hr0|]. split; [exact Hnote|]. split; [exact Hdeck|].
  destruct (do_update_rule_without_deck Demo.reading_impl
              Codec.removeFurigana Demo.cfg rules 1%Z [] w _ Hr0 Hnote Hdeck)
    as (_ & Hw & Hn).
  split; [reflexivity|]. split; [exact Hw|]. split; [exact Hn|].
  reflexivity.
Defined.

(** A manual scan of the sample collection: two notes need a reading,
    both are written, and the tooltip says so. *)
Example run_furigana_scan_example :
  let run := run_furigana_scan Demo.reading_impl Codec.removeFurigana
               Demo.search true Sample.scan_config Demo.cfg
               (Demo.world 5 Demo.three_notes) in
  snd run = ([TooltipStarting; ShowTextFound 2; TooltipGenerated 2], Ok tt)
  /\ length (writes (fst run)) = 2%nat
  /\ Demo.stored (fst run) 1 Demo.reading = Some Demo.neko_annotated
  /\ Demo.stored (fst run) 3 Demo.reading = Some (lit "2").
Proof. by vm_compute. Qed.

(** The same scan in the background, with notifications hidden, and
    with an analyzer that is gone. *)
Example background_scan_example :
  snd (run_furigana_scan Demo.reading_impl Codec.removeFurigana
         Demo.search false Sample.scan_config Demo.cfg
         (Demo.world 5 Demo.three_notes)) = ([], Ok tt)
  /\ snd (run_furigana_scan Demo.reading_impl Codec.removeFurigana
            Demo.search false Sample.scan_config Demo.cfg
            (Demo.world 0 Demo.three_notes))
     = ([ErrorShown TokenizerUnavailable], Ok tt).
Proof. by vm_compute. Qed.

(** The id 9 is not in the sample collection: the first note is written
    and the third is not looked at. *)
Lemma bulk_loop_unknown_note_witness :
  let w := Demo.world 5 Demo.three_notes in
  let run := bulk_loop Demo.reading_impl Codec.removeFurigana
               [Demo.expr_to_reading] false true false 3 0
               [1%Z; 9%Z; 3%Z] (0%Q, 0%nat) w in
  notes w !! 9%Z = None
  /\ snd run = Raise NotFoundError
  /\ writes (fst run) = [1%Z].
Proof.
  intros w run.
  assert (notes w !! 9%Z = None) as Hnone by reflexivity.
  split; [exact Hnone|].
  pose proof (bulk_loop_unknown_note Demo.reading_impl Codec.removeFurigana
                [Demo.expr_to_reading] false true false 3 0 [1%Z] [3%Z]
                9%Z (0%Q, 0%nat) w Hnone) as Hrun.
  change (bulk_loop Demo.reading_impl Codec.removeFurigana
            [Demo.expr_to_reading] false true false 3 0
            ([1%Z] ++ 9%Z :: [3%Z]) (0%Q, 0%nat) w) with run in Hrun.
  rewrite Hrun. by vm_compute.
Defined.

(** The sample batch, run twice with the analyzer that never fails. *)
Lemma bulkGenerate_twice_witness :
  let w := Sample.world Demo.three_notes in
  let w1 := fst (bulkGenerate Sample.steady_impl Codec.removeFurigana
                   [1%Z; 2%Z; 3%Z] [Demo.expr_to_reading] true true false
                   w) in
  answers Sample.steady_impl Sample.steady_f
  /\ separate_fields [Demo.expr_to_reading]
  /\ bulkGenerate Sample.steady_impl Codec.removeFurigana
       [1%Z; 2%Z; 3%Z] [Demo.expr_to_reading] true true false w
     = (w1, Ok 2%nat)
  /\ exists w2,
       bulkGenerate Sample.steady_impl Codec.removeFurigana
         [1%Z; 2%Z; 3%Z] [Demo.expr_to_reading] false true false w1
       = (w2, Ok 0%nat)
       /\ notes w2 = notes w1 /\ writes w2 = writes w1
       /\ assigns w2 = assigns w1.
Proof.
  intros w w1.
  assert (answers Sample.steady_impl Sample.steady_f) as Hans.
  { intros m expr n r. reflexivity. }
  assert (separate_fields [Demo.expr_to_reading]) as Hsep.
  { split; [apply NoDup_singleton|].
    intros p sf ->%list_elem_of_singleton [= <-].
    intros Hin%list_elem_of_singleton. discriminate Hin. }
  assert (bulkGenerate Sample.steady_impl Codec.removeFurigana
            [1%Z; 2%Z; 3%Z] [Demo.expr_to_reading] true true false w
          = (w1, Ok 2%nat)) as Hrun by (by vm_compute).
  split; [exact Hans|]. split; [exact Hsep|]. split; [exact Hrun|].
  exact (bulkGenerate_twice Sample.steady_impl Codec.removeFurigana
           Sample.steady_f [1%Z; 2%Z; 3%Z] [Demo.expr_to_reading]
           true false true false w w1 2 Hans Hsep Hrun).
Defined.

(** The pair of the sample rule on the first sample note: the scan
    does for it what the batch does. *)
Lemma update_pair_guards_bulk_pair_witness :
  let st := (fields (Demo.note_of [Demo.neko] []), false) in
  let w := Demo.world 5 Demo.one_note in
  falsy (source Demo.expr_to_reading) = false
  /\ falsy (destination Demo.expr_to_reading) = false
  /\ pair_needs (fst st) Demo.expr_to_reading = true
  /\ update_pair Demo.reading_impl Codec.removeFurigana Demo.cfg 1
       Demo.expr_to_reading st w
     = bulk_pair Demo.reading_impl Codec.removeFurigana 1 true false
         Demo.expr_to_reading st w.
Proof.
  intros st w.
  assert (pair_needs (fst st) Demo.expr_to_reading = true) as Hneeds
    by (by vm_compute).
  split; [reflexivity|]. split; [reflexivity|]. split; [exact Hneeds|].
  pose proof (update_pair_guards_bulk_pair Demo.reading_impl
                Codec.removeFurigana Demo.cfg 1 Demo.expr_to_reading st w
                eq_refl eq_refl) as Heq.
  rewrite Hneeds in Heq. exact Heq.
Defined.

(** The update step on the three sample notes, and again on the two it
    wrote. *)
Lemma do_update_twice_witness :
  let w := Sample.world Demo.three_notes in
  let w1 := fst (do_update Sample.steady_impl Codec.removeFurigana Demo.cfg
                   [Sample.reading_rule] [1%Z; 2%Z; 3%Z] w) in
  answers Sample.steady_impl Sample.steady_f
  /\ separate_fields (rule_pairs [Sample.reading_rule])
  /\ do_update Sample.steady_impl Codec.removeFurigana Demo.cfg
       [Sample.reading_rule] [1%Z; 2%Z; 3%Z] w = (w1, Ok 2%nat)
  /\ [1%Z; 3%Z] ⊆ [1%Z; 2%Z; 3%Z]
  /\ exists w2,
       do_update Sample.steady_impl Codec.removeFurigana Demo.cfg
         [Sample.reading_rule] [1%Z; 3%Z] w1 = (w2, Ok 0%nat)
       /\ notes w2 = notes w1 /\ writes w2 = writes w1
       /\ assigns w2 = assigns w1.
Proof.
  intros w w1.
  assert (answers Sample.steady_impl Sample.steady_f) as Hans.
  { intros m expr n r. reflexivity. }
  assert (separate_fields (rule_pairs [Sample.reading_rule])) as Hsep.
  { split; [apply NoDup_singleton|].
    intros p sf ->%list_elem_of_singleton [= <-].
    intros Hin%list_elem_of_singleton. discriminate Hin. }
  assert (do_update Sample.steady_impl Codec.removeFurigana Demo.cfg
            [Sample.reading_rule] [1%Z; 2%Z; 3%Z] w = (w1, Ok 2%nat))
    as Hrun by (by vm_compute).
  assert ([1%Z; 3%Z] ⊆ [1%Z; 2%Z; 3%Z]) as Hsub.
  { intros x [->|[->|[]%elem_of_nil]%elem_of_cons]%elem_of_cons.
    - left.
    - right. right. left. }
  split; [exact Hans|]. split; [exact Hsep|]. split; [exact Hrun|].
  split; [exact Hsub|].
  exact (do_update_twice Sample.steady_impl Codec.removeFurigana
           Sample.steady_f Demo.cfg [Sample.reading_rule] [1%Z; 2%Z; 3%Z]
           [1%Z; 3%Z] w w1 2 Hans Hsep Hrun Hsub).
Defined.

(** The manual scan of the sample collection, and the same scan again:
    the second finds notes to process (the note whose source has no
    reading to add still passes the test) and changes nothing. *)
Lemma scan_twice_witness :
  let w := Sample.world Demo.three_notes in
  let scan := run_furigana_scan Sample.steady_impl Codec.removeFurigana
                Demo.search true Sample.scan_config Demo.cfg in
  answers Sample.steady_impl Sample.steady_f
  /\ separate_fields
       (rule_pairs (default [] (ag_rules Sample.scan_config)))
  /\ (forall x, ErrorShown x ∉ fst (snd (scan w)))
  /\ notes (fst (scan (fst (scan w)))) = notes (fst (scan w))
  /\ writes (fst (scan (fst (scan w)))) = writes (fst (scan w))
  /\ forall count,
       TooltipGenerated count ∉ fst (snd (scan (fst (scan w)))).
Proof.
  intros w scan.
  assert (answers Sample.steady_impl Sample.steady_f) as Hans.
  { intros m expr n r. reflexivity. }
  assert (separate_fields
            (rule_pairs (default [] (ag_rules Sample.scan_config))))
    as Hsep.
  { split; [apply NoDup_singleton|].
    intros p sf ->%list_elem_of_singleton [= <-].
    intros Hin%list_elem_of_singleton. discriminate Hin. }
  assert (forall x, ErrorShown x ∉ fst (snd (scan w))) as Hok.
  { assert (fst (snd (scan w))
            = [TooltipStarting; ShowTextFound 2; TooltipGenerated 2]) as ->
      by (by vm_compute).
    intros x Hin.
    repeat (apply elem_of_cons in Hin; destruct Hin as [Hin|Hin];
            [discriminate|]).
    by apply elem_of_nil in Hin. }
  split; [exact Hans|]. split; [exact Hsep|]. split; [exact Hok|].
  destruct (scan_twice Sample.steady_impl Codec.removeFurigana Demo.search
              Sample.steady_f true Sample.scan_config Demo.cfg w Hans Hsep
              Hok) as (w1 & w2 & shown & Hw1 & Hrun & Hn & Hw & _ & Hshown).
  fold scan in Hw1, Hrun. rewrite Hw1, Hrun. by repeat split.
Defined.
